(** * Beanstalk bots: the monitoring utilities of [bots/util.py]

    A shallow embedding of the formatting helpers, the event classifier,
    the peg-cross detector and the supervised polling loop, followed by
    the properties the design document states about them.

    Conventions.
    - Python [int] is [Z]; Python [float] is idealised as an exact
      rational [Q] (no rounding error, no infinities, no NaN); [str] is
      [string], a sequence of UTF-8 bytes, so an emoji takes four bytes.
    - A call that may raise returns a [result]; code that also logs or
      hands messages to the sink runs in [M], which collects these
      effects in a trace, in program order.
    - Time is the reading of [time.time()], in seconds. *)

From Stdlib Require Import ZArith QArith Qabs Qround String Ascii List Bool.
From Stdlib Require Import DecimalString Lia Lqa Qpower.
Import ListNotations.

(* ================================================================== *)
(** * The fragment of the Python runtime the bots rely on              *)
(* ================================================================== *)

Module Py.

(** Exceptions the embedded code can raise. [SourceError] stands for a
    failure of an RPC or GraphQL call. *)
Inductive exn : Type :=
| ValueError (msg : string)
| ZeroDivisionError
| AttributeError
| UnboundLocalError
| IndexError
| SourceError (msg : string).

Inductive result (A : Type) : Type :=
| Ok (a : A)
| Raise (e : exn).
Arguments Ok {A} a.
Arguments Raise {A} e.

Definition is_ok {A} (r : result A) : bool :=
  match r with Ok _ => true | Raise _ => false end.

Definition bind_result {A B} (r : result A) (k : A -> result B) : result B :=
  match r with Ok a => k a | Raise e => Raise e end.

(** Log levels of the [logging] module that the bots use. *)
Inductive level : Type := INFO | WARNING | ERROR | CRITICAL.

(** What a run leaves behind: log records, messages handed to the
    monitor's [message_function], and queries for a run of crosses. *)
Inductive effect : Type :=
| Log (lvl : level) (msg : string)
| Send (msg : string)
| GetLastCrosses (n : Z).

Definition trace : Type := list effect.

(** Computations that may raise and that leave a trace. An exception
    keeps the effects that happened before it. *)
Definition M (A : Type) : Type := (result A * trace)%type.

Definition ret {A} (a : A) : M A := (Ok a, []).

Definition raise {A} (e : exn) : M A := (Raise e, []).

Definition bind {A B} (m : M A) (k : A -> M B) : M B :=
  match m with
  | (Ok a, t1) => let (r, t2) := k a in (r, t1 ++ t2)
  | (Raise e, t1) => (Raise e, t1)
  end.

Definition lift {A} (r : result A) : M A := (r, []).

Definition log (lvl : level) (msg : string) : M unit := (Ok tt, [Log lvl msg]).

Definition send (msg : string) : M unit := (Ok tt, [Send msg]).

(** [for x in xs: body(x)]. *)
Fixpoint for_each {A} (xs : list A) (body : A -> M unit) : M unit :=
  match xs with
  | [] => ret tt
  | x :: rest => bind (body x) (fun _ => for_each rest body)
  end.

(** The messages a trace handed to the sink, oldest first. *)
Fixpoint sent (t : trace) : list string :=
  match t with
  | [] => []
  | Send msg :: rest => msg :: sent rest
  | _ :: rest => sent rest
  end.

(** The log records of a trace, oldest first. *)
Fixpoint logged (t : trace) : list (level * string) :=
  match t with
  | [] => []
  | Log lvl msg :: rest => (lvl, msg) :: logged rest
  | _ :: rest => logged rest
  end.

(** The sizes asked of [get_last_crosses], oldest first. *)
Fixpoint requested (t : trace) : list Z :=
  match t with
  | [] => []
  | GetLastCrosses n :: rest => n :: requested rest
  | _ :: rest => requested rest
  end.

(** [divmod_near a b]: the quotient of [a] by [b] rounded to the nearest
    integer, ties to the even quotient, with the matching remainder
    (CPython's [_PyLong_DivmodNear]). *)
Definition divmod_near (a b : Z) : Z * Z :=
  let q := (a / b)%Z in
  let r := (a mod b)%Z in
  let greater_than_half :=
    if (0 <? b)%Z then (b <? 2 * r)%Z else (2 * r <? b)%Z in
  let exactly_half := (2 * r =? b)%Z in
  if greater_than_half || (exactly_half && Z.odd q)
  then ((q + 1)%Z, (r - b)%Z)
  else (q, r).

(** [round(value, ndigits)] on an [int] ([int.__round__]). *)
Definition round_int (value ndigits : Z) : Z :=
  if (0 <=? ndigits)%Z then value
  else (value - snd (divmod_near value (10 ^ (- ndigits))))%Z.

(** [int(x)] on a float: truncation towards zero. *)
Definition int_of_float (x : Q) : Z := Z.quot (Qnum x) (Zpos (Qden x)).

(** [x / y] on floats. *)
Definition truediv (x y : Q) : result Q :=
  if Qeq_bool y 0 then Raise ZeroDivisionError else Ok (x / y).

(** Truth value of a float; [None] is falsy. *)
Definition truthy (x : option Q) : bool :=
  match x with Some q => negb (Qeq_bool q 0) | None => false end.

Definition Qltb (x y : Q) : bool := negb (Qle_bool y x).

Fixpoint repeat_string (s : string) (n : nat) : string :=
  match n with
  | O => EmptyString
  | S n' => (s ++ repeat_string s n')%string
  end.

(** [s * n] on a string: empty when [n <= 0]. *)
Definition str_mul (s : string) (n : Z) : string :=
  repeat_string s (Z.to_nat n).

(** [a or b] on strings: the empty string is falsy. *)
Definition str_or (a b : string) : string :=
  match a with EmptyString => b | _ => a end.

(** [s[:n]]. *)
Definition prefix_slice (n : nat) (s : string) : string := substring 0 n s.

(** [s.endswith(suffix)]. *)
Definition endswith (s suffix : string) : bool :=
  let n := String.length s in
  let k := String.length suffix in
  (k <=? n)%nat && String.eqb (substring (n - k) k s) suffix.

Definition nl : string := String "010"%char EmptyString.

Definition hex_digit (n : N) : ascii :=
  match n with
  | 0%N => "0" | 1%N => "1" | 2%N => "2" | 3%N => "3"
  | 4%N => "4" | 5%N => "5" | 6%N => "6" | 7%N => "7"
  | 8%N => "8" | 9%N => "9" | 10%N => "a" | 11%N => "b"
  | 12%N => "c" | 13%N => "d" | 14%N => "e" | _ => "f"
  end%char.

Fixpoint hex_body (bytes : string) : string :=
  match bytes with
  | EmptyString => EmptyString
  | String c rest =>
      let n := N_of_ascii c in
      String (hex_digit (n / 16)) (String (hex_digit (n mod 16)) (hex_body rest))
  end.

(** [HexBytes.hex()]: the bytes in lower-case hexadecimal after [0x]. *)
Definition hex (bytes : string) : string := ("0x" ++ hex_body bytes)%string.

(** Decimal digits of a natural number. *)
Definition digits (n : Z) : string := NilZero.string_of_uint (N.to_uint (Z.to_N n)).

(** Thousands separators, on the digits read from the right. *)
Fixpoint group3_rev (l : list ascii) (k : nat) : list ascii :=
  match l with
  | [] => []
  | c :: rest =>
      match rest with
      | [] => [c]
      | _ => if (k =? 2)%nat then c :: ","%char :: group3_rev rest 0
             else c :: group3_rev rest (S k)
      end
  end.

Definition with_commas (ds : string) : string :=
  string_of_list_ascii (rev (group3_rev (rev (list_ascii_of_string ds)) 0)).

Definition zero_pad (width : nat) (ds : string) : string :=
  (repeat_string "0" (width - String.length ds) ++ ds)%string.

(** [f'{x:,.{precision}f}']: fixed point, the last digit rounded half to
    even, thousands separators in the integer part. *)
Definition format_fixed (x : Q) (precision : nat) : string :=
  let unit := (10 ^ Z.of_nat precision)%Z in
  let mag := Qabs x * inject_Z unit in
  let scaled := fst (divmod_near (Qnum mag) (Zpos (Qden mag))) in
  let sign := if Qltb x 0 then "-"%string else EmptyString in
  let whole := with_commas (digits (scaled / unit)) in
  match precision with
  | O => (sign ++ whole)%string
  | _ => (sign ++ whole ++ "." ++ zero_pad precision (digits (scaled mod unit)))%string
  end.

End Py.

Import Py.

Declare Scope py_scope.
Delimit Scope py_scope with py.
Notation "x <- m ;; k" := (bind m (fun x => k))
  (at level 61, m at next level, right associativity) : py_scope.
Notation "' pat <- m ;; k" := (bind m (fun x => match x with pat => k end))
  (at level 61, pat pattern, m at next level, right associativity) : py_scope.
Notation "m ;; k" := (bind m (fun _ => k))
  (at level 61, right associativity) : py_scope.
Notation "x <-- r ;; k" := (bind_result r (fun x => k))
  (at level 61, r at next level, right associativity) : py_scope.
Notation "' pat <-- r ;; k" := (bind_result r (fun x => match x with pat => k end))
  (at level 61, pat pattern, r at next level, right associativity) : py_scope.

(* ================================================================== *)
(** * Formatting utilities                                             *)
(* ================================================================== *)

(** [round_num]: round a string or float to the requested precision and
    return it as a string. *)
Definition round_num (number : Q) (precision : nat) : string :=
  format_fixed number precision.

Definition fish : string := "🐟".
Definition shark : string := "🦈".
Definition whale : string := "🐳".

(** [value_to_emojis]: convert a rounded dollar value to a string of
    emojis. *)
Definition value_to_emojis (value : Q) : string :=
  let value := int_of_float value in
  if (value <? 0)%Z then EmptyString
  else
    let value := round_int value (-3) in
    if (value <? 10000)%Z then str_or (str_mul fish (value / 1000)) fish
    else
      let value := round_int value (-4) in
      if (value <? 100000)%Z then str_mul shark (value / 10000)
      else
        let value := round_int value (-5) in
        str_mul whale (value / 100000).

(** Season statistics, read through [float(...)] where the code does. *)
Record SeasonStats : Type := {
  pooledEth : Q;
  pooledBeans : Q;
  lp : Q
}.

(** The Beanstalk subgraph client, as far as [util.py] calls it. *)
Record BeanstalkSqlClient : Type := {
  current_season_stats : result SeasonStats
}.

Definition lp_eq_values_error : string :=
  "Must provide (total_lp & pooled_eth & pooled_beans) OR beanstalk_graph_client".

(** [lp_eq_values]: the amount of ETH and beans equivalent to an amount
    of LP. Absent keyword arguments are [None]. The division and the
    products are exact here, which is all that the tests for zero and
    the errors need; [Rounded.lp_eq_values] below is the same function
    with the rounding of floats, for what is said of the amounts. *)
Definition lp_eq_values (lp_amount : Q)
    (total_lp pooled_eth pooled_beans : option Q)
    (beanstalk_graph_client : option BeanstalkSqlClient) : result (Q * Q) :=
  (' (total_lp, pooled_eth, pooled_beans) <--
     match beanstalk_graph_client with
     | Some client =>
         stats <-- current_season_stats client ;;
         Ok (Some (lp stats), Some (pooledEth stats), Some (pooledBeans stats))
     | None => Ok (total_lp, pooled_eth, pooled_beans)
     end ;;
   match total_lp, pooled_eth, pooled_beans with
   | Some total_lp, Some pooled_eth, Some pooled_beans =>
       bean_pool_ratio <-- truediv pooled_beans total_lp ;;
       eth_pool_ratio <-- truediv pooled_eth total_lp ;;
       let eth_lp := lp_amount * eth_pool_ratio in
       let bean_lp := lp_amount * bean_pool_ratio in
       Ok (eth_lp, bean_lp)
   | _, _, _ => Raise (ValueError lp_eq_values_error)
   end)%py.

(* ================================================================== *)
(** * Event logs and the clients the classifier reads                   *)
(* ================================================================== *)

(** A decoded event log of web3: the event name, its named integer
    arguments, its position in the transaction and the hash of the
    transaction that emitted it. *)
Record EventLog : Type := {
  event : string;
  args : list (string * Z);
  logIndex : Z;
  transactionHash : string
}.

(** [event_log.args.get(key)]. *)
Fixpoint args_get (kvs : list (string * Z)) (key : string) : option Z :=
  match kvs with
  | [] => None
  | (k, v) :: rest => if String.eqb k key then Some v else args_get rest key
  end.

Fixpoint args_eqb (a b : list (string * Z)) : bool :=
  match a, b with
  | [], [] => true
  | (k1, v1) :: a', (k2, v2) :: b' =>
      String.eqb k1 k2 && (v1 =? v2)%Z && args_eqb a' b'
  | _, _ => false
  end.

(** [==] on event logs: equality of all their items. *)
Definition EventLog_eqb (a b : EventLog) : bool :=
  String.eqb (event a) (event b)
  && args_eqb (args a) (args b)
  && (logIndex a =? logIndex b)%Z
  && String.eqb (transactionHash a) (transactionHash b).

(** [str(event_log)], as far as the log messages show it. *)
Definition str_of_log (l : EventLog) : string :=
  ("AttributeDict({'event': '" ++ event l ++ "', 'logIndex': "
   ++ digits (logIndex l) ++ ", 'transactionHash': HexBytes('"
   ++ hex (transactionHash l) ++ "')})")%string.

(** The part of the module [data_access.eth_chain] that [util.py]
    imports: the unit conversions and the method signatures. Each
    conversion takes [args.get(...)], which is [None] for a missing key. *)
Record EthChain : Type := {
  eth_to_float : option Z -> Q;
  bean_to_float : option Z -> Q;
  lp_to_float : option Z -> Q;
  silo_conversion_sigs : list string;
  bean_deposit_sigs : list string
}.

Record Transaction : Type := {
  input : string
}.

(** [eth_chain.BlockchainClient], with the web3 call the monitors make
    through it. *)
Record BlockchainClient : Type := {
  current_eth_and_bean_price : result (Q * Q);
  current_bean_price : result Q;
  avg_swap_price : Q -> Q -> Q -> result Q;
  get_transaction : string -> result Transaction
}.

(** Attribute access on a value that may be [None]. *)
Definition attr {A B : Type} (o : option A) (f : A -> B) : result B :=
  match o with
  | Some a => Ok (f a)
  | None => Raise AttributeError
  end.

(** Reading a local variable that may not have been assigned. *)
Definition local {A : Type} (v : option A) : result A :=
  match v with
  | Some a => Ok a
  | None => Raise UnboundLocalError
  end.

(** [x in names]. *)
Definition str_in (x : string) (names : list string) : bool :=
  existsb (String.eqb x) names.

Definition etherscan_link (txn_hash : string) : string :=
  (nl ++ "<https://etherscan.io/tx/" ++ hex txn_hash ++ ">")%string.

(** The line that chat transports do not strip. *)
Definition blank_line_marker : string := (nl ++ "_ _")%string.

(** [multi_sig_compare]: compare a signature to all signatures in a list
    on their first characters. *)
Fixpoint multi_sig_compare (signature : string) (signatures : list string) : bool :=
  match signatures with
  | [] => false
  | sig :: rest =>
      if String.eqb (prefix_slice 9 signature) (prefix_slice 9 sig) then true
      else multi_sig_compare signature rest
  end.

(* ================================================================== *)
(** * The event classifier                                              *)
(* ================================================================== *)

Section Classifier.

Variable eth_chain : EthChain.

Local Open Scope string_scope.
Local Open Scope py_scope.

(** [default_pool_event_str]. *)
Definition default_pool_event_str (event_log : EventLog)
    (blockchain_client : BlockchainClient) : M string :=
  let event_str := EmptyString in
  let eth_amount := eth_to_float eth_chain (args_get (args event_log) "amount0") in
  let bean_amount := bean_to_float eth_chain (args_get (args event_log) "amount1") in
  let eth_in := eth_to_float eth_chain (args_get (args event_log) "amount0In") in
  let eth_out := eth_to_float eth_chain (args_get (args event_log) "amount0Out") in
  let bean_in := bean_to_float eth_chain (args_get (args event_log) "amount1In") in
  let bean_out := bean_to_float eth_chain (args_get (args event_log) "amount1Out") in
  ' (eth_price, bean_price) <- lift (current_eth_and_bean_price blockchain_client) ;;
  let finish (event_str : string) : M string :=
    let event_str := event_str ++ etherscan_link (transactionHash event_log) in
    let event_str := event_str ++ blank_line_marker in
    ret event_str in
  if str_in (event event_log) ["Mint"; "Burn"] then
    let event_str :=
      if String.eqb (event event_log) "Mint"
      then event_str ++ "📥 LP added - " ++ round_num bean_amount 2
           ++ " Beans and " ++ round_num eth_amount 4 ++ " ETH"
      else event_str in
    let event_str :=
      if String.eqb (event event_log) "Burn"
      then event_str ++ "📤 LP removed - " ++ round_num bean_amount 2
           ++ " Beans and " ++ round_num eth_amount 4 ++ " ETH"
      else event_str in
    let lp_value := (bean_amount * bean_price * 2)%Q in
    let event_str := event_str ++ " ($" ++ round_num lp_value 2 ++ ")" in
    let event_str := event_str ++ nl ++ value_to_emojis lp_value in
    finish event_str
  else if String.eqb (event event_log) "Swap" then
    let after_swap (event_str : string) (swap_price swap_value : Q) : M string :=
      let event_str := event_str ++ " @ $" ++ round_num swap_price 4
                       ++ " ($" ++ round_num swap_value 2 ++ ")" in
      let event_str := event_str ++ "  -  Latest block price is $"
                       ++ round_num bean_price 4 in
      let event_str := event_str ++ nl ++ value_to_emojis swap_value in
      finish event_str in
    if Qltb 0 eth_in then
      let event_str := event_str ++ "📗 " ++ round_num bean_out 2
                       ++ " Beans bought for " ++ round_num eth_in 4 ++ " ETH" in
      swap_price <- lift (avg_swap_price blockchain_client eth_in bean_out eth_price) ;;
      let swap_value := (swap_price * bean_out)%Q in
      after_swap event_str swap_price swap_value
    else if Qltb 0 bean_in then
      let event_str := event_str ++ "📕 " ++ round_num bean_in 2
                       ++ " Beans sold for " ++ round_num eth_out 4 ++ " ETH" in
      swap_price <- lift (avg_swap_price blockchain_client eth_out bean_in eth_price) ;;
      let swap_value := (swap_price * bean_in)%Q in
      after_swap event_str swap_price swap_value
    else
      log CRITICAL "Unexpected Swap args detected." ;;
      ret EmptyString
  else finish event_str.

(** [default_beanstalk_event_str]. The log may be [None]: the protocol
    monitor appends its retained deposit without checking it. *)
Definition default_beanstalk_event_str (event_log : option EventLog)
    (blockchain_client : BlockchainClient)
    (beanstalk_graph_client : BeanstalkSqlClient) : M string :=
  let event_str := EmptyString in
  ' (eth_price, bean_price) <- lift (current_eth_and_bean_price blockchain_client) ;;
  log_args <- lift (attr event_log args) ;;
  let lp_amount := lp_to_float eth_chain (args_get log_args "lp") in
  ' (lp_eth, lp_beans) <-
    lift (lp_eq_values lp_amount None None None (Some beanstalk_graph_client)) ;;
  let lp_value := (lp_eth * eth_price + lp_beans * bean_price)%Q in
  let beans_amount := bean_to_float eth_chain (args_get log_args "beans") in
  let beans_value := (beans_amount * bean_price)%Q in
  let pods_amount := bean_to_float eth_chain (args_get log_args "pods") in
  kind <- lift (attr event_log event) ;;
  let finish (event_str : string) : M string :=
    txn_hash <- lift (attr event_log transactionHash) ;;
    let event_str := event_str ++ etherscan_link txn_hash in
    let event_str := event_str ++ blank_line_marker in
    ret event_str in
  if str_in kind ["BeanRemove"; "LPRemove"] then ret EmptyString
  else if str_in kind ["LPDeposit"; "LPWithdraw"; "LPClaim"] then
    let event_str :=
      if String.eqb kind "LPDeposit" then event_str ++ "📥 LP deposited"
      else if String.eqb kind "LPWithdraw" then event_str ++ "📭 LP withdrawn"
      else if String.eqb kind "LPClaim" then event_str ++ "🛍 LP claimed"
      else event_str in
    let event_str := event_str ++ " - " ++ round_num lp_beans 2 ++ " Beans and "
                     ++ round_num lp_eth 4 ++ " ETH ($" ++ round_num lp_value 2 ++ ")" in
    let event_str := event_str ++ nl ++ value_to_emojis lp_value in
    finish event_str
  else if str_in kind ["BeanDeposit"; "BeanWithdraw"; "BeanClaim"] then
    let event_str :=
      if String.eqb kind "BeanDeposit" then event_str ++ "📥 Beans deposited"
      else if String.eqb kind "BeanWithdraw" then event_str ++ "📭 Beans withdrawn"
      else if String.eqb kind "BeanClaim" then event_str ++ "🛍 Beans claimed"
      else event_str in
    let event_str := event_str ++ " - " ++ round_num beans_amount 2
                     ++ " Beans ($" ++ round_num beans_value 2 ++ ")" in
    let event_str := event_str ++ nl ++ value_to_emojis beans_value in
    finish event_str
  else if String.eqb kind "Sow" then
    let event_str := event_str ++ "🚜 " ++ round_num beans_amount 2 ++ " Beans sown for "
                     ++ round_num pods_amount 2 ++ " Pods ($"
                     ++ round_num beans_value 2 ++ ")" in
    let event_str := event_str ++ nl ++ value_to_emojis beans_value in
    finish event_str
  else
    log WARNING ("Unexpected event log from Beanstalk contract ("
                 ++ match event_log with Some l => str_of_log l | None => "None" end
                 ++ "). Ignoring.") ;;
    ret EmptyString.

End Classifier.

(** The local variables of [silo_conversion_str]. The first two start
    as Python's [None]; for the others [None] says that no assignment
    has run yet, and reading one raises [UnboundLocalError]. *)
Record SiloLocals : Type := {
  beans_converted : option Q;
  lp_converted : option Q;
  lp_converted_eth : option Q;
  lp_converted_beans : option Q;
  beans_deposited : option Q;
  lp_deposited : option Q;
  lp_deposited_eth : option Q;
  lp_deposited_beans : option Q;
  value : option Q
}.

Definition silo_locals_init : SiloLocals :=
  {| beans_converted := None; lp_converted := None;
     lp_converted_eth := None; lp_converted_beans := None;
     beans_deposited := None; lp_deposited := None;
     lp_deposited_eth := None; lp_deposited_beans := None;
     value := None |}.

Definition set_beans_converted (v : SiloLocals) (beans price : Q) : SiloLocals :=
  {| beans_converted := Some beans; lp_converted := lp_converted v;
     lp_converted_eth := lp_converted_eth v; lp_converted_beans := lp_converted_beans v;
     beans_deposited := beans_deposited v; lp_deposited := lp_deposited v;
     lp_deposited_eth := lp_deposited_eth v; lp_deposited_beans := lp_deposited_beans v;
     value := Some (beans * price) |}.

Definition set_lp_converted (v : SiloLocals) (amount eth beans : Q) : SiloLocals :=
  {| beans_converted := beans_converted v; lp_converted := Some amount;
     lp_converted_eth := Some eth; lp_converted_beans := Some beans;
     beans_deposited := beans_deposited v; lp_deposited := lp_deposited v;
     lp_deposited_eth := lp_deposited_eth v; lp_deposited_beans := lp_deposited_beans v;
     value := value v |}.

Definition set_beans_deposited (v : SiloLocals) (beans price : Q) : SiloLocals :=
  {| beans_converted := beans_converted v; lp_converted := lp_converted v;
     lp_converted_eth := lp_converted_eth v; lp_converted_beans := lp_converted_beans v;
     beans_deposited := Some beans; lp_deposited := lp_deposited v;
     lp_deposited_eth := lp_deposited_eth v; lp_deposited_beans := lp_deposited_beans v;
     value := Some (beans * price) |}.

Definition set_lp_deposited (v : SiloLocals) (amount eth beans price : Q) : SiloLocals :=
  {| beans_converted := beans_converted v; lp_converted := lp_converted v;
     lp_converted_eth := lp_converted_eth v; lp_converted_beans := lp_converted_beans v;
     beans_deposited := beans_deposited v; lp_deposited := Some amount;
     lp_deposited_eth := Some eth; lp_deposited_beans := Some beans;
     value := Some (beans * 2 * price) |}.

Section SiloConversion.

Variable eth_chain : EthChain.

Local Open Scope string_scope.
Local Open Scope py_scope.

(** One turn of the loop of [silo_conversion_str] over the event logs. *)
Definition silo_conversion_step (bean_price : Q)
    (beanstalk_graph_client : BeanstalkSqlClient)
    (vars : SiloLocals) (event_log : option EventLog) : result SiloLocals :=
  kind <-- attr event_log event ;;
  log_args <-- attr event_log args ;;
  vars <--
    (if String.eqb kind "BeanRemove" then
       let beans := bean_to_float eth_chain (args_get log_args "beans") in
       Ok (set_beans_converted vars beans bean_price)
     else if String.eqb kind "LPRemove" then
       let amount := lp_to_float eth_chain (args_get log_args "lp") in
       ' (eth, beans) <-- lp_eq_values amount None None None (Some beanstalk_graph_client) ;;
       Ok (set_lp_converted vars amount eth beans)
     else Ok vars) ;;
  if String.eqb kind "BeanDeposit" then
    let beans := bean_to_float eth_chain (args_get log_args "beans") in
    Ok (set_beans_deposited vars beans bean_price)
  else if String.eqb kind "LPDeposit" then
    let amount := lp_to_float eth_chain (args_get log_args "lp") in
    ' (eth, beans) <-- lp_eq_values amount None None None (Some beanstalk_graph_client) ;;
    Ok (set_lp_deposited vars amount eth beans bean_price)
  else Ok vars.

Fixpoint silo_conversion_loop (bean_price : Q)
    (beanstalk_graph_client : BeanstalkSqlClient)
    (vars : SiloLocals) (event_logs : list (option EventLog)) : result SiloLocals :=
  match event_logs with
  | [] => Ok vars
  | event_log :: rest =>
      vars <-- silo_conversion_step bean_price beanstalk_graph_client vars event_log ;;
      silo_conversion_loop bean_price beanstalk_graph_client vars rest
  end.

(** [silo_conversion_str]: a human-readable string representing a silo
    position conversion. *)
Definition silo_conversion_str (event_logs : list (option EventLog))
    (blockchain_client : BlockchainClient)
    (beanstalk_graph_client : BeanstalkSqlClient) : result string :=
  bean_price <-- current_bean_price blockchain_client ;;
  vars <-- silo_conversion_loop bean_price beanstalk_graph_client
             silo_locals_init event_logs ;;
  event_str <--
    (if truthy (beans_converted vars) then
       converted <-- local (beans_converted vars) ;;
       eth <-- local (lp_deposited_eth vars) ;;
       beans <-- local (lp_deposited_beans vars) ;;
       worth <-- local (value vars) ;;
       Ok (Some ("🔃 " ++ round_num converted 2 ++ " siloed Beans converted to "
                 ++ round_num eth 4 ++ " ETH & " ++ round_num beans 2
                 ++ " Beans of LP ($" ++ round_num worth 2 ++ ")"))
     else if truthy (lp_converted vars) then
       eth <-- local (lp_converted_eth vars) ;;
       beans <-- local (lp_converted_beans vars) ;;
       deposited <-- local (beans_deposited vars) ;;
       worth <-- local (value vars) ;;
       Ok (Some ("🔄 " ++ round_num eth 4 ++ " ETH and " ++ round_num beans 2
                 ++ " Beans of siloed LP converted to " ++ round_num deposited 2
                 ++ " siloed Beans ($" ++ round_num worth 2 ++ ")"))
     else Ok None) ;;
  event_str <-- local event_str ;;
  worth <-- local (value vars) ;;
  let event_str := event_str ++ nl ++ value_to_emojis worth in
  first <-- match event_logs with
            | [] => Raise IndexError
            | first :: _ => Ok first
            end ;;
  txn_hash <-- attr first transactionHash ;;
  let event_str := event_str ++ etherscan_link txn_hash in
  Ok event_str.

End SiloConversion.

(* ================================================================== *)
(** * The transaction event monitors                                    *)
(* ================================================================== *)

(** [str(event_logs)]. *)
Fixpoint str_of_logs_body (ls : list EventLog) : string :=
  match ls with
  | [] => EmptyString
  | [l] => str_of_log l
  | l :: rest => (str_of_log l ++ ", " ++ str_of_logs_body rest)%string
  end.

Definition str_of_logs (ls : list EventLog) : string :=
  ("[" ++ str_of_logs_body ls ++ "]")%string.

Module PoolMonitor.
Section Handler.

Variable eth_chain : EthChain.
Variable blockchain_client : BlockchainClient.

Local Open Scope string_scope.
Local Open Scope py_scope.

(** [PoolMonitor._handle_txn_logs]: process the pool event logs of a
    single transaction. *)
Definition _handle_txn_logs (txn_hash : string) (event_logs : list EventLog) : M unit :=
  transaction <- lift (get_transaction blockchain_client txn_hash) ;;
  let txn_method_sig_prefix := prefix_slice 9 (input transaction) in
  if multi_sig_compare txn_method_sig_prefix (silo_conversion_sigs eth_chain)
  then ret tt
  else
    (if (1 <? length event_logs)%nat
     then log WARNING ("Multiple swaps of interest seen in a single txn ("
                       ++ str_of_logs event_logs ++ ").")
     else ret tt) ;;
    for_each event_logs (fun event_log =>
      event_str <- default_pool_event_str eth_chain event_log blockchain_client ;;
      match event_str with
      | EmptyString => ret tt
      | _ => send event_str
      end).

End Handler.
End PoolMonitor.

Module BeanstalkMonitor.

(** The first loop of the handler: the deposit logs of the group, and
    the one among them with the highest log index. *)
Fixpoint scan_bean_deposits (event_logs : list EventLog)
    (last_bean_deposit : option EventLog) (bean_deposit_logs : list EventLog)
    : option EventLog * list EventLog :=
  match event_logs with
  | [] => (last_bean_deposit, bean_deposit_logs)
  | event_log :: rest =>
      if String.eqb (event event_log) "BeanDeposit" then
        let last_bean_deposit :=
          match last_bean_deposit with
          | None => Some event_log
          | Some last =>
              if (logIndex last <? logIndex event_log)%Z
              then Some event_log else Some last
          end in
        scan_bean_deposits rest last_bean_deposit (bean_deposit_logs ++ [event_log])
      else scan_bean_deposits rest last_bean_deposit bean_deposit_logs
  end.

(** [event_logs.remove(x)]: drop the first item equal to [x]. *)
Fixpoint list_remove (x : EventLog) (event_logs : list EventLog)
    : result (list EventLog) :=
  match event_logs with
  | [] => Raise (ValueError "list.remove(x): x not in list")
  | y :: rest =>
      if EventLog_eqb y x then Ok rest
      else (rest' <-- list_remove x rest ;; Ok (y :: rest'))%py
  end.

(** The second loop of the handler. *)
Fixpoint remove_each (bean_deposit_logs event_logs : list EventLog)
    : result (list EventLog) :=
  match bean_deposit_logs with
  | [] => Ok event_logs
  | event_log :: rest =>
      (event_logs <-- list_remove event_log event_logs ;;
       remove_each rest event_logs)%py
  end.

Section Handler.

Variable eth_chain : EthChain.
Variable blockchain_client : BlockchainClient.
Variable beanstalk_graph_client : BeanstalkSqlClient.

Local Open Scope string_scope.
Local Open Scope py_scope.

(** [BeanstalkMonitor._handle_txn_logs]: process the beanstalk event
    logs of a single transaction. *)
Definition _handle_txn_logs (txn_hash : string) (event_logs : list EventLog) : M unit :=
  transaction <- lift (get_transaction blockchain_client txn_hash) ;;
  let txn_method_sig_prefix := prefix_slice 9 (input transaction) in
  let '(last_bean_deposit, bean_deposit_logs) :=
    scan_bean_deposits event_logs None [] in
  event_logs <- lift (remove_each bean_deposit_logs event_logs) ;;
  let event_logs := map Some event_logs in
  if multi_sig_compare txn_method_sig_prefix (silo_conversion_sigs eth_chain) then
    log INFO ("Silo conversion txn seen (" ++ hex txn_hash ++ ").") ;;
    let event_logs := (event_logs ++ [last_bean_deposit])%list in
    event_str <- lift (silo_conversion_str eth_chain event_logs
                         blockchain_client beanstalk_graph_client) ;;
    send event_str
  else
    event_logs <-
      (if multi_sig_compare txn_method_sig_prefix (bean_deposit_sigs eth_chain) then
         log INFO ("Bean deposit txn seen (" ++ hex txn_hash ++ ").") ;;
         ret (event_logs ++ [last_bean_deposit])%list
       else ret event_logs) ;;
    for_each event_logs (fun event_log =>
      event_str <- default_beanstalk_event_str eth_chain event_log
                     blockchain_client beanstalk_graph_client ;;
      send event_str).

End Handler.
End BeanstalkMonitor.

(* ================================================================== *)
(** * The peg-cross detector                                            *)
(* ================================================================== *)

Module PegCrossMonitor.

Inductive PegCrossType : Type := NO_CROSS | CROSS_ABOVE | CROSS_BELOW.

Definition PegCrossType_value (t : PegCrossType) : Z :=
  match t with NO_CROSS => 0 | CROSS_ABOVE => 1 | CROSS_BELOW => 2 end.

(** A cross record of the Bean subgraph. The code reads [id] through
    [int(...)] and compares the timestamps as they come; both are
    integers here. *)
Record Cross : Type := {
  id : Z;
  timestamp : Z;
  above : bool
}.

(** The Bean subgraph client, as one poll sees it. *)
Record BeanSqlClient : Type := {
  last_cross : result Cross;
  get_last_crosses : Z -> result (list Cross)
}.

Local Open Scope string_scope.
Local Open Scope py_scope.

(** The last loop of [_check_for_peg_crosses]: the type of each new
    cross, in the order of the list. *)
Fixpoint cross_types_of (new_cross_list : list Cross) : M (list PegCrossType) :=
  match new_cross_list with
  | [] => ret []
  | cross :: rest =>
      cross_type <-
        (if above cross
         then log INFO "Price crossed above peg." ;; ret CROSS_ABOVE
         else log INFO "Price crossed below peg." ;; ret CROSS_BELOW) ;;
      cross_types <- cross_types_of rest ;;
      ret (cross_type :: cross_types)
  end.

(** [PegCrossMonitor._check_for_peg_crosses]: the cross types to report
    and the new value of [self.last_known_cross]. *)
Definition _check_for_peg_crosses (bean_graph_client : BeanSqlClient)
    (last_known_cross : option Cross)
    : M (list PegCrossType * option Cross) :=
  last_cross <- lift (last_cross bean_graph_client) ;;
  match last_known_cross with
  | None =>
      log INFO ("Peg cross timestamp initialized with last peg cross = "
                ++ digits (timestamp last_cross)) ;;
      ret ([NO_CROSS], Some last_cross)
  | Some known =>
      if (timestamp last_cross <=? timestamp known)%Z
      then ret ([NO_CROSS], last_known_cross)
      else
        let number_of_new_crosses := (id last_cross - id known)%Z in
        new_cross_list <-
          (if (1 <? number_of_new_crosses)%Z
           then (Ok tt, [GetLastCrosses number_of_new_crosses]) ;;
                lift (get_last_crosses bean_graph_client number_of_new_crosses)
           else ret [last_cross]) ;;
        let last_known_cross := Some last_cross in
        cross_types <- cross_types_of new_cross_list ;;
        ret (cross_types, last_known_cross)
  end.

(** [PegCrossMonitor.peg_cross_string]. *)
Definition peg_cross_string (cross_type : PegCrossType) : string :=
  if (PegCrossType_value cross_type =? PegCrossType_value CROSS_ABOVE)%Z
  then "🟩↗ BEAN crossed above peg!"
  else if (PegCrossType_value cross_type =? PegCrossType_value CROSS_BELOW)%Z
  then "🟥↘ BEAN crossed below peg!"
  else "Peg not crossed.".

Definition is_cross (cross_type : PegCrossType) : bool :=
  match cross_type with NO_CROSS => false | _ => true end.

(** One turn of the loop of [PegCrossMonitor._monitor_method], once its
    pacing lets it through: check, then report every cross found. *)
Definition monitor_turn (bean_graph_client : BeanSqlClient)
    (last_known_cross : option Cross) : M (option Cross) :=
  ' (cross_types, last_known_cross) <-
    _check_for_peg_crosses bean_graph_client last_known_cross ;;
  for_each cross_types (fun cross_type =>
    if is_cross cross_type
    then send (peg_cross_string cross_type)
    else ret tt) ;;
  ret last_known_cross.

(** Successive turns, each against what the subgraph answers at that
    time. A turn that raises leaves [self.last_known_cross] as it was. *)
Fixpoint monitor_turns (answers : list BeanSqlClient)
    (last_known_cross : option Cross) : trace * option Cross :=
  match answers with
  | [] => ([], last_known_cross)
  | client :: rest =>
      let (r, t) := monitor_turn client last_known_cross in
      let last_known_cross :=
        match r with Ok s => s | Raise _ => last_known_cross end in
      let (t', final) := monitor_turns rest last_known_cross in
      ((t ++ t')%list, final)
  end.

(** What a cross is reported as. *)
Definition classify (cross : Cross) : PegCrossType :=
  if above cross then CROSS_ABOVE else CROSS_BELOW.

End PegCrossMonitor.

(* ================================================================== *)
(** * The supervised poller                                             *)
(* ================================================================== *)

Module Monitor.

(** Time to wait before restarting a monitor after an unhandled
    exception, in seconds. *)
Definition MONITOR_RESET_DELAY : Q := 5.

(** How a call of [_monitor_method] ends. [except Exception] catches
    the second case only: [SystemExit] and the like derive from
    [BaseException] alone. *)
Inductive outcome : Type :=
| Returned
| RaisedException (e : exn)
| RaisedBaseException (name : string).

(** One call of the polling body, as the wrapper sees it. *)
Record call : Type := {
  started : Q;
  finished : Q;
  ended : outcome
}.

(** What the wrapper runs in: the polling body, which reads and updates
    the monitor's own state [S] and takes some time; the flag
    [_thread_active] as it reads at a given time ([stop] clears it from
    another thread); and the time at which [time.sleep] returns. *)
Record World (S : Type) : Type := {
  _monitor_method : S -> Q -> outcome * S * Q;
  _thread_active : Q -> bool;
  sleep : Q -> Q -> Q
}.
Arguments _monitor_method {S} w s now.
Arguments _thread_active {S} w now.
Arguments sleep {S} w now seconds.

(** The wrapper's variables: the clock, [retry_time], the monitor's
    state, the calls made so far (latest first) and the records logged
    (oldest first). *)
Record frame (S : Type) : Type := {
  now : Q;
  retry_time : Q;
  self : S;
  calls : list call;
  records : list (level * string)
}.
Arguments now {S} f.
Arguments retry_time {S} f.
Arguments self {S} f.
Arguments calls {S} f.
Arguments records {S} f.

Inductive status : Type :=
| Looping
| Finished
| Killed (name : string).

Definition str_of_exn (e : exn) : string :=
  match e with
  | ValueError msg => msg
  | ZeroDivisionError => "float division by zero"
  | AttributeError => "'NoneType' object has no attribute"
  | UnboundLocalError => "local variable referenced before assignment"
  | IndexError => "list index out of range"
  | SourceError msg => msg
  end.

Section Wrapper.

Variable S : Type.
Variable world : World S.
Variable name : string.

(** [Monitor._thread_wrapper_method], run for at most [fuel] turns of
    its [while] loop. [Looping] says that the loop has not ended within
    these turns. *)
Fixpoint _thread_wrapper_method (fuel : nat) (f : frame S) : status * frame S :=
  match fuel with
  | O => (Looping, f)
  | Datatypes.S fuel' =>
      if negb (_thread_active world (now f)) then (Finished, f)
      else if Qltb (now f) (retry_time f) then
        _thread_wrapper_method fuel'
          {| now := sleep world (now f) (1 # 2); retry_time := retry_time f;
             self := self f; calls := calls f; records := records f |}
      else
        let '(how, self', back) := _monitor_method world (self f) (now f) in
        let this := {| started := now f; finished := back; ended := how |} in
        match how with
        | Returned =>
            _thread_wrapper_method fuel'
              {| now := back; retry_time := back + MONITOR_RESET_DELAY;
                 self := self'; calls := this :: calls f; records := records f |}
        | RaisedException e =>
            _thread_wrapper_method fuel'
              {| now := back; retry_time := back + MONITOR_RESET_DELAY;
                 self := self'; calls := this :: calls f;
                 records := (records f ++
                   [(ERROR, ("Unhandled exception in the " ++ name ++ " thread."
                             ++ nl ++ "Logging here and restarting monitor.")%string);
                    (ERROR, str_of_exn e)])%list |}
        | RaisedBaseException n =>
            (Killed n,
             {| now := back; retry_time := retry_time f;
                self := self'; calls := this :: calls f; records := records f |})
        end
  end.

(** The frame the wrapper starts in. *)
Definition start_frame (s : S) (t : Q) : frame S :=
  {| now := t; retry_time := 0; self := s; calls := []; records := [] |}.

(** The body fails with an exception on its next [n] calls, whenever
    they are made, and returns on the call after them. *)
Fixpoint fails_then_returns (n : nat) (s : S) : Prop :=
  match n with
  | O => forall t, fst (fst (_monitor_method world s t)) = Returned
  | Datatypes.S n' =>
      forall t, (exists e, fst (fst (_monitor_method world s t)) = RaisedException e)
                /\ fails_then_returns n' (snd (fst (_monitor_method world s t)))
  end.

(** Time does not run backwards: a call returns no earlier than it
    started, and a sleep lasts at least as long as asked. *)
Definition causal : Prop :=
  (forall s t, t <= snd (_monitor_method world s t))
  /\ (forall t d, t + d <= sleep world t d).

End Wrapper.
Arguments _thread_wrapper_method {S} world name fuel f.
Arguments start_frame {S} s t.
Arguments fails_then_returns {S} world n s.
Arguments causal {S} world.

(** Failed calls among the calls made. *)
Definition failed (c : call) : bool :=
  match ended c with RaisedException _ => true | _ => false end.

(** Every call but the first starts at least the reset delay after the
    call before it ended ([calls] holds the latest call first). *)
Fixpoint spaced (cs : list call) : Prop :=
  match cs with
  | later :: ((earlier :: _) as rest) =>
      finished earlier + MONITOR_RESET_DELAY <= started later /\ spaced rest
  | _ => True
  end.

(** After a call of the body the wrapper holds [retry_time] five
    seconds after the call ended. *)
Definition retry_after_last_call {S : Type} (f : frame S) : Prop :=
  match calls f with
  | [] => True
  | c :: _ => retry_time f = finished c + MONITOR_RESET_DELAY
  end.

(** [k] sleeps of half a second. *)
Definition half_seconds (k : nat) : Q := inject_Z (Z.of_nat k) * (1 # 2).

End Monitor.

(* ================================================================== *)
(** * The Telegram bot ([bots/telegram_bot.py])                         *)
(* ================================================================== *)

(** [text.replace(old, '')] for a one-character [old]: every occurrence
    goes. *)
Fixpoint remove_char (old : ascii) (text : string) : string :=
  match text with
  | EmptyString => EmptyString
  | String c rest =>
      if Ascii.eqb c old then remove_char old rest
      else String c (remove_char old rest)
  end.

Module TelegramBot.

Definition TELE_CHAT_ID_STAGING : string := "-1001655547288".
Definition TELE_CHAT_ID_PRODUCTION : string := "-1001770089535".

(** The arguments of a call of [tele_bot.send_message]. *)
Record send_message_call : Type := {
  chat_id : string;
  text : string;
  disable_web_page_preview : bool
}.

(** [TelegramBot.__init__], as far as it sets [self._chat_id]. *)
Definition _chat_id (prod : bool) : string :=
  if prod then TELE_CHAT_ID_PRODUCTION else TELE_CHAT_ID_STAGING.

(** [TelegramBot.send_msg]: the call of [send_message] it makes. *)
Definition send_msg (prod : bool) (text : string) : send_message_call :=
  let text := remove_char ">" (remove_char "<" text) in
  {| chat_id := _chat_id prod; text := text; disable_web_page_preview := true |}.

End TelegramBot.

(* ================================================================== *)
(** * The sunrise monitor                                               *)
(* ================================================================== *)

Module SunriseMonitor.

(** Seconds in a season, and seconds between polls of the subgraph
    during a sunrise. *)
Definition SEASON_DURATION : Q := 3600.
Definition SUNRISE_CHECK_PERIOD : Q := 10.

(** [x % y] on floats, for a positive [y]. *)
Definition float_mod (x y : Q) : Q := x - y * inject_Z (Qfloor (x / y)).

(** A season of the Beanstalk subgraph: the keys the monitor reads,
    with the values as the subgraph client hands them over. *)
Record Season (value : Type) : Type := {
  id : value;
  timestamp : value;
  price : value;
  weather : value;
  newFarmableBeans : value;
  newHarvestablePods : value;
  newDepositedLP : value;
  newWithdrawnLP : value;
  newDepositedBeans : value;
  newWithdrawnBeans : value;
  newPods : value;
  pooledEth : value;
  pooledBeans : value;
  lp : value
}.
Arguments id {value} s.
Arguments timestamp {value} s.
Arguments price {value} s.
Arguments weather {value} s.
Arguments newFarmableBeans {value} s.
Arguments newHarvestablePods {value} s.
Arguments newDepositedLP {value} s.
Arguments newWithdrawnLP {value} s.
Arguments newDepositedBeans {value} s.
Arguments newWithdrawnBeans {value} s.
Arguments newPods {value} s.
Arguments pooledEth {value} s.
Arguments pooledBeans {value} s.
Arguments lp {value} s.

(** The Beanstalk subgraph client, as the sunrise monitor calls it at a
    given time: the current and the last season, or an error, and the
    time at which the call comes back. *)
Record BeanstalkSqlClient (value : Type) : Type := {
  seasons_stats : Q -> result (Season value * Season value) * Q
}.
Arguments seasons_stats {value} b now.

(** The variables of [_wait_until_expected_sunrise]. *)
Record waiting : Type := {
  wait_now : Q;
  loop_count : Z;
  wait_records : list (level * string)
}.

(** The state of the monitor around [_block_and_get_seasons_stats]: the
    clock, [self.current_season_id] and the records logged. *)
Record blocking (value : Type) : Type := {
  now : Q;
  current_season_id : option value;
  records : list (level * string)
}.
Arguments now {value} b.
Arguments current_season_id {value} b.
Arguments records {value} b.

Section Sunrise.

(** The values of the subgraph and what Python makes of them:
    [float(v)], [int(v)], [str(v)] in an f-string, and [v == w]. *)
Variable value : Type.
Variable float : value -> result Q.
Variable int : value -> result Z.
Variable str : value -> string.
Variable equal : value -> value -> bool.

Variable S : Type.
Variable world : Monitor.World S.
Variable beanstalk_graph_client : BeanstalkSqlClient value.

Local Open Scope string_scope.
Local Open Scope py_scope.

(** [SunriseMonitor.season_summary_string]. *)
Definition season_summary_string (last_season_stats current_season_stats : Season value)
    : result string :=
  new_farmable_beans <-- float (newFarmableBeans current_season_stats) ;;
  new_harvestable_pods <-- float (newHarvestablePods current_season_stats) ;;
  let newMintedBeans := (new_farmable_beans + new_harvestable_pods)%Q in
  new_deposited_lp <-- float (newDepositedLP last_season_stats) ;;
  new_withdrawn_lp <-- float (newWithdrawnLP last_season_stats) ;;
  pooled_eth <-- float (pooledEth current_season_stats) ;;
  pooled_beans <-- float (pooledBeans current_season_stats) ;;
  total_lp <-- float (lp current_season_stats) ;;
  ' (deposited_eth_lp, deposited_bean_lp) <--
    lp_eq_values new_deposited_lp (Some total_lp) (Some pooled_eth) (Some pooled_beans)
      None ;;
  ' (withdrawn_eth_lp, withdrawn_bean_lp) <--
    lp_eq_values new_withdrawn_lp (Some total_lp) (Some pooled_eth) (Some pooled_beans)
      None ;;
  last_weather <-- float (weather last_season_stats) ;;
  newPods <-- float (newPods last_season_stats) ;;
  let ret_string := "⏱ Season " ++ str (id last_season_stats) ++ " is complete!" in
  twap <-- float (price current_season_stats) ;;
  let ret_string := ret_string ++ nl ++ "💵 The TWAP last season was $"
                    ++ round_num twap 3 in
  let ret_string := ret_string ++ nl ++ "🌤 The weather is "
                    ++ str (weather current_season_stats) ++ "%" in
  let ret_string :=
    if truthy (Some newMintedBeans) then
      let ret_string := ret_string ++ nl ++ nl ++ "🌱 " ++ round_num newMintedBeans 2
                        ++ " Beans were minted" in
      let ret_string := ret_string ++ nl ++ "👩‍🌾 " ++ round_num new_farmable_beans 2
                        ++ " Beans are newly farmable" in
      ret_string ++ nl ++ "👨‍🌾 " ++ round_num new_harvestable_pods 2
      ++ " Pods are newly harvestable"
    else ret_string ++ nl ++ nl ++ "🌱 No new Beans were minted." in
  new_deposited_beans <-- float (newDepositedBeans last_season_stats) ;;
  let ret_string := ret_string ++ nl ++ nl ++ "📥 " ++ round_num new_deposited_beans 2
                    ++ " Beans deposited" in
  let ret_string := ret_string ++ nl ++ "📥 " ++ round_num deposited_bean_lp 2
                    ++ " Beans and " ++ round_num deposited_eth_lp 2
                    ++ " ETH of LP deposited" in
  new_withdrawn_beans <-- float (newWithdrawnBeans last_season_stats) ;;
  let ret_string := ret_string ++ nl ++ "📤 " ++ round_num new_withdrawn_beans 2
                    ++ " Beans withdrawn" in
  let ret_string := ret_string ++ nl ++ "📤 " ++ round_num withdrawn_bean_lp 2
                    ++ " Beans and " ++ round_num withdrawn_eth_lp 2
                    ++ " ETH of LP withdrawn" in
  sown <-- truediv newPods (1 + last_weather / 100) ;;
  let ret_string := ret_string ++ nl ++ "🚜 " ++ round_num sown 2 ++ " Beans sown" in
  let ret_string := ret_string ++ nl ++ "🌾 " ++ round_num newPods 2 ++ " Pods minted" in
  let ret_string := ret_string ++ nl ++ "_ _" in
  Ok ret_string.

(** The loop of [_wait_until_expected_sunrise], for at most [fuel]
    turns; [None] says that it has not ended within them. *)
Fixpoint wait_loop (fuel : nat) (sunrise_ready_timestamp : Q) (w : waiting)
    : option waiting :=
  match fuel with
  | O => None
  | Datatypes.S fuel' =>
      if Monitor._thread_active world (wait_now w)
         && Qltb (wait_now w) sunrise_ready_timestamp
      then
        let logged :=
          if (loop_count w mod 60 =? 0)%Z
          then (wait_records w ++
                [(INFO, ("Blindly waiting "
                         ++ digits (int_of_float
                                      ((sunrise_ready_timestamp - wait_now w) / 60))
                         ++ " more minutes until expected sunrise.")%string)])%list
          else wait_records w in
        wait_loop fuel' sunrise_ready_timestamp
          {| wait_now := Monitor.sleep world (wait_now w) 1;
             loop_count := loop_count w + 1;
             wait_records := logged |}
      else Some w
  end.

Definition sunrise_ready (time : Q) : Q :=
  let seconds_until_next_sunrise := (SEASON_DURATION - float_mod time SEASON_DURATION)%Q in
  (time + seconds_until_next_sunrise)%Q.

(** [SunriseMonitor._wait_until_expected_sunrise], entered at [time]. *)
Definition _wait_until_expected_sunrise (fuel : nat) (time : Q) : option waiting :=
  let sunrise_ready_timestamp := sunrise_ready time in
  let loop_count := 0%Z in
  wait_loop fuel sunrise_ready_timestamp
    {| wait_now := time; loop_count := loop_count; wait_records := [] |}.

(** [self.current_season_id != current_season_stats['id']]. *)
Definition differs (current_season_id : option value) (v : value) : bool :=
  match current_season_id with
  | None => true
  | Some known => negb (equal known v)
  end.

(** [SunriseMonitor._block_and_get_seasons_stats], for at most [fuel]
    turns of its loop; [None] says that it has not ended within them. *)
Fixpoint _block_and_get_seasons_stats (fuel : nat) (b : blocking value)
    : option (result (option (Season value) * option (Season value)) * blocking value) :=
  match fuel with
  | O => None
  | Datatypes.S fuel' =>
      if negb (Monitor._thread_active world (now b)) then Some (Ok (None, None), b)
      else
        let (answer, back) := seasons_stats beanstalk_graph_client (now b) in
        let later := {| now := Monitor.sleep world back SUNRISE_CHECK_PERIOD;
                        current_season_id := current_season_id b;
                        records := records b |} in
        let raised (e : exn) :=
          Some (Raise e, {| now := back; current_season_id := current_season_id b;
                            records := records b |}) in
        match answer with
        | Raise e => raised e
        | Ok (current_season_stats, last_season_stats) =>
            if differs (current_season_id b) (id current_season_stats) then
              match int (timestamp current_season_stats) with
              | Raise e => raised e
              | Ok stamp =>
                  if Qltb (back - SEASON_DURATION / 2) (inject_Z stamp) then
                    Some (Ok (Some current_season_stats, Some last_season_stats),
                          {| now := back;
                             current_season_id := Some (id current_season_stats);
                             records :=
                               (records b ++
                                [(INFO, ("New season detected with id "
                                         ++ str (id current_season_stats))%string)])%list |})
                  else _block_and_get_seasons_stats fuel' later
              end
            else _block_and_get_seasons_stats fuel' later
        end
  end.

End Sunrise.

Arguments season_summary_string {value} float str last_season_stats current_season_stats.
Arguments wait_loop {S} world fuel sunrise_ready_timestamp w.
Arguments _wait_until_expected_sunrise {S} world fuel time.
Arguments differs {value} equal current_season_id v.
Arguments _block_and_get_seasons_stats {value} int str equal {S} world
  beanstalk_graph_client fuel b.

End SunriseMonitor.

(* ================================================================== *)
(** * Starting and stopping a monitor                                   *)
(* ================================================================== *)

Module Lifecycle.

Definition PEG_UPDATE_FREQUENCY : Q := 1 # 10.
Definition SUNRISE_CHECK_PERIOD : Q := 10.
Definition POOL_CHECK_RATE : Q := 10.
Definition BEANSTALK_CHECK_RATE : Q := 10.

(** A [threading.Thread]: it can be started once, and joined only once
    it has been started. *)
Inductive Thread : Type := Unstarted | Started.

(** The attributes that [Monitor.__init__] sets. *)
Record Monitor : Type := {
  name : string;
  query_rate : Q;
  prod : bool;
  _dry_run : bool;
  _thread_active : bool;
  _thread_wrapper : Thread
}.

(** What a call leaves behind, in order. *)
Inductive action : Type :=
| Info (msg : string)
| Message (text : string)
| ThreadStart
| ThreadJoin (timeout : Q).

(** How a call ends: it returns, the thread refuses with a
    [RuntimeError], or the message function raised. *)
Inductive ending : Type :=
| Returns
| RuntimeError (msg : string)
| MessageFailed (e : exn).

Definition __init__ (name : string) (query_rate : Q) (prod dry_run : bool) : Monitor :=
  {| name := name; query_rate := query_rate; prod := prod; _dry_run := dry_run;
     _thread_active := false; _thread_wrapper := Unstarted |}.

Definition PegCrossMonitor (prod : bool) : Monitor :=
  __init__ "peg" (1 / PEG_UPDATE_FREQUENCY) prod false.

Definition SunriseMonitor (prod : bool) : Monitor :=
  __init__ "sunrise" SUNRISE_CHECK_PERIOD prod false.

Definition PoolMonitor (prod dry_run : bool) : Monitor :=
  __init__ "pool" POOL_CHECK_RATE prod dry_run.

Definition BeanstalkMonitor (prod dry_run : bool) : Monitor :=
  __init__ "beanstalk" BEANSTALK_CHECK_RATE prod dry_run.

Definition set_thread_active (self : Monitor) (active : bool) : Monitor :=
  {| name := name self; query_rate := query_rate self; prod := prod self;
     _dry_run := _dry_run self; _thread_active := active;
     _thread_wrapper := _thread_wrapper self |}.

Definition set_thread_wrapper (self : Monitor) (thread : Thread) : Monitor :=
  {| name := name self; query_rate := query_rate self; prod := prod self;
     _dry_run := _dry_run self; _thread_active := _thread_active self;
     _thread_wrapper := thread |}.

Section Calls.

(** [self.message_function]: the bot's sender, which may raise. *)
Variable message_function : string -> result unit.

Local Open Scope string_scope.

(** [self.message_function(text)], then the rest of the call. *)
Definition message (text : string) (self : Monitor) (done : list action)
    (rest : list action -> ending * Monitor * list action)
    : ending * Monitor * list action :=
  match message_function text with
  | Ok _ => rest (done ++ [Message text])%list
  | Raise e => (MessageFailed e, self, done)
  end.

(** [Monitor.start]. *)
Definition start (self : Monitor) : ending * Monitor * list action :=
  let done := [Info ("Starting " ++ name self ++ " monitoring thread...")] in
  let go (done : list action) : ending * Monitor * list action :=
    let self := set_thread_active self true in
    match _thread_wrapper self with
    | Unstarted => (Returns, set_thread_wrapper self Started, (done ++ [ThreadStart])%list)
    | Started => (RuntimeError "threads can only be started once", self, done)
    end in
  if _dry_run self then
    message (name self ++ " monitoring started (with simulated data).") self done go
  else if negb (prod self) then
    message (name self ++ " monitoring started.") self done go
  else go done.

(** [Monitor.stop]. *)
Definition stop (self : Monitor) : ending * Monitor * list action :=
  let done :=
    if negb (prod self)
    then [Info ("Stopping " ++ name self ++ " monitoring thread...")]
    else [] in
  let self := set_thread_active self false in
  match _thread_wrapper self with
  | Unstarted => (RuntimeError "cannot join thread before it is started", self, done)
  | Started =>
      let done := (done ++ [ThreadJoin (3 * query_rate self)])%list in
      message (name self ++ " monitoring stopped.") self done
        (fun done => (Returns, self, done))
  end.

End Calls.

End Lifecycle.

(* ================================================================== *)
(** * The Discord client's message queue                                *)
(* ================================================================== *)

Module DiscordClient.

Definition DISCORD_CHANNEL_ID_PEG_CROSSES : Z := 911338190198169710.
Definition DISCORD_CHANNEL_ID_SEASONS : Z := 911338078080221215.
Definition DISCORD_CHANNEL_ID_POOL : Z := 915372733758603284.
Definition DISCORD_CHANNEL_ID_BEANSTALK : Z := 918240659914227713.
Definition DISCORD_CHANNEL_ID_TEST_BOT : Z := 908035718859874374.

Inductive Channel : Type := PEG | SEASONS | POOL | BEANSTALK.

Definition Channel_name (channel : Channel) : string :=
  match channel with
  | PEG => "PEG" | SEASONS => "SEASONS" | POOL => "POOL" | BEANSTALK => "BEANSTALK"
  end.

(** The channel ids that [__init__] picks; [on_ready] looks the
    channels up by them. *)
Definition _chat_id (prod : bool) (channel : Channel) : Z :=
  if prod then
    match channel with
    | PEG => DISCORD_CHANNEL_ID_PEG_CROSSES
    | SEASONS => DISCORD_CHANNEL_ID_SEASONS
    | POOL => DISCORD_CHANNEL_ID_POOL
    | BEANSTALK => DISCORD_CHANNEL_ID_BEANSTALK
    end
  else DISCORD_CHANNEL_ID_TEST_BOT.

(** An entry of [self.msg_queue]. *)
Definition entry : Type := (Channel * string)%type.

(** Where [send_queued_messages] stands. One turn of its loop takes the
    next entry from the list it walks, awaits the send, and then runs
    [self.msg_queue = self.msg_queue[1:]], which reads the attribute and
    slices the list before it stores the new list, and logs. *)
Inductive position : Type :=
| AtFor
| Sending (x : entry)
| Slicing (x : entry)
| Storing (x : entry) (sliced : list entry)
| Logging (x : entry)
| Returned
| Raised (e : exn).

(** The client while [send_queued_messages] runs. The [for] statement
    walks the list object that [self.msg_queue] named when the loop was
    entered, by index; the first store makes [self.msg_queue] name a new
    list object, and from then on the two lists are different objects.
    [iterated] is the list walked, [aliased] says that [self.msg_queue]
    still names it, and [queue] is the list that [self.msg_queue] names
    once it does not. *)
Record client : Type := {
  iterated : list entry;
  index : nat;
  aliased : bool;
  queue : list entry;
  at_ : position;
  delivered : list (Z * string);
  records : list (level * string)
}.

(** The list that [self.msg_queue] names. *)
Definition msg_queue (self : client) : list entry :=
  if aliased self then iterated self else queue self.

(** [self.msg_queue.append(x)]: the list named is extended in place. *)
Definition append (x : entry) (self : client) : client :=
  if aliased self then
    {| iterated := iterated self ++ [x]; index := index self; aliased := true;
       queue := queue self; at_ := at_ self; delivered := delivered self;
       records := records self |}
  else
    {| iterated := iterated self; index := index self; aliased := false;
       queue := queue self ++ [x]; at_ := at_ self; delivered := delivered self;
       records := records self |}.

Definition send_msg_peg (text : string) : client -> client := append (PEG, text).
Definition send_msg_seasons (text : string) : client -> client := append (SEASONS, text).
Definition send_msg_pool (text : string) : client -> client := append (POOL, text).
Definition send_msg_beanstalk (text : string) : client -> client :=
  append (BEANSTALK, text).

(** The client as [send_queued_messages] is entered. *)
Definition enter (msg_queue : list entry) : client :=
  {| iterated := msg_queue; index := 0; aliased := true; queue := [];
     at_ := AtFor; delivered := []; records := [] |}.

Definition move (self : client) (next : position) : client :=
  {| iterated := iterated self; index := index self; aliased := aliased self;
     queue := queue self; at_ := next; delivered := delivered self;
     records := records self |}.

Section Task.

Variable prod : bool.

(** [channel.send(msg)] of the Discord library, by channel id. *)
Variable send : Z -> string -> result unit.

Local Open Scope string_scope.

(** One step of [send_queued_messages]. *)
Definition step (self : client) : client :=
  match at_ self with
  | AtFor =>
      match nth_error (iterated self) (index self) with
      | Some x =>
          {| iterated := iterated self; index := S (index self);
             aliased := aliased self; queue := queue self; at_ := Sending x;
             delivered := delivered self; records := records self |}
      | None => move self Returned
      end
  | Sending (channel, msg) =>
      match send (_chat_id prod channel) msg with
      | Ok _ =>
          {| iterated := iterated self; index := index self;
             aliased := aliased self; queue := queue self;
             at_ := Slicing (channel, msg);
             delivered := (delivered self ++ [(_chat_id prod channel, msg)])%list;
             records := records self |}
      | Raise e => move self (Raised e)
      end
  | Slicing x => move self (Storing x (tl (msg_queue self)))
  | Storing x sliced =>
      {| iterated := iterated self; index := index self; aliased := false;
         queue := sliced; at_ := Logging x; delivered := delivered self;
         records := records self |}
  | Logging (channel, msg) =>
      {| iterated := iterated self; index := index self; aliased := aliased self;
         queue := queue self; at_ := AtFor; delivered := delivered self;
         records :=
           (records self ++
            [(INFO, ("Message sent through " ++ Channel_name channel ++ " channel:"
                     ++ nl ++ msg ++ nl)%string)])%list |}
  | Returned => self
  | Raised _ => self
  end.

(** What happens next: the task takes a step, or a monitor thread
    calls one of the [send_msg_*] functions. *)
Inductive event : Type :=
| Tick
| Call (x : entry).

Definition happen (self : client) (e : event) : client :=
  match e with
  | Tick => step self
  | Call x => append x self
  end.

Definition run (schedule : list event) (self : client) : client :=
  fold_left happen schedule self.

End Task.

End DiscordClient.

(* ================================================================== *)
(** * The loops of the pool and the protocol monitors                   *)
(* ================================================================== *)

Module EventMonitor.

Definition POOL_CHECK_RATE : Q := 10.
Definition BEANSTALK_CHECK_RATE : Q := 10.

(** The event client of [eth_chain], as a monitor calls it at a given
    time: the new logs by transaction, in the order of the dict, or an
    error, and the time at which the call comes back. *)
Record EthEventsClient : Type := {
  get_new_logs : bool -> Q -> result (list (string * list EventLog)) * Q
}.

(** The variables of the loop: the clock, [last_check_time], the times
    at which the checks were made (latest first) and what the handler
    has logged and pushed. *)
Record looping : Type := {
  now : Q;
  last_check_time : Q;
  checks : list Q;
  effects : trace
}.

Inductive status : Type :=
| Looping
| Stopped
| Failed (e : exn).

Section Loop.

Variable S : Type.
Variable world : Monitor.World S.
Variable _eth_event_client : EthEventsClient.
Variable _dry_run : bool.

(** The rate of the monitor and its [_handle_txn_logs]. *)
Variable check_rate : Q.
Variable _handle_txn_logs : string -> list EventLog -> M unit.

(** The [for] statement over the items of the new logs. *)
Definition handle_all (new_logs : list (string * list EventLog)) : M unit :=
  for_each new_logs (fun item => _handle_txn_logs (fst item) (snd item)).

(** [PoolMonitor._monitor_method] and [BeanstalkMonitor._monitor_method],
    which are the same loop around their own rate, event client and
    handler, for at most [fuel] turns; [Looping] says that the loop has
    not ended within them. *)
Fixpoint _monitor_method (fuel : nat) (l : looping) : status * looping :=
  match fuel with
  | O => (Looping, l)
  | Datatypes.S fuel' =>
      if negb (Monitor._thread_active world (now l)) then (Stopped, l)
      else if Qltb (now l) (last_check_time l + check_rate) then
        _monitor_method fuel'
          {| now := Monitor.sleep world (now l) (1 # 2);
             last_check_time := last_check_time l;
             checks := checks l; effects := effects l |}
      else
        let last_check_time := now l in
        let (answer, back) := get_new_logs _eth_event_client _dry_run (now l) in
        match answer with
        | Raise e =>
            (Failed e,
             {| now := back; last_check_time := last_check_time;
                checks := last_check_time :: checks l; effects := effects l |})
        | Ok new_logs =>
            let (r, t) := handle_all new_logs in
            let after :=
              {| now := back; last_check_time := last_check_time;
                 checks := last_check_time :: checks l;
                 effects := (effects l ++ t)%list |} in
            match r with
            | Ok _ => _monitor_method fuel' after
            | Raise e => (Failed e, after)
            end
        end
  end.

(** The loop as it is entered: [last_check_time = 0]. *)
Definition enter (time : Q) : looping :=
  {| now := time; last_check_time := 0; checks := []; effects := [] |}.

End Loop.

Arguments _monitor_method {S} world _eth_event_client _dry_run check_rate
  _handle_txn_logs fuel l.

(** The two monitors. *)
Definition PoolMonitor_monitor_method {S : Type} (world : Monitor.World S)
    (_eth_event_client : EthEventsClient) (_dry_run : bool)
    (eth_chain : EthChain) (blockchain_client : BlockchainClient)
    : nat -> looping -> status * looping :=
  _monitor_method world _eth_event_client _dry_run POOL_CHECK_RATE
    (PoolMonitor._handle_txn_logs eth_chain blockchain_client).

Definition BeanstalkMonitor_monitor_method {S : Type} (world : Monitor.World S)
    (_eth_event_client : EthEventsClient) (_dry_run : bool)
    (eth_chain : EthChain) (blockchain_client : BlockchainClient)
    (beanstalk_graph_client : BeanstalkSqlClient)
    : nat -> looping -> status * looping :=
  _monitor_method world _eth_event_client _dry_run BEANSTALK_CHECK_RATE
    (BeanstalkMonitor._handle_txn_logs eth_chain blockchain_client
       beanstalk_graph_client).

End EventMonitor.

(* ================================================================== *)
(** * Floats with their rounding                                        *)
(* ================================================================== *)

(** The amounts that [lp_eq_values] returns are the results of one
    float division and one float multiplication, and each of the two
    rounds. Here are CPython's floats, the binary64 numbers of IEEE 754:
    a finite float is the rational number it stands for (the sign of a
    zero is not kept), and every operation returns the exact result
    rounded to the nearest float, ties to the even one: 53 significant
    bits from [2 ^ -1022] on, multiples of [2 ^ -1074] below it, and
    an infinity from [2 ^ 1024] on. *)
Module Rounded.

Inductive float : Type :=
| Finite (x : Q)
| Infinity (negative : bool)
| NaN.

(** The largest [k] with [2 ^ k <= x], for a positive [x]. *)
Definition ilog2 (x : Q) : Z :=
  let k := (Z.log2 (Qnum x) - Z.log2 (Zpos (Qden x)))%Z in
  if Qle_bool (2 ^ k) x then k else (k - 1)%Z.

(** [y] to the nearest integer, ties to the even one. *)
Definition nearest_even (y : Q) : Z :=
  let y := Qred y in
  fst (divmod_near (Qnum y) (Zpos (Qden y))).

(** A positive real to 53 significant bits, whatever its exponent. *)
Definition round_positive (x : Q) : Q :=
  let s := (ilog2 x - 52)%Z in
  inject_Z (nearest_even (x * 2 ^ (- s))) * 2 ^ s.

(** A real to 53 significant bits, whatever its exponent. *)
Definition round (x : Q) : Q :=
  if Qeq_bool x 0 then 0
  else if Qle_bool 0 x then round_positive x
  else - round_positive (- x).

(** A positive real to a multiple of [2 ^ -1074]. *)
Definition round_subnormal (x : Q) : Q :=
  inject_Z (nearest_even (x * 2 ^ 1074)) * 2 ^ (- 1074).

(** The float nearest to a positive real. *)
Definition of_positive (x : Q) : float :=
  let r := if Qle_bool (2 ^ (- 1022)) x then round_positive x
           else round_subnormal x in
  if Qle_bool (2 ^ 1024) r then Infinity false else Finite r.

Definition opp (a : float) : float :=
  match a with
  | Finite x => Finite (- x)
  | Infinity negative => Infinity (negb negative)
  | NaN => NaN
  end.

(** The float nearest to a real: what an operation returns for its
    exact result, and [float(x)] for a number [x]. *)
Definition of_real (x : Q) : float :=
  if Qeq_bool x 0 then Finite 0
  else if Qle_bool 0 x then of_positive x
  else opp (of_positive (- x)).

(** [a == 0.0]. *)
Definition is_zero (a : float) : bool :=
  match a with
  | Finite x => Qeq_bool x 0
  | _ => false
  end.

Definition is_negative (a : float) : bool :=
  match a with
  | Finite x => negb (Qle_bool 0 x)
  | Infinity negative => negative
  | NaN => false
  end.

(** [a * b]. *)
Definition mul (a b : float) : float :=
  match a, b with
  | NaN, _ | _, NaN => NaN
  | Finite x, Finite y => of_real (x * y)
  | Infinity negative, other | other, Infinity negative =>
      if is_zero other then NaN else Infinity (xorb negative (is_negative other))
  end.

(** The quotient of [a] by a [b] that is not zero. *)
Definition div (a b : float) : float :=
  match a, b with
  | NaN, _ | _, NaN => NaN
  | Finite x, Finite y => of_real (x / y)
  | Infinity _, Infinity _ => NaN
  | Infinity negative, Finite y => Infinity (xorb negative (is_negative b))
  | Finite _, Infinity _ => Finite 0
  end.

(** [a / b]. *)
Definition truediv (a b : float) : result float :=
  if is_zero b then Raise ZeroDivisionError else Ok (div a b).

(** [lp_eq_values], with the arithmetic of floats. *)
Definition lp_eq_values (lp_amount : float)
    (total_lp pooled_eth pooled_beans : option float)
    (beanstalk_graph_client : option BeanstalkSqlClient) : result (float * float) :=
  (' (total_lp, pooled_eth, pooled_beans) <--
     match beanstalk_graph_client with
     | Some client =>
         stats <-- current_season_stats client ;;
         let pooled_eth := of_real (pooledEth stats) in
         let pooled_beans := of_real (pooledBeans stats) in
         let total_lp := of_real (lp stats) in
         Ok (Some total_lp, Some pooled_eth, Some pooled_beans)
     | None => Ok (total_lp, pooled_eth, pooled_beans)
     end ;;
   match total_lp, pooled_eth, pooled_beans with
   | Some total_lp, Some pooled_eth, Some pooled_beans =>
       bean_pool_ratio <-- truediv pooled_beans total_lp ;;
       eth_pool_ratio <-- truediv pooled_eth total_lp ;;
       let eth_lp := mul lp_amount eth_pool_ratio in
       let bean_lp := mul lp_amount bean_pool_ratio in
       Ok (eth_lp, bean_lp)
   | _, _, _ => Raise (ValueError lp_eq_values_error)
   end)%py.

End Rounded.

(* ================================================================== *)
(** * Vocabulary of the statements                                      *)
(* ================================================================== *)

(** Number of leading copies of a four-byte glyph in a string. *)
Fixpoint count_glyph (g : string) (s : string) : nat :=
  match s with
  | String a (String b (String c (String d rest))) =>
      if String.eqb g (String a (String b (String c (String d EmptyString))))
      then S (count_glyph g rest)
      else O
  | _ => O
  end.

(** The dollar magnitude a rendered emoji string stands for: a fish is
    a thousand, a shark ten thousand, a whale a hundred thousand. *)
Definition indicated_magnitude (s : string) : Z :=
  (1000 * Z.of_nat (count_glyph fish s)
   + 10000 * Z.of_nat (count_glyph shark s)
   + 100000 * Z.of_nat (count_glyph whale s))%Z.

(** The value the tiering settles on after its successive roundings. *)
Definition settled_value (v : Z) : Z :=
  let r := round_int v (-3) in
  if (r <? 10000)%Z then r
  else
    let r' := round_int r (-4) in
    if (r' <? 100000)%Z then r' else round_int r' (-5).

(** The emojis that stand for a settled value. *)
Definition emojis_of_settled (m : Z) : string :=
  if (m <? 10000)%Z then str_mul fish (Z.max 1 (m / 1000))
  else if (m <? 100000)%Z then str_mul shark (m / 10000)
  else str_mul whale (m / 100000).

(** [r] is a multiple of [p] nearest to [v]. *)
Definition nearest_multiple (p v r : Z) : Prop :=
  ((p | r) /\ 2 * Z.abs (v - r) <= p)%Z.


(** A stats source for the examples: 500 ETH and 2,000,000 Beans
    pooled behind 1,000 LP. *)
Definition sample_stats_client : BeanstalkSqlClient :=
  {| current_season_stats :=
       Ok {| pooledEth := 500; pooledBeans := 2000000; lp := 1000 |} |}.

(** A polling body for the examples: it counts its calls, takes a
    second each time, raises on its first three calls and returns on
    the later ones; nobody stops the monitor, and sleeps are exact. *)
Definition flaky_world : Monitor.World nat :=
  {| Monitor._monitor_method := fun count t =>
       (if (count <? 3)%nat
        then Monitor.RaisedException (SourceError "bad response")
        else Monitor.Returned,
        S count, t + 1);
     Monitor._thread_active := fun _ => true;
     Monitor.sleep := fun t d => t + d |}.

(** What a cross is reported as. *)
Definition report (c : PegCrossMonitor.Cross) : string :=
  PegCrossMonitor.peg_cross_string (PegCrossMonitor.classify c).

(** The crosses of a subgraph, oldest first, are numbered from [n] on
    without a gap. *)
Fixpoint numbered_from (n : Z) (h : list PegCrossMonitor.Cross) : Prop :=
  match h with
  | [] => True
  | c :: rest => PegCrossMonitor.id c = n /\ numbered_from (n + 1) rest
  end.

(** Every cross is later than the one before it. *)
Fixpoint chronological (h : list PegCrossMonitor.Cross) : Prop :=
  match h with
  | a :: ((b :: _) as rest) =>
      (PegCrossMonitor.timestamp a < PegCrossMonitor.timestamp b)%Z
      /\ chronological rest
  | _ => True
  end.

(** The client answers from a subgraph that holds the crosses [h],
    oldest first: [last_cross] is the last of them, and
    [get_last_crosses n] the last [n] of them, oldest first. *)
Definition answers_from (client : PegCrossMonitor.BeanSqlClient)
    (h : list PegCrossMonitor.Cross) : Prop :=
  (forall older latest,
     h = (older ++ [latest])%list -> PegCrossMonitor.last_cross client = Ok latest)
  /\ (forall n, (0 < n <= Z.of_nat (length h))%Z ->
       PegCrossMonitor.get_last_crosses client n
       = Ok (skipn (length h - Z.to_nat n) h)).

(** What successive polls see of a subgraph that already holds [seen]
    and gains one more batch of crosses before each poll. *)
Fixpoint snapshots (seen : list PegCrossMonitor.Cross)
    (batches : list (list PegCrossMonitor.Cross))
    : list (list PegCrossMonitor.Cross) :=
  match batches with
  | [] => []
  | batch :: rest => (seen ++ batch)%list :: snapshots (seen ++ batch)%list rest
  end.

(** A client over a subgraph that holds [h], for the examples. *)
Definition subgraph_client (h : list PegCrossMonitor.Cross)
    : PegCrossMonitor.BeanSqlClient :=
  {| PegCrossMonitor.last_cross :=
       match rev h with
       | [] => Raise (SourceError "no cross yet")
       | latest :: _ => Ok latest
       end;
     PegCrossMonitor.get_last_crosses := fun n =>
       Ok (skipn (length h - Z.to_nat n) h) |}.

(** Four crosses for the examples. *)
Definition cross_1 : PegCrossMonitor.Cross :=
  {| PegCrossMonitor.id := 1; PegCrossMonitor.timestamp := 100;
     PegCrossMonitor.above := true |}.
Definition cross_2 : PegCrossMonitor.Cross :=
  {| PegCrossMonitor.id := 2; PegCrossMonitor.timestamp := 200;
     PegCrossMonitor.above := false |}.
Definition cross_3 : PegCrossMonitor.Cross :=
  {| PegCrossMonitor.id := 3; PegCrossMonitor.timestamp := 250;
     PegCrossMonitor.above := true |}.
Definition cross_4 : PegCrossMonitor.Cross :=
  {| PegCrossMonitor.id := 4; PegCrossMonitor.timestamp := 300;
     PegCrossMonitor.above := false |}.

(** The kind of log that the protocol monitor prunes. *)
Definition is_bean_deposit (l : EventLog) : bool :=
  String.eqb (event l) "BeanDeposit".

(** The deposit with the highest log index so far, the earliest one on
    a tie. *)
Definition later_deposit (last : option EventLog) (l : EventLog) : option EventLog :=
  match last with
  | None => Some l
  | Some d => if (logIndex d <? logIndex l)%Z then Some l else Some d
  end.

(** An [eth_chain] for the examples: token amounts scaled by their
    decimals, a missing amount read as zero, and made-up signatures. *)
Definition scaled (decimals : Z) (amount : option Z) : Q :=
  match amount with
  | Some v => inject_Z v / inject_Z (10 ^ decimals)
  | None => 0
  end.

Definition sample_eth_chain : EthChain :=
  {| eth_to_float := scaled 18;
     bean_to_float := scaled 6;
     lp_to_float := scaled 18;
     silo_conversion_sigs := ["0x1f2a3b4c"; "0x5d6e7f80"]%string;
     bean_deposit_sigs := ["0x75ce258d"]%string |}.

(** A blockchain client for the examples: ETH at $4,000, a Bean at
    $1.01, and every transaction calling the method whose call data is
    [call_data]. *)
Definition sample_blockchain_client (call_data : string) : BlockchainClient :=
  {| current_eth_and_bean_price := Ok (4000, 101 # 100);
     current_bean_price := Ok (101 # 100);
     avg_swap_price := fun eth beans eth_price => truediv (eth * eth_price) beans;
     get_transaction := fun _ => Ok {| input := call_data |} |}.

Definition sample_hash : string := String "171"%char (String "001"%char EmptyString).

Definition bean_deposit_log (position beans : Z) : EventLog :=
  {| event := "BeanDeposit"; args := [("beans"%string, beans)];
     logIndex := position; transactionHash := sample_hash |}.

Definition lp_remove_log (position amount : Z) : EventLog :=
  {| event := "LPRemove"; args := [("lp"%string, amount)];
     logIndex := position; transactionHash := sample_hash |}.

Definition sync_log (position : Z) : EventLog :=
  {| event := "Sync"; args := [("reserve0"%string, 5%Z); ("reserve1"%string, 7%Z)];
     logIndex := position; transactionHash := sample_hash |}.

(** A conversion of two LP into Beans: two deposit logs around the
    removal of the LP. *)
Definition sample_conversion : list EventLog :=
  [bean_deposit_log 1 5000000;
   lp_remove_log 2 2000000000000000000;
   bean_deposit_log 3 4000000000].

(** Lists that differ in the bracketing of their appends only. *)
Ltac same_list :=
  repeat (rewrite <- app_assoc; cbn [app]); cbn [app]; reflexivity.

(** The character occurs in the string. *)
Fixpoint occurs (c : ascii) (s : string) : bool :=
  match s with
  | EmptyString => false
  | String x rest => Ascii.eqb x c || occurs c rest
  end.

(** What the pool renderer returns for a log, the empty string when it
    raises. *)
Definition pool_text (eth_chain : EthChain) (blockchain_client : BlockchainClient)
    (event_log : EventLog) : string :=
  match fst (default_pool_event_str eth_chain event_log blockchain_client) with
  | Ok event_str => event_str
  | Raise _ => EmptyString
  end.

Definition nonempty (s : string) : bool :=
  match s with EmptyString => false | _ => true end.

Definition is_warning (r : level * string) : bool :=
  match fst r with WARNING => true | _ => false end.

(** A message of the peg monitor: one of the two cross announcements. *)
Definition cross_announcement (msg : string) : Prop :=
  msg = PegCrossMonitor.peg_cross_string PegCrossMonitor.CROSS_ABOVE
  \/ msg = PegCrossMonitor.peg_cross_string PegCrossMonitor.CROSS_BELOW.

(** The cursor [c] is set, at a cross stamped no earlier than [ts]. *)
Definition cursor_at_least (ts : Z) (c : option PegCrossMonitor.Cross) : Prop :=
  exists latest, c = Some latest /\ (ts <= PegCrossMonitor.timestamp latest)%Z.

(** The records the wrapper logs for one call: two at error level when
    the call raised an exception, none otherwise. *)
Definition logged_for (name : string) (c : Monitor.call) : list (level * string) :=
  match Monitor.ended c with
  | Monitor.RaisedException e =>
      [(ERROR, ("Unhandled exception in the " ++ name ++ " thread."
                ++ nl ++ "Logging here and restarting monitor.")%string);
       (ERROR, Monitor.str_of_exn e)]
  | _ => []
  end.

(** The call ended in a way the wrapper goes on from. *)
Definition survived (c : Monitor.call) : Prop :=
  match Monitor.ended c with Monitor.RaisedBaseException _ => False | _ => True end.

(** A polling body for the examples that is stopped from outside: it
    returns after a second each time, and [stop] clears the flag at the
    twelfth second. *)
Definition stopped_world : Monitor.World unit :=
  {| Monitor._monitor_method := fun s t => (Monitor.Returned, s, t + 1);
     Monitor._thread_active := fun t => Qltb t 12;
     Monitor.sleep := fun t d => t + d |}.

(** A stats source that answers with no LP in the pool. *)
Definition empty_pool_client : BeanstalkSqlClient :=
  {| current_season_stats :=
       Ok {| pooledEth := 0; pooledBeans := 0; lp := 0 |} |}.

(** [float(v)] goes through. *)
Definition parsed {value : Type} (float : value -> result Q) (v : value) : Prop :=
  exists q, float v = Ok q.

(** The amounts of the two seasons that the summary reads, the total LP
    and the last weather apart, all go through [float]. *)
Definition amounts_parse {value : Type} (float : value -> result Q)
    (last_season_stats current_season_stats : SunriseMonitor.Season value) : Prop :=
  parsed float (SunriseMonitor.newFarmableBeans current_season_stats)
  /\ parsed float (SunriseMonitor.newHarvestablePods current_season_stats)
  /\ parsed float (SunriseMonitor.newDepositedLP last_season_stats)
  /\ parsed float (SunriseMonitor.newWithdrawnLP last_season_stats)
  /\ parsed float (SunriseMonitor.pooledEth current_season_stats)
  /\ parsed float (SunriseMonitor.pooledBeans current_season_stats)
  /\ parsed float (SunriseMonitor.newPods last_season_stats)
  /\ parsed float (SunriseMonitor.price current_season_stats)
  /\ parsed float (SunriseMonitor.newDepositedBeans last_season_stats)
  /\ parsed float (SunriseMonitor.newWithdrawnBeans last_season_stats).

(** The first line of a season summary. *)
Definition season_headline (number : string) : string :=
  ("⏱ Season " ++ number ++ " is complete!")%string.

(** A season for the examples, with whole numbers for values: season
    [number], stamped [stamp], under the given weather, with the given
    total of LP. *)
Definition sample_season (number stamp weather total_lp : Z) : SunriseMonitor.Season Z :=
  {| SunriseMonitor.id := number;
     SunriseMonitor.timestamp := stamp;
     SunriseMonitor.price := 1%Z;
     SunriseMonitor.weather := weather;
     SunriseMonitor.newFarmableBeans := 100%Z;
     SunriseMonitor.newHarvestablePods := 50%Z;
     SunriseMonitor.newDepositedLP := 2%Z;
     SunriseMonitor.newWithdrawnLP := 1%Z;
     SunriseMonitor.newDepositedBeans := 3000%Z;
     SunriseMonitor.newWithdrawnBeans := 400%Z;
     SunriseMonitor.newPods := 600%Z;
     SunriseMonitor.pooledEth := 500%Z;
     SunriseMonitor.pooledBeans := 2000000%Z;
     SunriseMonitor.lp := total_lp |}.

(** [float] and [int] on whole numbers. *)
Definition float_of_int (v : Z) : result Q := Ok (inject_Z v).
Definition int_of_int (v : Z) : result Z := Ok v.

(** A subgraph for the examples: it answers at once, with season 42
    following season 41, the current one stamped [stamp]. *)
Definition sample_seasons_client (stamp : Z) : SunriseMonitor.BeanstalkSqlClient Z :=
  {| SunriseMonitor.seasons_stats := fun now =>
       (Ok (sample_season 42 stamp 3 1000, sample_season 41 (stamp - 3600) 2 1000),
        now) |}.

(** What holds of the wrapper's variables at the head of every turn of
    its loop, from the frame it was started in at [t0]. *)
Record at_loop_head {S : Type} (world : Monitor.World S) (name : string) (t0 : Q)
    (f : Monitor.frame S) : Prop := {
  head_spaced : Monitor.spaced (Monitor.calls f);
  head_retry : Monitor.retry_after_last_call f;
  head_records :
    Monitor.records f = flat_map (logged_for name) (rev (Monitor.calls f));
  head_active :
    Forall (fun c => Monitor._thread_active world (Monitor.started c) = true)
      (Monitor.calls f);
  head_survived : Forall survived (Monitor.calls f);
  head_clock : t0 <= Monitor.now f
}.

(** What holds of them when the wrapper has ended, or has run out of
    the turns it was given. *)
Definition at_exit {S : Type} (world : Monitor.World S) (name : string) (t0 : Q)
    (st : Monitor.status) (f : Monitor.frame S) : Prop :=
  Monitor.spaced (Monitor.calls f)
  /\ Monitor.records f = flat_map (logged_for name) (rev (Monitor.calls f))
  /\ Forall (fun c => Monitor._thread_active world (Monitor.started c) = true)
       (Monitor.calls f)
  /\ t0 <= Monitor.now f
  /\ match st with
     | Monitor.Looping => Forall survived (Monitor.calls f)
     | Monitor.Finished =>
         Monitor._thread_active world (Monitor.now f) = false
         /\ Forall survived (Monitor.calls f)
     | Monitor.Killed n =>
         exists c earlier,
           Monitor.calls f = c :: earlier
           /\ Monitor.ended c = Monitor.RaisedBaseException n
           /\ Forall survived earlier
     end.

(** The current season that a poll answers with is taken: it is not the
    season processed last and it is stamped within the last half
    season. *)
Definition taken {value : Type} (int : value -> result Z)
    (equal : value -> value -> bool) (b : SunriseMonitor.blocking value)
    (answer : result (SunriseMonitor.Season value * SunriseMonitor.Season value))
    (back : Q) : bool :=
  match answer with
  | Ok (current_season_stats, _) =>
      SunriseMonitor.differs equal (SunriseMonitor.current_season_id b)
        (SunriseMonitor.id current_season_stats)
      && match int (SunriseMonitor.timestamp current_season_stats) with
         | Ok stamp =>
             Qltb (back - SunriseMonitor.SEASON_DURATION / 2) (inject_Z stamp)
         | Raise _ => false
         end
  | Raise _ => false
  end.

(** What the blocking call has done when it comes back. *)
Definition came_back {value : Type} (int : value -> result Z) (str : value -> string)
    (equal : value -> value -> bool) {S : Type} (world : Monitor.World S)
    (beanstalk_graph_client : SunriseMonitor.BeanstalkSqlClient value)
    (b : SunriseMonitor.blocking value)
    (r : result (option (SunriseMonitor.Season value)
                 * option (SunriseMonitor.Season value)))
    (b' : SunriseMonitor.blocking value) : Prop :=
  match r with
  | Ok (Some current_season_stats, Some last_season_stats) =>
      SunriseMonitor.differs equal (SunriseMonitor.current_season_id b)
        (SunriseMonitor.id current_season_stats) = true
      /\ (exists stamp,
            int (SunriseMonitor.timestamp current_season_stats) = Ok stamp
            /\ SunriseMonitor.now b' - SunriseMonitor.SEASON_DURATION / 2
               < inject_Z stamp)
      /\ (exists asked,
            SunriseMonitor.seasons_stats beanstalk_graph_client asked
            = (Ok (current_season_stats, last_season_stats), SunriseMonitor.now b'))
      /\ SunriseMonitor.current_season_id b'
         = Some (SunriseMonitor.id current_season_stats)
      /\ SunriseMonitor.records b'
         = (SunriseMonitor.records b
            ++ [(INFO, ("New season detected with id "
                        ++ str (SunriseMonitor.id current_season_stats))%string)])%list
  | Ok (None, None) =>
      Monitor._thread_active world (SunriseMonitor.now b') = false
      /\ SunriseMonitor.current_season_id b' = SunriseMonitor.current_season_id b
      /\ SunriseMonitor.records b' = SunriseMonitor.records b
  | Ok _ => False
  | Raise _ =>
      SunriseMonitor.current_season_id b' = SunriseMonitor.current_season_id b
      /\ SunriseMonitor.records b' = SunriseMonitor.records b
  end.

(** The texts handed to the message function, in order. *)
Fixpoint announcements (done : list Lifecycle.action) : list string :=
  match done with
  | [] => []
  | Lifecycle.Message text :: rest => text :: announcements rest
  | _ :: rest => announcements rest
  end.

(** The timeouts of the joins, in order. *)
Fixpoint joins (done : list Lifecycle.action) : list Q :=
  match done with
  | [] => []
  | Lifecycle.ThreadJoin timeout :: rest => timeout :: joins rest
  | _ :: rest => joins rest
  end.

(** How often the thread was started. *)
Fixpoint thread_starts (done : list Lifecycle.action) : nat :=
  match done with
  | [] => O
  | Lifecycle.ThreadStart :: rest => S (thread_starts rest)
  | _ :: rest => thread_starts rest
  end.

(** What [start] announces: nothing in production, unless the data are
    simulated. *)
Definition start_announcement (self : Lifecycle.Monitor) : list string :=
  if Lifecycle._dry_run self
  then [(Lifecycle.name self ++ " monitoring started (with simulated data).")%string]
  else if Lifecycle.prod self then []
  else [(Lifecycle.name self ++ " monitoring started.")%string].

(** A sender that always goes through, and one that never does. *)
Definition sender_up (text : string) : result unit := Ok tt.
Definition sender_down (text : string) : result unit := Raise (SourceError "Bad Gateway").

(** Where an entry of the queue is delivered, and as what. *)
Definition route (prod : bool) (x : DiscordClient.entry) : Z * string :=
  (DiscordClient._chat_id prod (fst x), snd x).

(** The record logged for an entry that was sent. *)
Definition sent_record (x : DiscordClient.entry) : level * string :=
  (INFO, ("Message sent through " ++ DiscordClient.Channel_name (fst x) ++ " channel:"
          ++ nl ++ snd x ++ nl)%string).

(** The Discord library delivers the entry. *)
Definition goes_through (prod : bool) (send : Z -> string -> result unit)
    (x : DiscordClient.entry) : Prop :=
  send (DiscordClient._chat_id prod (fst x)) (snd x) = Ok tt.

(** [n] steps of the task with no thread in between. *)
Definition ticks (n : nat) : list DiscordClient.event := repeat DiscordClient.Tick n.







(** Every check but the first is made at least [rate] after the check
    before it ([checks] holds the latest check first). *)
Fixpoint paced (rate : Q) (checks : list Q) : Prop :=
  match checks with
  | later :: ((earlier :: _) as rest) => earlier + rate <= later /\ paced rate rest
  | _ => True
  end.

(** What holds of the loop's variables at the head of every turn, from
    the time [t0] at which the loop was entered. *)
Record at_check_head {S : Type} (world : Monitor.World S) (rate t0 : Q)
    (l : EventMonitor.looping) : Prop := {
  check_paced : paced rate (EventMonitor.checks l);
  check_last :
    match EventMonitor.checks l with
    | [] => EventMonitor.last_check_time l = 0
    | latest :: _ => EventMonitor.last_check_time l = latest
    end;
  check_active :
    Forall (fun c => Monitor._thread_active world c = true) (EventMonitor.checks l);
  check_since : Forall (fun c => t0 <= c) (EventMonitor.checks l);
  check_clock : t0 <= EventMonitor.now l
}.

(** An event client for the examples: one transaction with one log
    that no renderer knows, at every check, answered at once. *)
Definition sample_event_client : EventMonitor.EthEventsClient :=
  {| EventMonitor.get_new_logs := fun _ now => (Ok [(sample_hash, [sync_log 4])], now) |}.

(** What the loop of the silo-conversion renderer leaves in the
    variable it assigns at a log of kind [kind]: the amount of the last
    such log, if there is one. *)
Definition amount_of (kind key : string) (to_float : option Z -> Q)
    (found : option Q) (l : EventLog) : option Q :=
  if String.eqb (event l) kind then Some (to_float (args_get (args l) key)) else found.

Definition last_amount (kind key : string) (to_float : option Z -> Q)
    (event_logs : list EventLog) : option Q :=
  fold_left (amount_of kind key to_float) event_logs None.

Definition is_lp_deposit (l : EventLog) : bool := String.eqb (event l) "LPDeposit".

(** The logs name a conversion that the renderer has a sentence for:
    Beans were removed, a non-zero amount by the last BeanRemove log,
    and LP was deposited; or else LP was removed, a non-zero amount by
    the last LPRemove log. *)
Definition names_conversion (eth_chain : EthChain) (event_logs : list EventLog) : bool :=
  if truthy (last_amount "BeanRemove" "beans" (bean_to_float eth_chain) event_logs)
  then existsb is_lp_deposit event_logs
  else truthy (last_amount "LPRemove" "lp" (lp_to_float eth_chain) event_logs).

(** The variable has been assigned. *)
Definition assigned {A : Type} (v : option A) : bool :=
  match v with Some _ => true | None => false end.

(** More logs for the examples. *)
Definition bean_remove_log (position beans : Z) : EventLog :=
  {| event := "BeanRemove"; args := [("beans"%string, beans)];
     logIndex := position; transactionHash := sample_hash |}.

Definition lp_deposit_log (position amount : Z) : EventLog :=
  {| event := "LPDeposit"; args := [("lp"%string, amount)];
     logIndex := position; transactionHash := sample_hash |}.

Definition sow_log (position beans pods : Z) : EventLog :=
  {| event := "Sow"; args := [("beans"%string, beans); ("pods"%string, pods)];
     logIndex := position; transactionHash := sample_hash |}.


(* ================================================================== *)
(** * Rounding of integers                                              *)
(* ================================================================== *)

Section DivmodNear.

Local Open Scope Z_scope.

Variable p : Z.
Hypothesis p_pos : 0 < p.

Lemma divmod_near_eq (a : Z) :
  a = p * fst (divmod_near a p) + snd (divmod_near a p).
Proof.
  unfold divmod_near.
  pose proof (Z.div_mod a p ltac:(lia)) as E.
  destruct (_ || _); cbn [fst snd]; lia.
Qed.

Lemma divmod_near_half (a : Z) :
  2 * Z.abs (snd (divmod_near a p)) <= p.
Proof.
  unfold divmod_near.
  pose proof (Z.mod_pos_bound a p p_pos) as B.
  destruct (Z.ltb_spec 0 p) as [_ | ?]; [| lia].
  destruct (Z.ltb_spec p (2 * (a mod p))) as [G | G]; cbn [orb fst snd]; [lia |].
  destruct (Z.eqb_spec (2 * (a mod p)) p) as [T | T]; cbn [andb].
  - destruct (Z.odd (a / p)); cbn [snd]; lia.
  - cbn [snd]. lia.
Qed.

Lemma divmod_near_bounds (a : Z) :
  a / p <= fst (divmod_near a p) <= a / p + 1.
Proof.
  unfold divmod_near. destruct (_ || _); cbn [fst]; lia.
Qed.

Lemma divmod_near_mono (a b : Z) :
  a <= b -> fst (divmod_near a p) <= fst (divmod_near b p).
Proof.
  intros Hab.
  pose proof (Z.div_le_mono a b p p_pos Hab) as Hq.
  destruct (Z.eq_dec (a / p) (b / p)) as [Eq | Ne].
  - assert (Hr : a mod p <= b mod p).
    { pose proof (Z.div_mod a p ltac:(lia)). pose proof (Z.div_mod b p ltac:(lia)).
      rewrite Eq in *. nia. }
    unfold divmod_near. rewrite Eq.
    destruct (Z.ltb_spec 0 p) as [_ | ?]; [| lia].
    destruct (Z.ltb_spec p (2 * (a mod p))) as [Ga | Ga];
      destruct (Z.ltb_spec p (2 * (b mod p))) as [Gb | Gb];
      cbn [orb fst]; try lia.
    + destruct (Z.eqb_spec (2 * (a mod p)) p); cbn [andb];
        destruct (Z.odd (b / p)); cbn [fst]; lia.
    + destruct (Z.eqb_spec (2 * (a mod p)) p) as [Ta | Ta];
        destruct (Z.eqb_spec (2 * (b mod p)) p) as [Tb | Tb]; cbn [andb];
        destruct (Z.odd (b / p)); cbn [fst]; lia.
  - pose proof (divmod_near_bounds a). pose proof (divmod_near_bounds b). lia.
Qed.

Lemma divmod_near_multiple (m : Z) :
  divmod_near (p * m) p = (m, 0).
Proof.
  unfold divmod_near.
  replace (p * m) with (m * p) by lia.
  rewrite Z.div_mul, Z.mod_mul by lia.
  destruct (Z.ltb_spec 0 p) as [_ | ?]; [| lia].
  destruct (Z.ltb_spec p (2 * 0)) as [G | G]; [lia |].
  destruct (Z.eqb_spec (2 * 0) p) as [T | T]; [lia |].
  reflexivity.
Qed.

End DivmodNear.

Section RoundInt.

Local Open Scope Z_scope.

(** Rounding to [k] digits before the point, for [k = 3, 4, 5]. *)
Variable k : Z.
Hypothesis k_pos : 0 < k.

Abbreviation p := (10 ^ k).

Lemma pow10_pos : 0 < p.
Proof. apply Z.pow_pos_nonneg; lia. Qed.

Lemma round_int_multiple (v : Z) :
  round_int v (- k) = p * fst (divmod_near v p).
Proof.
  unfold round_int.
  destruct (Z.leb_spec 0 (- k)); [lia |].
  rewrite Z.opp_involutive. fold p.
  pose proof (divmod_near_eq p pow10_pos v). lia.
Qed.

Lemma round_int_nearest (v : Z) :
  nearest_multiple p v (round_int v (- k)).
Proof.
  split.
  - rewrite round_int_multiple. apply Z.divide_factor_l.
  - pose proof (divmod_near_half p pow10_pos v) as Hh.
    pose proof (divmod_near_eq p pow10_pos v) as He.
    rewrite round_int_multiple.
    replace (v - p * fst (divmod_near v p)) with (snd (divmod_near v p)) by lia.
    exact Hh.
Qed.

Lemma round_int_mono (a b : Z) :
  a <= b -> round_int a (- k) <= round_int b (- k).
Proof.
  intros Hab. rewrite !round_int_multiple.
  pose proof (divmod_near_mono p pow10_pos a b Hab). pose proof pow10_pos. nia.
Qed.

Lemma round_int_fixed (m : Z) :
  round_int (p * m) (- k) = p * m.
Proof.
  rewrite round_int_multiple, divmod_near_multiple by apply pow10_pos.
  reflexivity.
Qed.

End RoundInt.

(* ================================================================== *)
(** * Value-to-emoji tiering                                            *)
(* ================================================================== *)

Section Tiering.

Local Open Scope Z_scope.

Lemma int_of_float_inject_Z (v : Z) : int_of_float (inject_Z v) = v.
Proof. unfold int_of_float. cbn [inject_Z Qnum Qden]. apply Z.quot_1_r. Qed.

Lemma count_glyph_repeat (g : string) (a b c d : ascii) (n : nat) :
  count_glyph g (repeat_string (String a (String b (String c (String d EmptyString)))) n)
  = if String.eqb g (String a (String b (String c (String d EmptyString)))) then n else O.
Proof.
  induction n as [| n IH]; cbn [repeat_string append count_glyph].
  - destruct (String.eqb _ _); reflexivity.
  - rewrite IH. destruct (String.eqb g _); reflexivity.
Qed.

Lemma magnitude_fish (n : nat) :
  indicated_magnitude (repeat_string fish n) = 1000 * Z.of_nat n.
Proof.
  unfold indicated_magnitude, fish, shark, whale.
  rewrite !count_glyph_repeat. cbn [String.eqb Ascii.eqb Bool.eqb]. cbn. lia.
Qed.

Lemma magnitude_shark (n : nat) :
  indicated_magnitude (repeat_string shark n) = 10000 * Z.of_nat n.
Proof.
  unfold indicated_magnitude, fish, shark, whale.
  rewrite !count_glyph_repeat. cbn. lia.
Qed.

Lemma magnitude_whale (n : nat) :
  indicated_magnitude (repeat_string whale n) = 100000 * Z.of_nat n.
Proof.
  unfold indicated_magnitude, fish, shark, whale.
  rewrite !count_glyph_repeat. cbn. lia.
Qed.

(** ['🐟' * n or '🐟'] is at least one fish. *)
Lemma fish_or_fish (n : Z) :
  str_or (str_mul fish n) fish = str_mul fish (Z.max 1 n).
Proof.
  unfold str_mul.
  destruct (Z.le_gt_cases n 0) as [Hn | Hn].
  - replace (Z.to_nat n) with O by lia.
    replace (Z.to_nat (Z.max 1 n)) with 1%nat by lia.
    reflexivity.
  - replace (Z.max 1 n) with n by lia.
    destruct (Z.to_nat n) as [| m] eqn:E; [lia |].
    reflexivity.
Qed.

(** The three roundings of a non-negative value. *)
Lemma round3_shape (v : Z) :
  0 <= v -> exists q, round_int v (-3) = 1000 * q /\ 0 <= q.
Proof.
  intros Hv. exists (fst (divmod_near v 1000)). split.
  - apply (round_int_multiple 3); lia.
  - pose proof (divmod_near_mono 1000 ltac:(lia) 0 v Hv) as Hm.
    assert (E : fst (divmod_near 0 1000) = 0) by reflexivity. lia.
Qed.

Lemma round4_shape (r : Z) :
  10000 <= r -> exists q, round_int r (-4) = 10000 * q /\ 1 <= q.
Proof.
  intros Hr. exists (fst (divmod_near r 10000)). split.
  - apply (round_int_multiple 4); lia.
  - pose proof (divmod_near_mono 10000 ltac:(lia) 10000 r Hr) as Hm.
    assert (E : fst (divmod_near 10000 10000) = 1) by reflexivity. lia.
Qed.

Lemma round5_shape (r : Z) :
  100000 <= r -> exists q, round_int r (-5) = 100000 * q /\ 1 <= q.
Proof.
  intros Hr. exists (fst (divmod_near r 100000)). split.
  - apply (round_int_multiple 5); lia.
  - pose proof (divmod_near_mono 100000 ltac:(lia) 100000 r Hr) as Hm.
    assert (E : fst (divmod_near 100000 100000) = 1) by reflexivity. lia.
Qed.

Lemma div_multiple (p q : Z) : 0 < p -> p * q / p = q.
Proof. intros Hp. rewrite Z.mul_comm. apply Z.div_mul. lia. Qed.

(** The tiering, tier by tier, on an integer value. *)
Lemma value_to_emojis_cases (v : Z) :
  let out := value_to_emojis (inject_Z v) in
  let r := round_int v (-3) in
  let r' := round_int r (-4) in
  let r'' := round_int r' (-5) in
  (v < 0 -> out = EmptyString)
  /\ (0 <= v -> r < 10000 -> out = str_mul fish (Z.max 1 (r / 1000)))
  /\ (0 <= v -> 10000 <= r -> r' < 100000 -> out = str_mul shark (r' / 10000))
  /\ (0 <= v -> 10000 <= r -> 100000 <= r' -> out = str_mul whale (r'' / 100000)).
Proof.
  cbv zeta. unfold value_to_emojis. rewrite int_of_float_inject_Z.
  repeat split; intros.
  - destruct (Z.ltb_spec v 0); [reflexivity | lia].
  - destruct (Z.ltb_spec v 0); [lia |].
    destruct (Z.ltb_spec (round_int v (-3)) 10000); [| lia].
    apply fish_or_fish.
  - destruct (Z.ltb_spec v 0); [lia |].
    destruct (Z.ltb_spec (round_int v (-3)) 10000); [lia |].
    destruct (Z.ltb_spec (round_int (round_int v (-3)) (-4)) 100000); [| lia].
    reflexivity.
  - destruct (Z.ltb_spec v 0); [lia |].
    destruct (Z.ltb_spec (round_int v (-3)) 10000); [lia |].
    destruct (Z.ltb_spec (round_int (round_int v (-3)) (-4)) 100000); [lia |].
    reflexivity.
Qed.

(** What a rendered value indicates is the value it settled on, and at
    least one fish. *)
Lemma magnitude_settled (v : Z) :
  0 <= v ->
  indicated_magnitude (value_to_emojis (inject_Z v)) = Z.max 1000 (settled_value v).
Proof.
  intros Hv.
  destruct (value_to_emojis_cases v) as (_ & T1 & T2 & T3).
  unfold settled_value.
  destruct (round3_shape v Hv) as (q & Eq & Hq).
  destruct (Z.ltb_spec (round_int v (-3)) 10000) as [L1 | L1].
  - rewrite (T1 Hv L1), Eq, div_multiple by lia.
    unfold str_mul. rewrite magnitude_fish. lia.
  - destruct (round4_shape _ L1) as (q' & Eq' & Hq').
    destruct (Z.ltb_spec (round_int (round_int v (-3)) (-4)) 100000) as [L2 | L2].
    + rewrite (T2 Hv L1 L2), Eq', div_multiple by lia.
      unfold str_mul. rewrite magnitude_shark. lia.
    + destruct (round5_shape _ L2) as (q'' & Eq'' & Hq'').
      rewrite (T3 Hv L1 L2), Eq'', div_multiple by lia.
      unfold str_mul. rewrite magnitude_whale. lia.
Qed.

Lemma settled_value_mono (a b : Z) :
  0 <= a -> a <= b -> settled_value a <= settled_value b.
Proof.
  intros Ha Hab. unfold settled_value.
  pose proof (round_int_mono 3 ltac:(lia) a b Hab) as M3. cbn [Z.opp] in M3.
  destruct (Z.ltb_spec (round_int a (-3)) 10000) as [A1 | A1];
    destruct (Z.ltb_spec (round_int b (-3)) 10000) as [B1 | B1]; try lia.
  - destruct (round4_shape _ B1) as (qb & Eb & Hb).
    destruct (Z.ltb_spec (round_int (round_int b (-3)) (-4)) 100000) as [B2 | B2];
      [lia |].
    destruct (round5_shape _ B2) as (qb' & Eb' & Hb'). lia.
  - pose proof (round_int_mono 4 ltac:(lia) _ _ M3) as M4. cbn [Z.opp] in M4.
    destruct (Z.ltb_spec (round_int (round_int a (-3)) (-4)) 100000) as [A2 | A2];
      destruct (Z.ltb_spec (round_int (round_int b (-3)) (-4)) 100000) as [B2 | B2];
      try lia.
    + destruct (round5_shape _ B2) as (qb' & Eb' & Hb'). lia.
    + apply (round_int_mono 5 ltac:(lia) _ _ M4).
Qed.

Lemma round3_fixed (m : Z) : round_int (1000 * m) (-3) = 1000 * m.
Proof. exact (round_int_fixed 3 ltac:(lia) m). Qed.

Lemma round4_fixed (m : Z) : round_int (10000 * m) (-4) = 10000 * m.
Proof. exact (round_int_fixed 4 ltac:(lia) m). Qed.

Lemma round5_fixed (m : Z) : round_int (100000 * m) (-5) = 100000 * m.
Proof. exact (round_int_fixed 5 ltac:(lia) m). Qed.

(** A settled value is a small multiple of a thousand, of ten thousand
    or of a hundred thousand. *)
Lemma settled_value_shape (v : Z) :
  0 <= v ->
  (exists q, settled_value v = 1000 * q /\ 0 <= q /\ 1000 * q < 10000)
  \/ (exists q, settled_value v = 10000 * q /\ 1 <= q /\ 10000 * q < 100000)
  \/ (exists q, settled_value v = 100000 * q /\ 1 <= q).
Proof.
  intros Hv. unfold settled_value. cbv zeta.
  destruct (round3_shape v Hv) as (q & Eq & Hq).
  destruct (Z.ltb_spec (round_int v (-3)) 10000) as [L1 | L1].
  - left. exists q. lia.
  - destruct (round4_shape _ L1) as (q' & Eq' & Hq').
    destruct (Z.ltb_spec (round_int (round_int v (-3)) (-4)) 100000) as [L2 | L2].
    + right. left. exists q'. lia.
    + destruct (round5_shape _ L2) as (q'' & Eq'' & Hq'').
      right. right. exists q''. lia.
Qed.

(** A settled value is settled: rounding it again changes nothing. *)
Lemma settled_value_fixed (v : Z) :
  0 <= v ->
  0 <= settled_value v /\ settled_value (settled_value v) = settled_value v.
Proof.
  intros Hv.
  destruct (settled_value_shape v Hv)
    as [(q & E & Hq & Hs) | [(q & E & Hq & Hs) | (q & E & Hq)]];
    rewrite E; (split; [lia |]); unfold settled_value; cbv zeta.
  - rewrite round3_fixed.
    destruct (Z.ltb_spec (1000 * q) 10000); [reflexivity | lia].
  - assert (R3 : round_int (10000 * q) (-3) = 10000 * q).
    { replace (10000 * q) with (1000 * (10 * q)) by lia. apply round3_fixed. }
    rewrite R3.
    destruct (Z.ltb_spec (10000 * q) 10000); [lia |].
    rewrite round4_fixed.
    destruct (Z.ltb_spec (10000 * q) 100000); [reflexivity | lia].
  - assert (R3 : round_int (100000 * q) (-3) = 100000 * q).
    { replace (100000 * q) with (1000 * (100 * q)) by lia. apply round3_fixed. }
    assert (R4 : round_int (100000 * q) (-4) = 100000 * q).
    { replace (100000 * q) with (10000 * (10 * q)) by lia. apply round4_fixed. }
    rewrite R3.
    destruct (Z.ltb_spec (100000 * q) 10000); [lia |].
    rewrite R4.
    destruct (Z.ltb_spec (100000 * q) 100000); [lia |].
    apply round5_fixed.
Qed.

Lemma value_to_emojis_settled (v : Z) :
  0 <= v -> value_to_emojis (inject_Z v) = emojis_of_settled (settled_value v).
Proof.
  intros Hv.
  destruct (value_to_emojis_cases v) as (_ & T1 & T2 & T3).
  unfold settled_value, emojis_of_settled. cbv zeta.
  destruct (Z.ltb_spec (round_int v (-3)) 10000) as [L1 | L1].
  - destruct (Z.ltb_spec (round_int v (-3)) 10000); [| lia]. auto.
  - destruct (round4_shape _ L1) as (q' & Eq' & Hq').
    destruct (Z.ltb_spec (round_int (round_int v (-3)) (-4)) 100000) as [L2 | L2].
    + destruct (Z.ltb_spec (round_int (round_int v (-3)) (-4)) 10000); [lia |].
      destruct (Z.ltb_spec (round_int (round_int v (-3)) (-4)) 100000); [| lia].
      auto.
    + destruct (round5_shape _ L2) as (q'' & Eq'' & Hq'').
      destruct (Z.ltb_spec (round_int (round_int (round_int v (-3)) (-4)) (-5)) 10000);
        [lia |].
      destruct (Z.ltb_spec (round_int (round_int (round_int v (-3)) (-4)) (-5)) 100000);
        [lia |].
      auto.
Qed.

Lemma value_to_emojis_resettled (v : Z) :
  0 <= v ->
  value_to_emojis (inject_Z (settled_value v)) = value_to_emojis (inject_Z v).
Proof.
  intros Hv. destruct (settled_value_fixed v Hv) as (Hs & Hf).
  rewrite (value_to_emojis_settled (settled_value v) Hs), Hf.
  symmetry. apply value_to_emojis_settled. exact Hv.
Qed.

Lemma value_to_emojis_reindicated (v : Z) :
  0 <= v ->
  value_to_emojis (inject_Z (indicated_magnitude (value_to_emojis (inject_Z v))))
  = value_to_emojis (inject_Z v).
Proof.
  intros Hv. rewrite (magnitude_settled v Hv).
  destruct (settled_value_shape v Hv)
    as [(q & E & Hq & Hs) | [(q & E & Hq & Hs) | (q & E & Hq)]].
  - destruct (Z.eq_dec q 0) as [-> | Hne].
    + rewrite (value_to_emojis_settled v Hv), E. reflexivity.
    + replace (Z.max 1000 (settled_value v)) with (settled_value v) by lia.
      apply value_to_emojis_resettled. exact Hv.
  - replace (Z.max 1000 (settled_value v)) with (settled_value v) by lia.
    apply value_to_emojis_resettled. exact Hv.
  - replace (Z.max 1000 (settled_value v)) with (settled_value v) by lia.
    apply value_to_emojis_resettled. exact Hv.
Qed.

(** At zero the document's wording and the code part: no full thousand
    and not a positive value, yet one fish is rendered. *)
Lemma value_to_emojis_zero_is_one_fish :
  let v := 0 in
  ~ 0 < v
  /\ round_int v (-3) / 1000 = 0
  /\ value_to_emojis (inject_Z v) = fish
  /\ value_to_emojis (inject_Z v) <> str_mul fish (round_int v (-3) / 1000).
Proof.
  cbv zeta. repeat split; try reflexivity; try lia.
  vm_compute. discriminate.
Qed.

(** C5, as amended. For every integer dollar value [v] the tiering
    returns the empty string when [v < 0]. Otherwise let [r] be [v]
    rounded to the nearest 1,000: if [r < 10,000] it returns one fish per
    full thousand of [r], and at least one fish for every non-negative
    [v], zero included. Otherwise let [r'] be [r] rounded to the nearest
    10,000: if [r' < 100,000] it returns one shark per ten thousand of
    [r']; otherwise it returns one whale per hundred thousand of [r']
    rounded to the nearest 100,000. *)
Theorem value_to_emojis_tiers (v : Z) :
  let out := value_to_emojis (inject_Z v) in
  let r := round_int v (-3) in
  let r' := round_int r (-4) in
  let r'' := round_int r' (-5) in
  nearest_multiple 1000 v r
  /\ nearest_multiple 10000 r r'
  /\ nearest_multiple 100000 r' r''
  /\ (v < 0 -> out = EmptyString)
  /\ (0 <= v -> r < 10000 -> out = str_mul fish (Z.max 1 (r / 1000)))
  /\ (0 <= v -> 10000 <= r -> r' < 100000 -> out = str_mul shark (r' / 10000))
  /\ (0 <= v -> 10000 <= r -> 100000 <= r' -> out = str_mul whale (r'' / 100000)).
Proof.
  cbv zeta.
  split; [exact (round_int_nearest 3 ltac:(lia) v) |].
  split; [exact (round_int_nearest 4 ltac:(lia) _) |].
  split; [exact (round_int_nearest 5 ltac:(lia) _) |].
  exact (value_to_emojis_cases v).
Qed.

Lemma value_to_emojis_tiers_witness :
  value_to_emojis (inject_Z 14999) = str_mul shark 2
  /\ value_to_emojis (inject_Z 400) = str_mul fish 1
  /\ value_to_emojis (inject_Z (-5)) = EmptyString.
Proof.
  split; [| split].
  - destruct (value_to_emojis_tiers 14999) as (_ & _ & _ & _ & _ & T2 & _).
    apply T2; vm_compute; congruence.
  - destruct (value_to_emojis_tiers 400) as (_ & _ & _ & _ & T1 & _).
    apply T1; vm_compute; congruence.
  - destruct (value_to_emojis_tiers (-5)) as (_ & _ & _ & T0 & _).
    apply T0; vm_compute; congruence.
Defined.

(** C6. The tiering is monotonic non-decreasing in the magnitude it
    indicates: for non-negative [a <= b] the output for [a] indicates no
    more than the output for [b]. It is idempotent under re-rounding:
    applied to the value it settled on, or to the magnitude its output
    indicates, it renders the same symbols again. *)
Theorem value_to_emojis_monotone_idempotent :
  (forall a b, 0 <= a -> a <= b ->
     indicated_magnitude (value_to_emojis (inject_Z a))
     <= indicated_magnitude (value_to_emojis (inject_Z b)))
  /\ (forall v, 0 <= v ->
       value_to_emojis (inject_Z (settled_value v)) = value_to_emojis (inject_Z v))
  /\ (forall v, 0 <= v ->
       value_to_emojis (inject_Z (indicated_magnitude (value_to_emojis (inject_Z v))))
       = value_to_emojis (inject_Z v)).
Proof.
  split; [| split].
  - intros a b Ha Hab.
    rewrite (magnitude_settled a Ha), (magnitude_settled b ltac:(lia)).
    pose proof (settled_value_mono a b Ha Hab). lia.
  - exact value_to_emojis_resettled.
  - exact value_to_emojis_reindicated.
Qed.

Lemma value_to_emojis_monotone_idempotent_witness :
  indicated_magnitude (value_to_emojis (inject_Z 9000))
  <= indicated_magnitude (value_to_emojis (inject_Z 10000))
  /\ value_to_emojis (inject_Z (settled_value 14999)) = value_to_emojis (inject_Z 14999).
Proof.
  destruct value_to_emojis_monotone_idempotent as (Mono & Idem & _).
  split.
  - apply Mono; lia.
  - apply Idem; lia.
Defined.

End Tiering.

(* ================================================================== *)
(** * LP-to-underlying conversion                                       *)
(* ================================================================== *)

Section LpEqValues.

Local Open Scope Q_scope.

Lemma Qeq_bool_false (x y : Q) : ~ x == y -> Qeq_bool x y = false.
Proof.
  intros H. destruct (Qeq_bool x y) eqn:E; [| reflexivity].
  apply Qeq_bool_iff in E. contradiction.
Qed.

Lemma truediv_nonzero (x y : Q) : ~ y == 0 -> truediv x y = Ok (x / y).
Proof.
  intros Hy. unfold truediv.
  destruct (Qeq_bool y 0) eqn:E; [| reflexivity].
  apply Qeq_bool_iff in E. contradiction.
Qed.

Lemma truediv_zero (x y : Q) : y == 0 -> truediv x y = Raise ZeroDivisionError.
Proof.
  intros Hy. unfold truediv.
  apply Qeq_bool_iff in Hy. rewrite Hy. reflexivity.
Qed.

(** With explicit reserves. *)
Lemma lp_eq_values_explicit (lp_amount t e b : Q) :
  lp_eq_values lp_amount (Some t) (Some e) (Some b) None
  = if Qeq_bool t 0 then Raise ZeroDivisionError
    else Ok (lp_amount * (e / t), lp_amount * (b / t)).
Proof.
  unfold lp_eq_values, truediv. cbn [bind_result].
  destruct (Qeq_bool t 0); reflexivity.
Qed.

(** With a stats source that answers; explicit reserves are ignored. *)
Lemma lp_eq_values_client (lp_amount : Q) (t e b : option Q)
    (client : BeanstalkSqlClient) (stats : SeasonStats) :
  current_season_stats client = Ok stats ->
  lp_eq_values lp_amount t e b (Some client)
  = if Qeq_bool (lp stats) 0 then Raise ZeroDivisionError
    else Ok (lp_amount * (pooledEth stats / lp stats),
             lp_amount * (pooledBeans stats / lp stats)).
Proof.
  intros Hs. unfold lp_eq_values, truediv. rewrite Hs. cbn [bind_result].
  destruct (Qeq_bool (lp stats) 0); reflexivity.
Qed.

(** C10. [lp_eq_values] checks that its reserves are present, not what
    they are: with explicit reserves and [total_lp = 0] (or a stats
    source that reports no LP) the division raises [ZeroDivisionError],
    not the invalid-input error; with its reserves present it returns
    exactly when [total_lp] is not zero. *)
Theorem lp_eq_values_division_by_zero :
  (forall lp_amount t e b, t == 0 ->
     lp_eq_values lp_amount (Some t) (Some e) (Some b) None = Raise ZeroDivisionError)
  /\ (forall lp_amount t e b client stats,
        current_season_stats client = Ok stats -> lp stats == 0 ->
        lp_eq_values lp_amount t e b (Some client) = Raise ZeroDivisionError)
  /\ (forall lp_amount t e b,
        is_ok (lp_eq_values lp_amount (Some t) (Some e) (Some b) None) = true
        <-> ~ t == 0)
  /\ (forall lp_amount t e b client stats,
        current_season_stats client = Ok stats ->
        (is_ok (lp_eq_values lp_amount t e b (Some client)) = true
         <-> ~ lp stats == 0)).
Proof.
  split; [| split; [| split]].
  - intros lp_amount t e b Ht. rewrite lp_eq_values_explicit.
    apply Qeq_bool_iff in Ht. rewrite Ht. reflexivity.
  - intros lp_amount t e b client stats Hs Hl.
    rewrite (lp_eq_values_client _ _ _ _ _ _ Hs).
    apply Qeq_bool_iff in Hl. rewrite Hl. reflexivity.
  - intros lp_amount t e b. rewrite lp_eq_values_explicit.
    destruct (Qeq_bool t 0) eqn:E; cbn [is_ok]; split; intros H.
    + discriminate.
    + apply Qeq_bool_iff in E. contradiction.
    + intros Hz. apply Qeq_bool_iff in Hz. congruence.
    + reflexivity.
  - intros lp_amount t e b client stats Hs.
    rewrite (lp_eq_values_client _ _ _ _ _ _ Hs).
    destruct (Qeq_bool (lp stats) 0) eqn:E; cbn [is_ok]; split; intros H.
    + discriminate.
    + apply Qeq_bool_iff in E. contradiction.
    + intros Hz. apply Qeq_bool_iff in Hz. congruence.
    + reflexivity.
Qed.

Lemma lp_eq_values_division_by_zero_witness :
  lp_eq_values 3 (Some 0) (Some 1) (Some 20) None = Raise ZeroDivisionError.
Proof.
  destruct lp_eq_values_division_by_zero as (Hz & _).
  apply Hz. reflexivity.
Defined.

End LpEqValues.

(* ================================================================== *)
(** * The supervised poller: crash isolation                            *)
(* ================================================================== *)

Section Poller.

Import Monitor.
Local Open Scope Q_scope.

Variable S : Type.
Variable world : World S.
Variable name : string.

Hypothesis world_causal : causal world.
Hypothesis never_stopped : forall t, _thread_active world t = true.

Abbreviation run := (_thread_wrapper_method world name).

Lemma half_seconds_zero : half_seconds 0 == 0.
Proof. reflexivity. Qed.

Lemma half_seconds_succ (k : nat) :
  half_seconds (Datatypes.S k) == half_seconds k + (1 # 2).
Proof.
  unfold half_seconds.
  rewrite Nat2Z.inj_succ. unfold Z.succ. rewrite inject_Z_plus. ring.
Qed.

Lemma Qltb_false (x y : Q) : Qltb x y = false -> y <= x.
Proof.
  unfold Qltb. intros H. apply negb_false_iff in H.
  apply Qle_bool_iff. exact H.
Qed.

Lemma Qltb_true (x y : Q) : Qltb x y = true -> x < y.
Proof.
  unfold Qltb. intros H. apply negb_true_iff in H.
  apply Qnot_le_lt. intros Hle. apply Qle_bool_iff in Hle. congruence.
Qed.

(** A loop that is still running after [m + 1] turns was running after
    [m]: the two ways out of it are final. *)
Lemma looping_downward (m : nat) :
  forall f, fst (run (Datatypes.S m) f) = Looping -> fst (run m f) = Looping.
Proof.
  induction m as [| m IH]; intros f H; [reflexivity |].
  cbn [_thread_wrapper_method] in H |- *.
  destruct (negb (_thread_active world (now f))); [exact H |].
  destruct (Qltb (now f) (retry_time f)).
  - apply IH. exact H.
  - destruct (_monitor_method world (self f) (now f)) as [[how s'] back].
    destruct how; [apply IH; exact H | apply IH; exact H | exact H].
Qed.

Lemma looping_below (m m' : nat) (f : frame S) :
  (m' <= m)%nat -> fst (run m f) = Looping -> fst (run m' f) = Looping.
Proof.
  intros Hle. induction Hle as [| m Hle IH]; [auto |].
  intros H. apply IH. apply looping_downward. exact H.
Qed.

(** Waiting for [retry_time]: within [k] sleeps of half a second the
    clock has passed a [retry_time] that was at most [k] half seconds
    away, and nothing else has changed. *)
Lemma sleeps_until_retry (k : nat) :
  forall f,
    retry_time f <= now f + half_seconds k ->
    exists j f',
      (forall extra, run (j + extra) f = run extra f')
      /\ retry_time f' <= now f'
      /\ retry_time f' = retry_time f
      /\ self f' = self f
      /\ calls f' = calls f
      /\ records f' = records f.
Proof.
  induction k as [| k IH]; intros f Hk.
  - exists O, f. repeat split; try reflexivity.
    pose proof half_seconds_zero. lra.
  - destruct (Qltb (now f) (retry_time f)) eqn:Hlt.
    + set (f1 := {| now := sleep world (now f) (1 # 2); retry_time := retry_time f;
                    self := self f; calls := calls f; records := records f |}).
      destruct (IH f1) as (j & f' & Hrun & Hle & Hr & Hs & Hc & Hl).
      { cbn [now retry_time f1].
        destruct world_causal as (_ & Hsleep).
        pose proof (Hsleep (now f) (1 # 2)).
        pose proof (half_seconds_succ k). lra. }
      exists (Datatypes.S j), f'. repeat split; auto.
      intros extra. cbn [plus _thread_wrapper_method].
      rewrite never_stopped. cbn [negb]. rewrite Hlt. apply Hrun.
    + exists O, f. repeat split; try reflexivity.
      apply Qltb_false. exact Hlt.
Qed.

(** The frame the poller reaches once a body that fails [n] times has
    returned for the first time. *)
Lemma wrapper_outlives_failures (n : nat) :
  forall (f : frame S) (k : nat),
    fails_then_returns world n (self f) ->
    retry_time f <= now f + half_seconds k ->
    retry_after_last_call f ->
    spaced (calls f) ->
    exists fuel f' last earlier,
      (forall extra, run (fuel + extra) f = run extra f')
      /\ calls f' = (last :: earlier ++ calls f)%list
      /\ length earlier = n
      /\ ended last = Returned
      /\ forallb failed earlier = true
      /\ length (records f') = (length (records f) + 2 * n)%nat
      /\ (Forall (fun r => fst r = ERROR) (records f) ->
          Forall (fun r => fst r = ERROR) (records f'))
      /\ spaced (calls f').
Proof.
  induction n as [| n IH]; intros f k Hbody Hk Hretry Hspaced.
  - destruct (sleeps_until_retry k f Hk) as (j & f1 & Hrun & Hle & Hr & Hs & Hc & Hl).
    cbn [fails_then_returns] in Hbody.
    destruct (_monitor_method world (self f1) (now f1)) as [[how s'] back] eqn:Ecall.
    assert (Hhow : how = Returned).
    { specialize (Hbody (now f1)). rewrite <- Hs, Ecall in Hbody. exact Hbody. }
    subst how.
    set (this := {| started := now f1; finished := back; ended := Returned |}).
    exists (j + 1)%nat,
      {| now := back; retry_time := back + MONITOR_RESET_DELAY; self := s';
         calls := this :: calls f1; records := records f1 |},
      this, [].
    repeat split.
    + intros extra. rewrite <- Nat.add_assoc, Hrun.
      cbn [plus _thread_wrapper_method].
      rewrite never_stopped. cbn [negb].
      destruct (Qltb (now f1) (retry_time f1)) eqn:Hlt;
        [apply Qltb_true in Hlt; lra |].
      rewrite Ecall. reflexivity.
    + cbn [calls app]. rewrite Hc. reflexivity.
    + cbn [records]. rewrite Hl. lia.
    + cbn [records]. rewrite Hl. auto.
    + cbn [calls]. rewrite Hc. unfold retry_after_last_call in Hretry.
      destruct (calls f) as [| c rest]; [exact I |].
      cbn [spaced]. split; [| exact Hspaced].
      cbn [started this]. rewrite <- Hretry, <- Hr. exact Hle.
  - destruct (sleeps_until_retry k f Hk) as (j & f1 & Hrun & Hle & Hr & Hs & Hc & Hl).
    cbn [fails_then_returns] in Hbody.
    destruct (_monitor_method world (self f1) (now f1)) as [[how s'] back] eqn:Ecall.
    specialize (Hbody (now f1)). rewrite <- Hs, Ecall in Hbody.
    cbn [fst snd] in Hbody. destruct Hbody as ((e & Hhow) & Hnext).
    subst how.
    set (this := {| started := now f1; finished := back; ended := RaisedException e |}).
    set (f2 := {| now := back; retry_time := back + MONITOR_RESET_DELAY; self := s';
                  calls := this :: calls f1;
                  records := (records f1 ++
                    [(ERROR, ("Unhandled exception in the " ++ name ++ " thread."
                              ++ nl ++ "Logging here and restarting monitor.")%string);
                     (ERROR, str_of_exn e)])%list |}).
    assert (Hspaced2 : spaced (calls f2)).
    { cbn [calls f2]. rewrite Hc. unfold retry_after_last_call in Hretry.
      destruct (calls f) as [| c rest]; [exact I |].
      cbn [spaced]. split; [| exact Hspaced].
      cbn [started this]. rewrite <- Hretry, <- Hr. exact Hle. }
    destruct (IH f2 10%nat) as
      (fuel & f' & last & earlier & Hrun2 & Hcalls & Hlen & Hlast & Hfailed
       & Hrecs & Herr & Hsp).
    { exact Hnext. }
    { cbn [now retry_time f2].
      assert (E : half_seconds 10 == MONITOR_RESET_DELAY) by reflexivity.
      rewrite E. apply Qle_refl. }
    { unfold retry_after_last_call. cbn [calls f2 finished this]. reflexivity. }
    { exact Hspaced2. }
    exists (j + 1 + fuel)%nat, f', last, (earlier ++ [this])%list.
    repeat split.
    + intros extra.
      replace (j + 1 + fuel + extra)%nat with (j + (1 + (fuel + extra)))%nat by lia.
      rewrite Hrun. cbn [plus _thread_wrapper_method].
      rewrite never_stopped. cbn [negb].
      destruct (Qltb (now f1) (retry_time f1)) eqn:Hlt;
        [apply Qltb_true in Hlt; lra |].
      rewrite Ecall. apply Hrun2.
    + rewrite Hcalls. cbn [calls f2]. rewrite Hc, <- app_assoc. reflexivity.
    + rewrite length_app, Hlen. cbn [length]. lia.
    + exact Hlast.
    + rewrite forallb_app, Hfailed. reflexivity.
    + rewrite Hrecs. cbn [records f2]. rewrite length_app, Hl. cbn [length]. lia.
    + intros Hall. apply Herr. cbn [records f2]. rewrite Hl.
      apply Forall_app. split; [exact Hall |].
      repeat constructor.
    + exact Hsp.
Qed.

(** One turn in which the body raises: the wrapper goes on with the
    turns that are left, two records richer, and will not call the body
    before [retry_time], five seconds after the failed call ended. *)
Lemma exception_is_caught (fuel : nat) (f : frame S) (e : exn) (s' : S) (back : Q) :
  _thread_active world (now f) = true ->
  retry_time f <= now f ->
  _monitor_method world (self f) (now f) = (RaisedException e, s', back) ->
  run (Datatypes.S fuel) f
  = run fuel
      {| now := back; retry_time := back + MONITOR_RESET_DELAY; self := s';
         calls := {| started := now f; finished := back; ended := RaisedException e |}
                  :: calls f;
         records := (records f ++
           [(ERROR, ("Unhandled exception in the " ++ name ++ " thread."
                     ++ nl ++ "Logging here and restarting monitor.")%string);
            (ERROR, str_of_exn e)])%list |}.
Proof.
  intros Hactive Hretry Hcall. cbn [_thread_wrapper_method].
  rewrite Hactive. cbn [negb].
  destruct (Qltb (now f) (retry_time f)) eqn:Hlt; [apply Qltb_true in Hlt; lra |].
  rewrite Hcall. reflexivity.
Qed.

(** The body is not called before [retry_time]: the wrapper sleeps. *)
Lemma waits_for_retry_time (fuel : nat) (f : frame S) :
  _thread_active world (now f) = true ->
  now f < retry_time f ->
  run (Datatypes.S fuel) f
  = run fuel
      {| now := sleep world (now f) (1 # 2); retry_time := retry_time f;
         self := self f; calls := calls f; records := records f |}.
Proof.
  intros Hactive Hlt. cbn [_thread_wrapper_method].
  rewrite Hactive. cbn [negb].
  destruct (Qltb (now f) (retry_time f)) eqn:E; [reflexivity |].
  apply Qltb_false in E. lra.
Qed.

(** C1. For every monitor and every polling body: when a call of the
    body raises an exception, the wrapper catches it, logs it, keeps
    looping and calls the body again, no sooner than the reset delay of
    five seconds after the failed call ended. In particular, when the
    body fails on its first [n] calls and returns on the next one, and
    nobody stops the monitor, the loop is still running after these
    [n + 1] calls and at every turn before: the [n] failures were each
    logged (two records at error level), and every call started at least
    five seconds after the call before it ended. *)
Theorem thread_wrapper_survives_failures :
  (forall fuel f e s' back,
     _thread_active world (now f) = true ->
     retry_time f <= now f ->
     _monitor_method world (self f) (now f) = (RaisedException e, s', back) ->
     exists f',
       _thread_wrapper_method world name (Datatypes.S fuel) f
       = _thread_wrapper_method world name fuel f'
       /\ now f' = back
       /\ retry_time f' = back + MONITOR_RESET_DELAY
       /\ length (records f') = (length (records f) + 2)%nat
       /\ (forall fuel', now f' < retry_time f' ->
             exists f'', _thread_wrapper_method world name (Datatypes.S fuel') f'
                         = _thread_wrapper_method world name fuel' f''
                         /\ calls f'' = calls f'))
  /\ (forall n s0 t0,
        0 <= t0 ->
        fails_then_returns world n s0 ->
        exists fuel last earlier,
          (forall fuel', (fuel' <= fuel)%nat ->
             fst (_thread_wrapper_method world name fuel' (start_frame s0 t0)) = Looping)
          /\ calls (snd (_thread_wrapper_method world name fuel (start_frame s0 t0)))
             = last :: earlier
          /\ ended last = Returned
          /\ length earlier = n
          /\ forallb failed earlier = true
          /\ length (records (snd (_thread_wrapper_method world name fuel
                                     (start_frame s0 t0)))) = (2 * n)%nat
          /\ Forall (fun r => fst r = ERROR)
               (records (snd (_thread_wrapper_method world name fuel (start_frame s0 t0))))
          /\ spaced (calls (snd (_thread_wrapper_method world name fuel
                                   (start_frame s0 t0))))).
Proof.
  split.
  - intros fuel f e s' back Hactive Hretry Hcall.
    eexists. split; [apply (exception_is_caught fuel f e s' back); assumption |].
    cbn [now retry_time records]. repeat split.
    + rewrite length_app. cbn [length]. lia.
    + intros fuel' Hlt. eexists. split.
      * apply waits_for_retry_time; [apply never_stopped | exact Hlt].
      * reflexivity.
  - intros n s0 t0 Ht0 Hbody.
    destruct (wrapper_outlives_failures n (start_frame s0 t0) 0)
      as (fuel & f' & last & earlier & Hrun & Hcalls & Hlen & Hlast & Hfailed
          & Hrecs & Herr & Hsp).
    + exact Hbody.
    + cbn [now retry_time start_frame]. pose proof half_seconds_zero. lra.
    + exact I.
    + exact I.
    + specialize (Hrun O). rewrite Nat.add_0_r in Hrun.
      cbn [_thread_wrapper_method] in Hrun.
      exists fuel, last, earlier. rewrite Hrun. cbn [fst snd].
      repeat split; auto.
      * intros fuel' Hle. apply (looping_below fuel fuel' _ Hle).
        rewrite Hrun. reflexivity.
      * rewrite Hcalls. cbn [calls start_frame]. rewrite app_nil_r. reflexivity.
Qed.

End Poller.

Lemma thread_wrapper_survives_failures_witness :
  exists fuel,
    fst (Monitor._thread_wrapper_method flaky_world "peg" fuel
           (Monitor.start_frame O 1700000000)) = Monitor.Looping
    /\ length (Monitor.calls (snd (Monitor._thread_wrapper_method flaky_world "peg" fuel
                                     (Monitor.start_frame O 1700000000)))) = 4%nat
    /\ length (Monitor.records (snd (Monitor._thread_wrapper_method flaky_world "peg" fuel
                                       (Monitor.start_frame O 1700000000)))) = 6%nat.
Proof.
  destruct (thread_wrapper_survives_failures nat flaky_world "peg") as (_ & Hrun).
  - split.
    + intros s t. cbn. apply Qle_lteq. left. rewrite <- (Qplus_0_r t) at 1.
      apply Qplus_lt_r. reflexivity.
    + intros t d. apply Qle_refl.
  - intros t. reflexivity.
  - destruct (Hrun 3%nat O 1700000000)
      as (fuel & last & earlier & Hloop & Hcalls & _ & Hlen & _ & Hrecs & _).
    + discriminate.
    + cbn. repeat (intros ?; split; [eexists; reflexivity |]). intros ?. reflexivity.
    + exists fuel. split; [apply Hloop; apply Nat.le_refl |].
      split; [rewrite Hcalls; cbn [length]; rewrite Hlen; reflexivity | exact Hrecs].
Defined.

(* ================================================================== *)
(** * The peg-cross detector: one report per cross                      *)
(* ================================================================== *)

Section PegCross.

Import PegCrossMonitor.
Local Open Scope Z_scope.

Lemma sent_app (t1 t2 : trace) : sent (t1 ++ t2) = (sent t1 ++ sent t2)%list.
Proof.
  induction t1 as [| e t1 IH]; [reflexivity |].
  destruct e; cbn [app sent]; rewrite IH; reflexivity.
Qed.

Lemma requested_app (t1 t2 : trace) :
  requested (t1 ++ t2) = (requested t1 ++ requested t2)%list.
Proof.
  induction t1 as [| e t1 IH]; [reflexivity |].
  destruct e; cbn [app requested]; rewrite IH; reflexivity.
Qed.

Lemma bind_ok {A B : Type} (a : A) (t : trace) (k : A -> M B) :
  bind (Ok a, t) k = (fst (k a), (t ++ snd (k a))%list).
Proof. unfold bind. destruct (k a). reflexivity. Qed.

(** The classification loop: one type per cross, in order; it only logs. *)
Lemma cross_types_of_spec (l : list Cross) :
  exists t, cross_types_of l = (Ok (map classify l), t)
            /\ sent t = [] /\ requested t = [].
Proof.
  induction l as [| c l (t & E & Hs & Hr)].
  - exists []. repeat split.
  - cbn [cross_types_of map]. unfold classify at 1.
    destruct (above c); cbn [log ret bind]; rewrite E; cbn [bind ret];
      eexists; (split; [reflexivity |]);
      cbn [app sent requested]; rewrite ?sent_app, ?requested_app, Hs, Hr;
      split; reflexivity.
Qed.

(** The reporting loop of [_monitor_method]: one message per cross. *)
Lemma report_each (l : list Cross) :
  for_each (map classify l)
    (fun cross_type =>
       if is_cross cross_type then send (peg_cross_string cross_type) else ret tt)
  = (Ok tt, map (fun c => Send (report c)) l).
Proof.
  induction l as [| c l IH]; [reflexivity |].
  cbn [map for_each]. rewrite IH. unfold report, classify.
  destruct (above c); reflexivity.
Qed.

Lemma sent_map_send (l : list Cross) :
  sent (map (fun c => Send (report c)) l) = map report l.
Proof. induction l as [| c l IH]; [reflexivity |]. cbn [map sent]. rewrite IH. reflexivity. Qed.

Lemma requested_map_send (l : list Cross) :
  requested (map (fun c => Send (report c)) l) = [].
Proof. induction l as [| c l IH]; [reflexivity |]. exact IH. Qed.

(** The first turn only takes the cursor. *)
Lemma turn_first (client : BeanSqlClient) (latest : Cross) :
  last_cross client = Ok latest ->
  exists t, monitor_turn client None = (Ok (Some latest), t)
            /\ sent t = [] /\ requested t = [].
Proof.
  intros Hl. unfold monitor_turn, _check_for_peg_crosses. rewrite Hl.
  cbn. eexists. repeat split.
Qed.

(** A turn that finds nothing newer reports nothing. *)
Lemma turn_not_newer (client : BeanSqlClient) (known latest : Cross) :
  last_cross client = Ok latest ->
  timestamp latest <= timestamp known ->
  monitor_turn client (Some known) = (Ok (Some known), []).
Proof.
  intros Hl Hts. unfold monitor_turn, _check_for_peg_crosses. rewrite Hl.
  cbn [lift bind]. destruct (Z.leb_spec (timestamp latest) (timestamp known)); [| lia].
  reflexivity.
Qed.

(** A turn that is several crosses behind asks for all of them. *)
Lemma turn_newer_many (client : BeanSqlClient) (known latest : Cross) (l : list Cross) :
  last_cross client = Ok latest ->
  timestamp known < timestamp latest ->
  1 < id latest - id known ->
  get_last_crosses client (id latest - id known) = Ok l ->
  exists t, monitor_turn client (Some known) = (Ok (Some latest), t)
            /\ requested t = [id latest - id known]
            /\ sent t = map report l.
Proof.
  intros Hl Hts Hd Hg. unfold monitor_turn, _check_for_peg_crosses. rewrite Hl.
  cbn [lift bind]. destruct (Z.leb_spec (timestamp latest) (timestamp known)); [lia |].
  destruct (Z.ltb_spec 1 (id latest - id known)); [| lia].
  rewrite Hg. cbn [bind app].
  destruct (cross_types_of_spec l) as (t & E & Hs & Hr). rewrite E.
  cbn [bind ret app]. rewrite report_each. cbn [bind ret].
  eexists. split; [reflexivity |].
  cbn [requested sent].
  rewrite !requested_app, !sent_app, Hs, Hr, sent_map_send, requested_map_send.
  cbn [app requested sent]. rewrite app_nil_r. split; reflexivity.
Qed.

(** A turn that is one cross behind reports the latest cross. *)
Lemma turn_newer_one (client : BeanSqlClient) (known latest : Cross) :
  last_cross client = Ok latest ->
  timestamp known < timestamp latest ->
  id latest - id known <= 1 ->
  exists t, monitor_turn client (Some known) = (Ok (Some latest), t)
            /\ requested t = []
            /\ sent t = [report latest].
Proof.
  intros Hl Hts Hd. unfold monitor_turn, _check_for_peg_crosses. rewrite Hl.
  cbn [lift bind]. destruct (Z.leb_spec (timestamp latest) (timestamp known)); [lia |].
  destruct (Z.ltb_spec 1 (id latest - id known)); [lia |].
  cbn [bind ret app].
  destruct (cross_types_of_spec [latest]) as (t & E & Hs & Hr). rewrite E.
  cbn [bind ret app]. rewrite (report_each [latest]). cbn [bind ret map].
  eexists. split; [reflexivity |].
  rewrite !requested_app, !sent_app, Hs, Hr.
  cbn [app requested sent]. split; reflexivity.
Qed.

Lemma numbered_from_app (n : Z) (a b : list Cross) :
  numbered_from n (a ++ b) ->
  numbered_from n a /\ numbered_from (n + Z.of_nat (length a)) b.
Proof.
  revert n. induction a as [| c a IH]; intros n H.
  - cbn [app length] in *. replace (n + Z.of_nat 0) with n by lia.
    split; [exact I | exact H].
  - cbn [app numbered_from length] in *. destruct H as (Hc & H).
    destruct (IH _ H) as (Ha & Hb). repeat split; auto.
    replace (n + Z.of_nat (S (length a))) with (n + 1 + Z.of_nat (length a)) by lia.
    exact Hb.
Qed.

Lemma numbered_from_last (n : Z) (l : list Cross) (latest : Cross) :
  numbered_from n (l ++ [latest]) -> id latest = n + Z.of_nat (length l).
Proof.
  intros H. apply numbered_from_app in H. destruct H as (_ & H).
  cbn [numbered_from] in H. tauto.
Qed.

Lemma chronological_tail (l : list Cross) (c : Cross) :
  chronological (c :: l) -> chronological l.
Proof. destruct l as [| d l]; cbn [chronological]; tauto. Qed.

Lemma chronological_app_r (a b : list Cross) :
  chronological (a ++ b) -> chronological b.
Proof.
  induction a as [| c a IH]; [auto |].
  intros H. apply IH. apply (chronological_tail _ c). exact H.
Qed.

Lemma chronological_last (known : Cross) (l : list Cross) (latest : Cross) :
  chronological (known :: l ++ [latest]) -> timestamp known < timestamp latest.
Proof.
  revert known. induction l as [| c l IH]; intros known H.
  - cbn [app chronological] in H. tauto.
  - cbn [app] in H. destruct H as (H1 & H2).
    specialize (IH c H2). lia.
Qed.

(** A turn against a subgraph that has gained the crosses [fresh] since
    the cursor was set: every fresh cross is reported, in order. *)
Lemma turn_reports_fresh (client : BeanSqlClient) (base : Z)
    (older : list Cross) (known : Cross) (fresh : list Cross) (latest : Cross) :
  numbered_from base (older ++ known :: fresh ++ [latest]) ->
  chronological (older ++ known :: fresh ++ [latest]) ->
  answers_from client (older ++ known :: fresh ++ [latest]) ->
  exists t, monitor_turn client (Some known) = (Ok (Some latest), t)
            /\ sent t = map report (fresh ++ [latest])
            /\ requested t
               = (if 1 <? Z.of_nat (length (fresh ++ [latest]))
                  then [Z.of_nat (length (fresh ++ [latest]))] else [])
            /\ id latest - id known = Z.of_nat (length (fresh ++ [latest])).
Proof.
  intros Hn Hc (Hlast & Hget).
  assert (Hl : last_cross client = Ok latest).
  { apply (Hlast (older ++ known :: fresh)). rewrite <- app_assoc. reflexivity. }
  assert (Hts : timestamp known < timestamp latest).
  { apply chronological_app_r in Hc. apply (chronological_last _ fresh). exact Hc. }
  assert (Hid : id latest - id known = Z.of_nat (length (fresh ++ [latest]))).
  { apply numbered_from_app in Hn. destruct Hn as (_ & Hn).
    cbn [numbered_from] in Hn. destruct Hn as (Hk & Hn).
    apply numbered_from_last in Hn. rewrite length_app. cbn [length]. lia. }
  destruct fresh as [| c fresh].
  - cbn [app length] in *.
    destruct (turn_newer_one client known latest Hl Hts ltac:(lia)) as (t & E & Hr & Hs).
    exists t. split; [exact E |]. split; [exact Hs |]. split; [| exact Hid].
    rewrite Hr. reflexivity.
  - destruct (turn_newer_many client known latest ((c :: fresh) ++ [latest]) Hl Hts)
      as (t & E & Hr & Hs).
    + rewrite Hid, length_app. cbn [length]. lia.
    + rewrite Hid, Hget.
      * f_equal. rewrite Nat2Z.id.
        replace (length (older ++ known :: (c :: fresh) ++ [latest])
                 - length ((c :: fresh) ++ [latest]))%nat
          with (length (older ++ [known])).
        { replace (older ++ known :: (c :: fresh) ++ [latest])%list
            with ((older ++ [known]) ++ ((c :: fresh) ++ [latest]))%list
            by (rewrite <- app_assoc; reflexivity).
          rewrite skipn_app, skipn_all, Nat.sub_diag. reflexivity. }
        { rewrite !length_app. cbn [length]. rewrite !length_app. cbn [length]. lia. }
      * rewrite !length_app. cbn [length]. rewrite !length_app. cbn [length]. lia.
    + exists t. split; [exact E |]. split; [exact Hs |]. split; [| exact Hid].
      rewrite Hr, Hid.
      destruct (Z.ltb_spec 1 (Z.of_nat (length ((c :: fresh) ++ [latest])))) as [| Hle];
        [reflexivity |].
      rewrite length_app in Hle. cbn [length] in Hle. lia.
Qed.

Lemma last_default (b : list Cross) (d d' : Cross) :
  b <> [] -> last b d = last b d'.
Proof.
  induction b as [| x b IH]; [congruence |].
  intros _. destruct b as [| y b]; [reflexivity |].
  cbn [last] in *. apply IH. discriminate.
Qed.

Lemma last_app_nonempty (a b : list Cross) (d d' : Cross) :
  b <> [] -> last (a ++ b) d = last b d'.
Proof.
  intros Hb. induction a as [| x a IH]; [apply last_default; exact Hb |].
  cbn [app last]. destruct (a ++ b)%list as [| y l] eqn:E; [| exact IH].
  destruct a; destruct b; cbn in E; congruence.
Qed.

Lemma chronological_app_l (a b : list Cross) :
  chronological (a ++ b) -> chronological a.
Proof.
  induction a as [| c a IH]; [intros; exact I |].
  destruct a as [| d a]; [intros; exact I |].
  cbn [app chronological]. intros (H1 & H2). split; [exact H1 |].
  apply IH. exact H2.
Qed.

Lemma subgraph_client_answers (h : list Cross) :
  answers_from (subgraph_client h) h.
Proof.
  split.
  - intros older latest ->. cbn [subgraph_client last_cross].
    rewrite rev_app_distr. reflexivity.
  - intros n _. reflexivity.
Qed.

(** Successive turns against a subgraph that gains a batch of crosses
    before each of them: every cross of every batch is reported, once
    and in order, and the cursor ends on the latest of them. *)
Lemma turns_report_batches (base : Z) (batches : list (list Cross)) :
  forall (older : list Cross) (known : Cross) (clients : list BeanSqlClient),
    Forall (fun batch => batch <> []) batches ->
    numbered_from base ((older ++ [known]) ++ concat batches) ->
    chronological ((older ++ [known]) ++ concat batches) ->
    Forall2 answers_from clients (snapshots (older ++ [known]) batches) ->
    exists t,
      monitor_turns clients (Some known)
      = (t, Some (last (concat batches) known))
      /\ sent t = map report (concat batches).
Proof.
  induction batches as [| batch batches IH]; intros older known clients Hne Hn Hc Ha.
  - inversion Ha; subst. exists []. split; reflexivity.
  - cbn [snapshots] in Ha. inversion Ha as [| client snap clients' snaps Hans Hrest]; subst.
    inversion Hne as [| ? ? Hb Hne']; subst.
    destruct (exists_last Hb) as (fresh & latest & ->).
    cbn [concat] in Hn, Hc |- *.
    assert (Eh : ((older ++ [known]) ++ (fresh ++ [latest]) ++ concat batches)%list
                 = ((older ++ known :: fresh ++ [latest]) ++ concat batches)%list).
    { same_list. }
    rewrite Eh in Hn, Hc.
    destruct (turn_reports_fresh client base older known fresh latest)
      as (t1 & E1 & Hs1 & _ & _).
    { apply numbered_from_app in Hn. tauto. }
    { apply chronological_app_l in Hc. exact Hc. }
    { replace (older ++ known :: fresh ++ [latest])%list
        with ((older ++ [known]) ++ fresh ++ [latest])%list by same_list.
      exact Hans. }
    assert (Es : ((older ++ [known]) ++ fresh ++ [latest])%list
                 = ((older ++ known :: fresh) ++ [latest])%list).
    { same_list. }
    rewrite Es in Hrest.
    destruct (IH (older ++ known :: fresh)%list latest clients') as (t2 & E2 & Hs2).
    + exact Hne'.
    + replace (((older ++ known :: fresh) ++ [latest]) ++ concat batches)%list
        with ((older ++ known :: fresh ++ [latest]) ++ concat batches)%list by same_list.
      exact Hn.
    + replace (((older ++ known :: fresh) ++ [latest]) ++ concat batches)%list
        with ((older ++ known :: fresh ++ [latest]) ++ concat batches)%list by same_list.
      exact Hc.
    + exact Hrest.
    + assert (F : last (concat batches) latest
                  = last ((fresh ++ [latest]) ++ concat batches) known).
      { destruct (concat batches) as [| c rest].
        - rewrite app_nil_r, last_last. reflexivity.
        - symmetry. apply last_app_nonempty. discriminate. }
      exists (t1 ++ t2)%list. split.
      * cbn [monitor_turns]. rewrite E1, E2, F. reflexivity.
      * rewrite sent_app, Hs1, Hs2. symmetry. apply map_app.
Qed.

(** With increasing ids but no newer timestamp the new cross goes
    unreported: the second poll sees cross 2 beside cross 1, both
    stamped 100, and sends nothing. *)
Lemma peg_cross_same_timestamp_unreported :
  let c1 := {| id := 1; timestamp := 100; above := true |} in
  let c2 := {| id := 2; timestamp := 100; above := false |} in
  id c1 < id c2
  /\ numbered_from 1 [c1; c2]
  /\ sent (fst (monitor_turns [subgraph_client [c1]; subgraph_client [c1; c2]] None))
     = [].
Proof. cbv zeta. repeat split. Qed.

(** C2, as amended. Against a subgraph that numbers its crosses
    without a gap, stamps each later than the one before, and answers
    [get_last_crosses n] with its last [n] crosses, oldest first: over
    any sequence of polls that each find at least one new cross, the
    detector reports every new cross exactly once, in order, as a cross
    above when the record says [above] and as a cross below otherwise,
    and reports nothing on the first poll, which only sets the cursor.
    A poll that finds the latest id [delta > 1] beyond the cursor asks
    the source for exactly [delta] crosses and reports [delta] of them.
    A poll whose latest record is not newer than the cursor, by its
    timestamp, reports nothing and leaves the cursor. *)
Theorem peg_crosses_reported_once :
  (forall base older known batches client clients,
     Forall (fun batch => batch <> []) batches ->
     numbered_from base ((older ++ [known]) ++ concat batches) ->
     chronological ((older ++ [known]) ++ concat batches) ->
     answers_from client (older ++ [known]) ->
     Forall2 answers_from clients (snapshots (older ++ [known]) batches) ->
     exists t0 t,
       monitor_turn client None = (Ok (Some known), t0)
       /\ sent t0 = []
       /\ monitor_turns (client :: clients) None
          = (t, Some (last (concat batches) known))
       /\ sent t = map report (concat batches))
  /\ (forall base older known fresh latest client,
        fresh <> [] ->
        numbered_from base (older ++ known :: fresh ++ [latest]) ->
        chronological (older ++ known :: fresh ++ [latest]) ->
        answers_from client (older ++ known :: fresh ++ [latest]) ->
        exists t,
          monitor_turn client (Some known) = (Ok (Some latest), t)
          /\ 1 < id latest - id known
          /\ requested t = [id latest - id known]
          /\ Z.of_nat (length (sent t)) = id latest - id known
          /\ sent t = map report (fresh ++ [latest]))
  /\ (forall client known latest,
        last_cross client = Ok latest ->
        timestamp latest <= timestamp known ->
        monitor_turn client (Some known) = (Ok (Some known), [])).
Proof.
  split; [| split].
  - intros base older known batches client clients Hne Hn Hc Ha0 Ha.
    destruct (turn_first client known) as (t0 & E0 & Hs0 & _).
    { destruct Ha0 as (Hlast & _). apply (Hlast older). reflexivity. }
    destruct (turns_report_batches base batches older known clients Hne Hn Hc Ha)
      as (t & E & Hs).
    exists t0, (t0 ++ t)%list. repeat split; auto.
    + cbn [monitor_turns]. rewrite E0, E. reflexivity.
    + rewrite sent_app, Hs0, Hs. reflexivity.
  - intros base older known fresh latest client Hfresh Hn Hc Ha.
    destruct (turn_reports_fresh client base older known fresh latest Hn Hc Ha)
      as (t & E & Hs & Hr & Hid).
    assert (Hlen : 1 < Z.of_nat (length (fresh ++ [latest]))).
    { rewrite length_app. cbn [length]. destruct fresh; [congruence |].
      cbn [length]. lia. }
    exists t. split; [exact E |]. split; [lia |]. split.
    + rewrite Hr, Hid. destruct (Z.ltb_spec 1 (Z.of_nat (length (fresh ++ [latest]))));
        [reflexivity | lia].
    + split; [| exact Hs]. rewrite Hs, length_map. lia.
  - exact turn_not_newer.
Qed.

Lemma peg_crosses_reported_once_witness :
  (exists t0 t,
     monitor_turn (subgraph_client [cross_1]) None = (Ok (Some cross_1), t0)
     /\ sent t0 = []
     /\ monitor_turns [subgraph_client [cross_1];
                       subgraph_client [cross_1; cross_2];
                       subgraph_client [cross_1; cross_2; cross_3; cross_4]] None
        = (t, Some cross_4)
     /\ sent t = map report [cross_2; cross_3; cross_4])
  /\ (exists t,
        monitor_turn (subgraph_client [cross_1; cross_2; cross_3; cross_4]) (Some cross_1)
        = (Ok (Some cross_4), t)
        /\ 1 < id cross_4 - id cross_1
        /\ requested t = [id cross_4 - id cross_1]
        /\ Z.of_nat (length (sent t)) = id cross_4 - id cross_1
        /\ sent t = map report [cross_2; cross_3; cross_4]).
Proof.
  destruct peg_crosses_reported_once as (Hrun & Hturn & _).
  split.
  - apply (Hrun 1 [] cross_1 [[cross_2]; [cross_3; cross_4]]
             (subgraph_client [cross_1])
             [subgraph_client [cross_1; cross_2];
              subgraph_client [cross_1; cross_2; cross_3; cross_4]]).
    + repeat constructor; discriminate.
    + cbn. repeat split.
    + cbn. repeat split.
    + apply subgraph_client_answers.
    + repeat constructor; apply subgraph_client_answers.
  - apply (Hturn 1 [] cross_1 [cross_2; cross_3] cross_4
             (subgraph_client [cross_1; cross_2; cross_3; cross_4])).
    + discriminate.
    + cbn. repeat split.
    + cbn. repeat split.
    + apply subgraph_client_answers.
Defined.

End PegCross.

(* ================================================================== *)
(** * The protocol monitor: pruning of embedded deposits                *)
(* ================================================================== *)

Section Pruning.

Import BeanstalkMonitor.
Local Open Scope Z_scope.

Lemma args_eqb_refl (a : list (string * Z)) : args_eqb a a = true.
Proof.
  induction a as [| [k v] a IH]; [reflexivity |].
  cbn [args_eqb]. rewrite String.eqb_refl, Z.eqb_refl, IH. reflexivity.
Qed.

Lemma EventLog_eqb_refl (l : EventLog) : EventLog_eqb l l = true.
Proof.
  unfold EventLog_eqb.
  rewrite !String.eqb_refl, args_eqb_refl, Z.eqb_refl. reflexivity.
Qed.

(** Equal logs are of the same kind. *)
Lemma EventLog_eqb_kind (a b : EventLog) :
  EventLog_eqb a b = true -> is_bean_deposit a = is_bean_deposit b.
Proof.
  unfold EventLog_eqb, is_bean_deposit. intros H.
  apply andb_true_iff in H. destruct H as (H & _).
  apply andb_true_iff in H. destruct H as (H & _).
  apply andb_true_iff in H. destruct H as (H & _).
  apply String.eqb_eq in H. rewrite H. reflexivity.
Qed.

Lemma scan_bean_deposits_spec (event_logs : list EventLog) :
  forall last acc,
    scan_bean_deposits event_logs last acc
    = (fold_left later_deposit (filter is_bean_deposit event_logs) last,
       (acc ++ filter is_bean_deposit event_logs)%list).
Proof.
  induction event_logs as [| l event_logs IH]; intros last acc.
  - cbn. rewrite app_nil_r. reflexivity.
  - cbn [scan_bean_deposits filter].
    change (String.eqb (event l) "BeanDeposit") with (is_bean_deposit l).
    destruct (is_bean_deposit l).
    + rewrite IH. cbn [fold_left]. rewrite <- app_assoc. reflexivity.
    + apply IH.
Qed.

(** What the fold retains is one of the logs it saw, and none of them
    has a higher log index. *)
Lemma later_deposit_highest (ds : list EventLog) :
  forall last,
    (last <> None \/ ds <> []) ->
    exists rep,
      fold_left later_deposit ds last = Some rep
      /\ (Some rep = last \/ In rep ds)
      /\ (forall d, Some d = last \/ In d ds -> logIndex d <= logIndex rep).
Proof.
  induction ds as [| l ds IH]; intros last Hne.
  - destruct last as [d |]; [| destruct Hne; congruence].
    exists d. cbn. repeat split; auto.
    intros d' [H | []]. inversion H. lia.
  - cbn [fold_left].
    destruct (IH (later_deposit last l)) as (rep & E & Hin & Hmax).
    { left. destruct last as [d |]; cbn [later_deposit];
        [destruct (logIndex d <? logIndex l) |]; discriminate. }
    exists rep. split; [exact E |]. split.
    + destruct Hin as [Hin | Hin]; [| right; right; exact Hin].
      destruct last as [d |]; cbn [later_deposit] in Hin.
      * destruct (logIndex d <? logIndex l); inversion Hin; subst;
          [right; left; reflexivity | left; reflexivity].
      * inversion Hin; subst. right. left. reflexivity.
    + intros d [Hd | [Hd | Hd]].
      * subst last. cbn [later_deposit] in Hmax.
        destruct (Z.ltb_spec (logIndex d) (logIndex l)) as [Hlt | Hge].
        -- specialize (Hmax l (or_introl eq_refl)). lia.
        -- apply Hmax. left. reflexivity.
      * subst d. destruct last as [d |]; cbn [later_deposit] in Hmax.
        -- destruct (Z.ltb_spec (logIndex d) (logIndex l)) as [Hlt | Hge].
           ++ apply Hmax. left. reflexivity.
           ++ specialize (Hmax d (or_introl eq_refl)). lia.
        -- apply Hmax. left. reflexivity.
      * apply Hmax. right. exact Hd.
Qed.

(** Removing deposits from a list that starts with another kind of log
    leaves that log in front. *)
Lemma remove_each_cons (ds : list EventLog) :
  forall (x : EventLog) (l : list EventLog),
    is_bean_deposit x = false ->
    forallb is_bean_deposit ds = true ->
    remove_each ds (x :: l)
    = bind_result (remove_each ds l) (fun rest => Ok (x :: rest)).
Proof.
  induction ds as [| d ds IH]; intros x l Hx Hds; [reflexivity |].
  cbn [forallb] in Hds. apply andb_true_iff in Hds. destruct Hds as (Hd & Hds).
  cbn [remove_each list_remove].
  destruct (EventLog_eqb x d) eqn:E.
  - apply EventLog_eqb_kind in E. congruence.
  - destruct (list_remove d l) as [rest | e]; cbn [bind_result]; [| reflexivity].
    apply IH; assumption.
Qed.

Lemma filter_deposits_all (l : list EventLog) :
  forallb is_bean_deposit (filter is_bean_deposit l) = true.
Proof.
  induction l as [| x l IH]; [reflexivity |].
  cbn [filter]. destruct (is_bean_deposit x) eqn:E; [| exact IH].
  cbn [forallb]. rewrite E, IH. reflexivity.
Qed.

(** The second loop removes the deposit logs, all of them and nothing
    else, and keeps the order of the other logs. *)
Lemma remove_each_deposits (l : list EventLog) :
  remove_each (filter is_bean_deposit l) l
  = Ok (filter (fun x => negb (is_bean_deposit x)) l).
Proof.
  induction l as [| x l IH]; [reflexivity |].
  cbn [filter]. destruct (is_bean_deposit x) eqn:E; cbn [negb].
  - cbn [remove_each list_remove]. rewrite EventLog_eqb_refl. cbn [bind_result].
    exact IH.
  - rewrite remove_each_cons by (auto using filter_deposits_all).
    rewrite IH. reflexivity.
Qed.

End Pruning.

(* ================================================================== *)
(** * The protocol monitor: one message per silo conversion             *)
(* ================================================================== *)

Section SiloMessage.

Import BeanstalkMonitor.

Variable eth_chain : EthChain.
Variable blockchain_client : BlockchainClient.
Variable beanstalk_graph_client : BeanstalkSqlClient.

Abbreviation handle :=
  (_handle_txn_logs eth_chain blockchain_client beanstalk_graph_client).
Abbreviation render :=
  (fun group => silo_conversion_str eth_chain group blockchain_client
                  beanstalk_graph_client).
Abbreviation others := (filter (fun x => negb (is_bean_deposit x))).

(** What the pruning step leaves of a group that holds a deposit log. *)
Lemma pruning_keeps_highest (event_logs : list EventLog) :
  (exists d, In d event_logs /\ is_bean_deposit d = true) ->
  exists rep,
    scan_bean_deposits event_logs None []
    = (Some rep, filter is_bean_deposit event_logs)
    /\ In rep event_logs
    /\ is_bean_deposit rep = true
    /\ (forall d, In d event_logs -> is_bean_deposit d = true ->
                  (logIndex d <= logIndex rep)%Z).
Proof.
  intros (d0 & Hin0 & Hd0).
  destruct (later_deposit_highest (filter is_bean_deposit event_logs) None)
    as (rep & E & Hin & Hmax).
  { right. intros Hnil.
    assert (H : In d0 (filter is_bean_deposit event_logs))
      by (apply filter_In; auto).
    rewrite Hnil in H. exact H. }
  exists rep. rewrite scan_bean_deposits_spec, E. cbn [app].
  destruct Hin as [Hin | Hin]; [discriminate |].
  apply filter_In in Hin. destruct Hin as (Hin & Hrep).
  repeat split; auto.
  intros d Hd Hk. apply Hmax. right. apply filter_In. auto.
Qed.

(** The handler on a transaction whose method is a silo conversion: it
    renders the pruned group with the retained deposit behind it, once,
    and sends what it gets. *)
Lemma handle_silo_conversion (txn_hash : string) (event_logs : list EventLog)
    (txn : Transaction) :
  get_transaction blockchain_client txn_hash = Ok txn ->
  multi_sig_compare (prefix_slice 9 (input txn)) (silo_conversion_sigs eth_chain)
  = true ->
  handle txn_hash event_logs
  = match render (map Some (others event_logs)
                  ++ [fold_left later_deposit (filter is_bean_deposit event_logs) None])
    with
    | Ok event_str =>
        (Ok tt, [Log INFO ("Silo conversion txn seen (" ++ hex txn_hash ++ ").");
                 Send event_str])
    | Raise e =>
        (Raise e, [Log INFO ("Silo conversion txn seen (" ++ hex txn_hash ++ ").")])
    end.
Proof.
  intros Hget Hsig. unfold _handle_txn_logs. rewrite Hget. cbn [lift bind].
  rewrite scan_bean_deposits_spec. cbn [app].
  rewrite remove_each_deposits. cbn [bind]. rewrite Hsig.
  cbn [log bind lift].
  destruct (silo_conversion_str _ _ _ _); reflexivity.
Qed.

(** The loop of the renderer splits over an append. *)
Lemma silo_loop_app (price : Q) (a b : list (option EventLog)) :
  forall vars,
    silo_conversion_loop eth_chain price beanstalk_graph_client vars (a ++ b)
    = bind_result (silo_conversion_loop eth_chain price beanstalk_graph_client vars a)
        (fun vars' =>
           silo_conversion_loop eth_chain price beanstalk_graph_client vars' b).
Proof.
  induction a as [| x a IH]; intros vars; cbn [app silo_conversion_loop bind_result];
    [reflexivity |].
  destruct (silo_conversion_step eth_chain price beanstalk_graph_client vars x)
    as [vars' | e]; cbn [bind_result]; [apply IH | reflexivity].
Qed.

(** What the loop of the renderer leaves in its variables after the
    logs of a pruned group, when the pool is known and holds LP. *)
Lemma silo_loop_over_others (price : Q) (stats : SeasonStats)
    (event_logs : list EventLog) :
  current_season_stats beanstalk_graph_client = Ok stats ->
  ~ lp stats == 0 ->
  Forall (fun l => is_bean_deposit l = false) event_logs ->
  forall vars,
    (assigned (lp_converted vars) = true ->
     assigned (lp_converted_eth vars) = true
     /\ assigned (lp_converted_beans vars) = true) ->
    exists vars',
      silo_conversion_loop eth_chain price beanstalk_graph_client vars
        (map Some event_logs) = Ok vars'
      /\ beans_converted vars'
         = fold_left (amount_of "BeanRemove" "beans" (bean_to_float eth_chain))
             event_logs (beans_converted vars)
      /\ lp_converted vars'
         = fold_left (amount_of "LPRemove" "lp" (lp_to_float eth_chain))
             event_logs (lp_converted vars)
      /\ (assigned (lp_converted vars') = true ->
          assigned (lp_converted_eth vars') = true
          /\ assigned (lp_converted_beans vars') = true)
      /\ assigned (lp_deposited_eth vars')
         = assigned (lp_deposited_eth vars) || existsb is_lp_deposit event_logs
      /\ assigned (lp_deposited_beans vars')
         = assigned (lp_deposited_beans vars) || existsb is_lp_deposit event_logs.
Proof.
  intros Hstats Hlp Hothers.
  apply Qeq_bool_false in Hlp.
  induction Hothers as [| l event_logs Hl Hothers IH]; intros vars Hconv.
  - exists vars. cbn [map silo_conversion_loop fold_left existsb].
    rewrite !orb_false_r. repeat split; try reflexivity; apply Hconv; assumption.
  - cbn [map silo_conversion_loop fold_left existsb].
    unfold silo_conversion_step, amount_of at 2 4, is_lp_deposit at 1 3.
    cbn [attr bind_result]. unfold is_bean_deposit in Hl. rewrite Hl.
    destruct (String.eqb_spec (event l) "BeanRemove") as [Ebr | Nbr].
    + rewrite Ebr. cbn [String.eqb Ascii.eqb Bool.eqb andb bind_result].
      destruct (IH (set_beans_converted vars
                      (bean_to_float eth_chain (args_get (args l) "beans")) price))
        as (vars' & E & H1 & H2 & H3 & H4 & H5); [exact Hconv |].
      exists vars'. split; [exact E |].
      cbn [set_beans_converted beans_converted lp_converted lp_deposited_eth
           lp_deposited_beans] in H1, H2, H4, H5.
      cbn [orb]. repeat split; try assumption; apply H3; assumption.
    + destruct (String.eqb_spec (event l) "LPRemove") as [Elr | Nlr].
      * rewrite Elr. cbn [String.eqb Ascii.eqb Bool.eqb andb].
        rewrite (lp_eq_values_client _ None None None _ _ Hstats), Hlp.
        cbn [bind_result].
        match goal with
        | |- context [silo_conversion_loop _ _ _ ?v _] =>
            destruct (IH v) as (vars' & E & H1 & H2 & H3 & H4 & H5)
        end.
        { intros _. split; reflexivity. }
        exists vars'. split; [exact E |].
        cbn [set_lp_converted beans_converted lp_converted lp_deposited_eth
             lp_deposited_beans] in H1, H2, H4, H5.
        cbn [orb]. repeat split; try assumption; apply H3; assumption.
      * cbn [bind_result].
        destruct (String.eqb_spec (event l) "LPDeposit") as [Eld | Nld].
        -- rewrite (lp_eq_values_client _ None None None _ _ Hstats), Hlp.
           cbn [bind_result].
           match goal with
           | |- context [silo_conversion_loop _ _ _ ?v _] =>
               destruct (IH v) as (vars' & E & H1 & H2 & H3 & H4 & H5)
           end.
           { exact Hconv. }
           exists vars'. split; [exact E |].
           cbn [set_lp_deposited beans_converted lp_converted lp_deposited_eth
                lp_deposited_beans assigned] in H1, H2, H4, H5.
           rewrite !orb_true_r. cbn [orb] in H4, H5.
           repeat split; try assumption; apply H3; assumption.
        -- destruct (IH vars Hconv) as (vars' & E & H1 & H2 & H3 & H4 & H5).
           exists vars'. split; [exact E |].
           cbn [orb]. repeat split; try assumption; apply H3; assumption.
Qed.

(** What the renderer makes of a pruned group with the retained deposit
    behind it, when the bean price and the pool are known and the pool
    holds LP: its string when the logs name a conversion it has a
    sentence for, and otherwise the error of reading [event_str] (or an
    amount of LP) that was never assigned. *)
Lemma render_pruned_group (event_logs : list EventLog) (rep : EventLog) (price : Q)
    (stats : SeasonStats) :
  Forall (fun l => is_bean_deposit l = false) event_logs ->
  is_bean_deposit rep = true ->
  current_bean_price blockchain_client = Ok price ->
  current_season_stats beanstalk_graph_client = Ok stats ->
  ~ lp stats == 0 ->
  if names_conversion eth_chain event_logs
  then exists event_str, render (map Some event_logs ++ [Some rep]) = Ok event_str
  else render (map Some event_logs ++ [Some rep]) = Raise UnboundLocalError.
Proof.
  intros Hothers Hrep Hprice Hstats Hlp.
  destruct (silo_loop_over_others price stats event_logs Hstats Hlp Hothers
              silo_locals_init) as (vars & E & Hbc & Hlc & Hconv & Hde & Hdb).
  { cbn [silo_locals_init lp_converted assigned]. discriminate. }
  cbn [silo_locals_init beans_converted lp_converted lp_deposited_eth
       lp_deposited_beans assigned orb] in Hbc, Hlc, Hde, Hdb.
  fold (last_amount "BeanRemove" "beans" (bean_to_float eth_chain) event_logs) in Hbc.
  fold (last_amount "LPRemove" "lp" (lp_to_float eth_chain) event_logs) in Hlc.
  unfold names_conversion. rewrite <- Hbc, <- Hlc, <- Hde.
  assert (Hfirst : exists first,
            (map Some event_logs ++ [Some rep])%list
            = Some first :: tl (map Some event_logs ++ [Some rep])%list).
  { destruct event_logs as [| l rest]; [exists rep | exists l]; reflexivity. }
  destruct Hfirst as (first & Hfirst).
  apply String.eqb_eq in Hrep.
  unfold silo_conversion_str. rewrite Hprice. cbn [bind_result].
  rewrite silo_loop_app, E. cbn [bind_result silo_conversion_loop].
  unfold silo_conversion_step. cbn [attr bind_result]. rewrite Hrep.
  cbn [String.eqb Ascii.eqb Bool.eqb andb bind_result set_beans_deposited
       beans_converted lp_converted lp_converted_eth lp_converted_beans
       beans_deposited lp_deposited_eth lp_deposited_beans value].
  rewrite Hfirst.
  destruct (truthy (beans_converted vars)) eqn:Hbt.
  - destruct (beans_converted vars) as [converted |]; [| discriminate].
    cbn [local bind_result].
    destruct (lp_deposited_eth vars) as [eth |]; cbn [assigned local bind_result].
    + destruct (lp_deposited_beans vars) as [beans |];
        [| cbn [assigned] in Hde, Hdb; congruence].
      cbn [local bind_result attr]. eexists. reflexivity.
    + reflexivity.
  - destruct (truthy (lp_converted vars)) eqn:Hlt.
    + destruct (lp_converted vars) as [amount |]; [| discriminate].
      destruct (Hconv eq_refl) as (He & Hb).
      destruct (lp_converted_eth vars) as [eth |]; [| discriminate].
      destruct (lp_converted_beans vars) as [beans |]; [| discriminate].
      cbn [local bind_result attr]. eexists. reflexivity.
    + reflexivity.
Qed.

(** Without the pool, known and with LP in it, the loop of the
    renderer stops at the first log of LP; past the others it assigns
    no amount of LP. *)
Lemma silo_loop_without_pool (price : Q) (event_logs : list EventLog) :
  (forall amount, exists e,
      lp_eq_values amount None None None (Some beanstalk_graph_client) = Raise e) ->
  Forall (fun l => is_bean_deposit l = false) event_logs ->
  forall vars,
    match silo_conversion_loop eth_chain price beanstalk_graph_client vars
            (map Some event_logs) with
    | Ok vars' =>
        lp_converted vars' = lp_converted vars
        /\ lp_deposited_eth vars' = lp_deposited_eth vars
    | Raise _ => True
    end.
Proof.
  intros Hpool Hothers.
  induction Hothers as [| l event_logs Hl Hothers IH]; intros vars.
  - cbn [map silo_conversion_loop]. split; reflexivity.
  - cbn [map silo_conversion_loop]. unfold silo_conversion_step.
    cbn [attr bind_result]. unfold is_bean_deposit in Hl. rewrite Hl.
    destruct (String.eqb_spec (event l) "BeanRemove") as [Ebr | Nbr].
    + rewrite Ebr. cbn [String.eqb Ascii.eqb Bool.eqb andb bind_result].
      specialize (IH (set_beans_converted vars
                        (bean_to_float eth_chain (args_get (args l) "beans")) price)).
      destruct (silo_conversion_loop _ _ _ _ _); [exact IH | exact I].
    + destruct (String.eqb (event l) "LPRemove").
      * destruct (Hpool (lp_to_float eth_chain (args_get (args l) "lp"))) as (e & E).
        rewrite E. cbn [bind_result]. exact I.
      * cbn [bind_result]. destruct (String.eqb (event l) "LPDeposit").
        -- destruct (Hpool (lp_to_float eth_chain (args_get (args l) "lp"))) as (e & E).
           rewrite E. cbn [bind_result]. exact I.
        -- cbn [bind_result]. specialize (IH vars).
           destruct (silo_conversion_loop _ _ _ _ _); [exact IH | exact I].
Qed.

(** Without the pool the renderer has no string for a pruned group. *)
Lemma render_without_pool (event_logs : list EventLog) (rep : EventLog) (price : Q) :
  Forall (fun l => is_bean_deposit l = false) event_logs ->
  is_bean_deposit rep = true ->
  current_bean_price blockchain_client = Ok price ->
  (exists e, current_season_stats beanstalk_graph_client = Raise e)
  \/ (exists stats, current_season_stats beanstalk_graph_client = Ok stats
                    /\ lp stats == 0) ->
  exists e, render (map Some event_logs ++ [Some rep]) = Raise e.
Proof.
  intros Hothers Hrep Hprice Hpool.
  assert (Hraise : forall amount, exists e,
             lp_eq_values amount None None None (Some beanstalk_graph_client)
             = Raise e).
  { intros amount. destruct Hpool as [(e & E) | (stats & E & Hzero)].
    - exists e. unfold lp_eq_values. rewrite E. reflexivity.
    - exists ZeroDivisionError.
      rewrite (lp_eq_values_client _ None None None _ _ E).
      apply Qeq_bool_iff in Hzero. rewrite Hzero. reflexivity. }
  pose proof (silo_loop_without_pool price event_logs Hraise Hothers silo_locals_init)
    as Hloop.
  apply String.eqb_eq in Hrep.
  unfold silo_conversion_str. rewrite Hprice. cbn [bind_result].
  rewrite silo_loop_app.
  destruct (silo_conversion_loop eth_chain price beanstalk_graph_client
              silo_locals_init (map Some event_logs)) as [vars | e];
    cbn [bind_result]; [| exists e; reflexivity].
  destruct Hloop as (Hlc & Hde). cbn [silo_locals_init lp_converted lp_deposited_eth]
    in Hlc, Hde.
  cbn [silo_conversion_loop]. unfold silo_conversion_step.
  cbn [attr bind_result]. rewrite Hrep.
  cbn [String.eqb Ascii.eqb Bool.eqb andb bind_result set_beans_deposited
       beans_converted lp_converted lp_converted_eth lp_converted_beans
       beans_deposited lp_deposited_eth lp_deposited_beans value].
  rewrite Hlc, Hde.
  destruct (truthy (beans_converted vars)) eqn:Hbt.
  - destruct (beans_converted vars) as [converted |]; [| discriminate].
    cbn [local bind_result]. exists UnboundLocalError. reflexivity.
  - cbn [truthy local bind_result]. exists UnboundLocalError. reflexivity.
Qed.

Lemma others_hold_no_deposit (event_logs : list EventLog) :
  Forall (fun l => is_bean_deposit l = false) (others event_logs).
Proof.
  apply Forall_forall. intros l Hl. apply filter_In in Hl. destruct Hl as (_ & Hl).
  destruct (is_bean_deposit l); [discriminate | reflexivity].
Qed.

(** C3, where the code parts from it. For every transaction event
    group that holds at least one BeanDeposit log, the pruning step of
    the protocol monitor removes all the BeanDeposit logs, keeps the
    other logs in their order, and retains one representative: a
    BeanDeposit log of the group that no other exceeds in log position.
    Under a silo-conversion signature the representative is put back
    behind the pruned group and the group goes through the
    silo-conversion renderer once. With the bean price and the pool
    known and LP in the pool, the handler then pushes exactly one
    message, and not one per log, whenever the other logs name a
    conversion: Beans removed and LP deposited, or LP removed, of a
    non-zero amount. When they do not, as in a group of BeanDeposit logs
    only, the renderer reads a variable, its [event_str] or the amounts
    of the LP deposited, before anything was assigned to it: the
    handler fails with [UnboundLocalError] and pushes no message, where
    exactly one is expected. Nor is there a message when the bean price
    or the pool cannot be had: the handler fails with the error of the
    renderer. *)
Theorem silo_conversion_message_needs_a_removal (txn_hash : string)
    (event_logs : list EventLog) (txn : Transaction) :
  (exists d, In d event_logs /\ is_bean_deposit d = true) ->
  get_transaction blockchain_client txn_hash = Ok txn ->
  multi_sig_compare (prefix_slice 9 (input txn)) (silo_conversion_sigs eth_chain)
  = true ->
  exists rep,
    scan_bean_deposits event_logs None []
    = (Some rep, filter is_bean_deposit event_logs)
    /\ In rep event_logs
    /\ is_bean_deposit rep = true
    /\ (forall d, In d event_logs -> is_bean_deposit d = true ->
                  (logIndex d <= logIndex rep)%Z)
    /\ remove_each (filter is_bean_deposit event_logs) event_logs
       = Ok (others event_logs)
    /\ (forall price stats,
          current_bean_price blockchain_client = Ok price ->
          current_season_stats beanstalk_graph_client = Ok stats ->
          ~ lp stats == 0 ->
          (names_conversion eth_chain (others event_logs) = true ->
           exists event_str,
             render (map Some (others event_logs) ++ [Some rep]) = Ok event_str
             /\ handle txn_hash event_logs
                = (Ok tt,
                   [Log INFO ("Silo conversion txn seen (" ++ hex txn_hash ++ ").");
                    Send event_str])
             /\ sent (snd (handle txn_hash event_logs)) = [event_str])
          /\ (names_conversion eth_chain (others event_logs) = false ->
              handle txn_hash event_logs
              = (Raise UnboundLocalError,
                 [Log INFO ("Silo conversion txn seen (" ++ hex txn_hash ++ ").")])
              /\ sent (snd (handle txn_hash event_logs)) = []))
    /\ (forall e,
          current_bean_price blockchain_client = Raise e ->
          handle txn_hash event_logs
          = (Raise e, [Log INFO ("Silo conversion txn seen (" ++ hex txn_hash ++ ").")])
          /\ sent (snd (handle txn_hash event_logs)) = [])
    /\ (forall price,
          current_bean_price blockchain_client = Ok price ->
          (exists e, current_season_stats beanstalk_graph_client = Raise e)
          \/ (exists stats, current_season_stats beanstalk_graph_client = Ok stats
                            /\ lp stats == 0) ->
          exists e,
            handle txn_hash event_logs
            = (Raise e,
               [Log INFO ("Silo conversion txn seen (" ++ hex txn_hash ++ ").")])
            /\ sent (snd (handle txn_hash event_logs)) = []).
Proof.
  intros Hdep Hget Hsig.
  destruct (pruning_keeps_highest event_logs Hdep) as (rep & Escan & Hin & Hrep & Hmax).
  pose proof (handle_silo_conversion txn_hash event_logs txn Hget Hsig) as Hh.
  assert (Efold : fold_left later_deposit (filter is_bean_deposit event_logs) None
                  = Some rep).
  { rewrite scan_bean_deposits_spec in Escan. congruence. }
  rewrite Efold in Hh.
  exists rep. split; [exact Escan |]. split; [exact Hin |]. split; [exact Hrep |].
  split; [exact Hmax |]. split; [apply remove_each_deposits |].
  split; [| split].
  - intros price stats Hprice Hstats Hlp.
    pose proof (render_pruned_group (others event_logs) rep price stats
                  (others_hold_no_deposit event_logs) Hrep Hprice Hstats Hlp)
      as Hrender.
    split; intros Hnames; rewrite Hnames in Hrender.
    + destruct Hrender as (event_str & E). exists event_str.
      split; [exact E |]. rewrite Hh, E. split; reflexivity.
    + rewrite Hh, Hrender. split; reflexivity.
  - intros e Hprice. rewrite Hh. unfold silo_conversion_str. rewrite Hprice.
    split; reflexivity.
  - intros price Hprice Hpool.
    destruct (render_without_pool (others event_logs) rep price
                (others_hold_no_deposit event_logs) Hrep Hprice Hpool) as (e & E).
    exists e. rewrite Hh, E. split; reflexivity.
Qed.

End SiloMessage.

Lemma silo_conversion_message_needs_a_removal_witness :
  (BeanstalkMonitor._handle_txn_logs sample_eth_chain
     (sample_blockchain_client "0x1f2a3b4c0000002a") sample_stats_client sample_hash
     [bean_deposit_log 1 5000000; bean_deposit_log 3 4000000000]
   = (Raise UnboundLocalError, [Log INFO "Silo conversion txn seen (0xab01)."])
   /\ sent (snd (BeanstalkMonitor._handle_txn_logs sample_eth_chain
                   (sample_blockchain_client "0x1f2a3b4c0000002a") sample_stats_client
                   sample_hash
                   [bean_deposit_log 1 5000000; bean_deposit_log 3 4000000000])) = [])
  /\ (exists event_str,
        sent (snd (BeanstalkMonitor._handle_txn_logs sample_eth_chain
                     (sample_blockchain_client "0x1f2a3b4c0000002a") sample_stats_client
                     sample_hash
                     [bean_deposit_log 1 5000000; bean_remove_log 2 4000000000;
                      lp_deposit_log 3 2000000000000000000])) = [event_str])
  /\ (exists event_str,
        sent (snd (BeanstalkMonitor._handle_txn_logs sample_eth_chain
                     (sample_blockchain_client "0x1f2a3b4c0000002a") sample_stats_client
                     sample_hash
                     [bean_deposit_log 1 5000000; lp_remove_log 2 2000000000000000000;
                      sow_log 3 1000000 1200000; bean_deposit_log 4 4000000000]))
        = [event_str]).
Proof.
  split; [| split].
  - destruct (silo_conversion_message_needs_a_removal sample_eth_chain
                (sample_blockchain_client "0x1f2a3b4c0000002a") sample_stats_client
                sample_hash [bean_deposit_log 1 5000000; bean_deposit_log 3 4000000000]
                {| input := "0x1f2a3b4c0000002a" |})
      as (rep & _ & _ & _ & _ & _ & Hmsg & _ & _).
    + exists (bean_deposit_log 1 5000000). split; [left; reflexivity | reflexivity].
    + reflexivity.
    + reflexivity.
    + destruct (Hmsg (101 # 100)
                  {| pooledEth := 500; pooledBeans := 2000000; lp := 1000 |}
                  eq_refl eq_refl ltac:(discriminate)) as (_ & Hnone).
      apply Hnone. reflexivity.
  - destruct (silo_conversion_message_needs_a_removal sample_eth_chain
                (sample_blockchain_client "0x1f2a3b4c0000002a") sample_stats_client
                sample_hash
                [bean_deposit_log 1 5000000; bean_remove_log 2 4000000000;
                 lp_deposit_log 3 2000000000000000000]
                {| input := "0x1f2a3b4c0000002a" |})
      as (rep & _ & _ & _ & _ & _ & Hmsg & _ & _).
    + exists (bean_deposit_log 1 5000000). split; [left; reflexivity | reflexivity].
    + reflexivity.
    + reflexivity.
    + destruct (Hmsg (101 # 100)
                  {| pooledEth := 500; pooledBeans := 2000000; lp := 1000 |}
                  eq_refl eq_refl ltac:(discriminate)) as (Hone & _).
      destruct (Hone eq_refl) as (event_str & _ & _ & Hsent).
      exists event_str. exact Hsent.
  - destruct (silo_conversion_message_needs_a_removal sample_eth_chain
                (sample_blockchain_client "0x1f2a3b4c0000002a") sample_stats_client
                sample_hash
                [bean_deposit_log 1 5000000; lp_remove_log 2 2000000000000000000;
                 sow_log 3 1000000 1200000; bean_deposit_log 4 4000000000]
                {| input := "0x1f2a3b4c0000002a" |})
      as (rep & _ & _ & _ & _ & _ & Hmsg & _ & _).
    + exists (bean_deposit_log 1 5000000). split; [left; reflexivity | reflexivity].
    + reflexivity.
    + reflexivity.
    + destruct (Hmsg (101 # 100)
                  {| pooledEth := 500; pooledBeans := 2000000; lp := 1000 |}
                  eq_refl eq_refl ltac:(discriminate)) as (Hone & _).
      destruct (Hone eq_refl) as (event_str & _ & _ & Hsent).
      exists event_str. exact Hsent.
Defined.

(* ================================================================== *)
(** * The protocol monitor: a group without a deposit log               *)
(* ================================================================== *)

Section MissingDeposit.

Import BeanstalkMonitor.

Variable eth_chain : EthChain.
Variable blockchain_client : BlockchainClient.
Variable beanstalk_graph_client : BeanstalkSqlClient.

Abbreviation handle :=
  (_handle_txn_logs eth_chain blockchain_client beanstalk_graph_client).
Abbreviation classify_log :=
  (fun event_log =>
     bind (default_beanstalk_event_str eth_chain event_log blockchain_client
             beanstalk_graph_client)
          (fun event_str => send event_str)).

Lemma no_deposit_filter (event_logs : list EventLog) :
  (forall l, In l event_logs -> is_bean_deposit l = false) ->
  filter is_bean_deposit event_logs = []
  /\ filter (fun x => negb (is_bean_deposit x)) event_logs = event_logs.
Proof.
  induction event_logs as [| x l IH]; intros H; [split; reflexivity |].
  cbn [filter]. rewrite (H x (or_introl eq_refl)). cbn [negb].
  destruct IH as (IH1 & IH2); [intros y Hy; apply H; right; exact Hy |].
  rewrite IH1, IH2. split; reflexivity.
Qed.

(** The renderer's loop reaches a [None] at the end of the group only
    to fail on it. *)
Lemma silo_loop_ends_on_none (price : Q) (group : list (option EventLog)) :
  forall vars,
    silo_conversion_loop eth_chain price beanstalk_graph_client vars (group ++ [None])
    = bind_result
        (silo_conversion_loop eth_chain price beanstalk_graph_client vars group)
        (fun _ => Raise AttributeError).
Proof.
  induction group as [| x group IH]; intros vars; [reflexivity |].
  cbn [app silo_conversion_loop].
  destruct (silo_conversion_step _ _ _ _ _) as [vars' | e]; cbn [bind_result];
    [apply IH | reflexivity].
Qed.

Lemma render_fails_on_none (group : list (option EventLog)) :
  exists e,
    silo_conversion_str eth_chain (group ++ [None]) blockchain_client
      beanstalk_graph_client = Raise e.
Proof.
  unfold silo_conversion_str.
  destruct (current_bean_price blockchain_client) as [price | e]; cbn [bind_result];
    [| eexists; reflexivity].
  rewrite silo_loop_ends_on_none.
  destruct (silo_conversion_loop _ _ _ _ _) as [vars | e]; cbn [bind_result];
    eexists; reflexivity.
Qed.

Lemma classify_none_fails : is_ok (fst (classify_log None)) = false.
Proof.
  unfold default_beanstalk_event_str.
  destruct (current_eth_and_bean_price blockchain_client) as [[eth_price bean_price] | e];
    reflexivity.
Qed.

Lemma for_each_fails_at_end {A : Type} (body : A -> M unit) (x : A) (l : list A) :
  is_ok (fst (body x)) = false ->
  is_ok (fst (for_each (l ++ [x]) body)) = false.
Proof.
  intros Hx. induction l as [| y l IH]; cbn [app for_each].
  - destruct (body x) as [[[] | e] t]; [discriminate | reflexivity].
  - destruct (body y) as [[[] | e] t]; cbn [bind]; [| reflexivity].
    destruct (for_each (l ++ [x]) body) as [r t']. exact IH.
Qed.

Lemma not_ok_raises {A : Type} (r : result A) :
  is_ok r = false -> exists e, r = Raise e.
Proof. destruct r as [a | e]; [discriminate | intros _; exists e; reflexivity]. Qed.

(** C9. When the method signature of a transaction matches a
    silo-conversion or a bean-deposit signature and its group holds no
    BeanDeposit log, the deposit retained by the pruning step is [None];
    the handler appends it to the group all the same, and the
    classification fails on it: the handler raises, with
    [AttributeError] for the attribute read on [None] once the logs
    before it have gone through. So the handler returns for such a
    transaction only if its group holds a BeanDeposit log. *)
Theorem handler_needs_a_bean_deposit (txn_hash : string)
    (event_logs : list EventLog) (txn : Transaction) :
  get_transaction blockchain_client txn_hash = Ok txn ->
  (multi_sig_compare (prefix_slice 9 (input txn)) (silo_conversion_sigs eth_chain) = true
   \/ multi_sig_compare (prefix_slice 9 (input txn)) (bean_deposit_sigs eth_chain) = true) ->
  ((forall l, In l event_logs -> is_bean_deposit l = false) ->
   scan_bean_deposits event_logs None [] = (None, [])
   /\ (exists e, fst (handle txn_hash event_logs) = Raise e)
   /\ (forall price vars,
         multi_sig_compare (prefix_slice 9 (input txn)) (silo_conversion_sigs eth_chain)
         = true ->
         current_bean_price blockchain_client = Ok price ->
         silo_conversion_loop eth_chain price beanstalk_graph_client silo_locals_init
           (map Some event_logs) = Ok vars ->
         fst (handle txn_hash event_logs) = Raise AttributeError))
  /\ (fst (handle txn_hash event_logs) = Ok tt ->
      exists d, In d event_logs /\ is_bean_deposit d = true).
Proof.
  intros Hget Hsig.
  assert (Hfail : (forall l, In l event_logs -> is_bean_deposit l = false) ->
                  scan_bean_deposits event_logs None [] = (None, [])
                  /\ (exists e, fst (handle txn_hash event_logs) = Raise e)
                  /\ (forall price vars,
                        multi_sig_compare (prefix_slice 9 (input txn))
                          (silo_conversion_sigs eth_chain) = true ->
                        current_bean_price blockchain_client = Ok price ->
                        silo_conversion_loop eth_chain price beanstalk_graph_client
                          silo_locals_init (map Some event_logs) = Ok vars ->
                        fst (handle txn_hash event_logs) = Raise AttributeError)).
  { intros Hnone. destruct (no_deposit_filter event_logs Hnone) as (Hf & Ho).
    assert (Escan : scan_bean_deposits event_logs None [] = (None, [])).
    { rewrite scan_bean_deposits_spec, Hf. reflexivity. }
    split; [exact Escan |].
    destruct (multi_sig_compare (prefix_slice 9 (input txn))
                (silo_conversion_sigs eth_chain)) eqn:Esilo.
    - pose proof (handle_silo_conversion eth_chain blockchain_client
                    beanstalk_graph_client txn_hash event_logs txn Hget Esilo) as Hh.
      rewrite Hf, Ho in Hh. cbn [fold_left] in Hh. split.
      + destruct (render_fails_on_none (map Some event_logs)) as (e & E).
        exists e. rewrite Hh, E. reflexivity.
      + intros price vars _ Hprice Hloop. rewrite Hh.
        unfold silo_conversion_str. rewrite Hprice. cbn [bind_result].
        rewrite silo_loop_ends_on_none, Hloop. reflexivity.
    - destruct Hsig as [Hsig | Hsig]; [discriminate |]. split.
      + apply not_ok_raises.
        unfold _handle_txn_logs. rewrite Hget. cbn [lift bind].
        rewrite Escan, Esilo, Hsig. cbn [remove_each lift bind log ret app].
        pose proof (for_each_fails_at_end classify_log None (map Some event_logs)
                      classify_none_fails) as Hfe.
        destruct (for_each (map Some event_logs ++ [None]) _) as [r t]. exact Hfe.
      + intros price vars Habs. discriminate. }
  split; [exact Hfail |].
  intros Hok.
  destruct (existsb is_bean_deposit event_logs) eqn:Eex.
  - apply existsb_exists in Eex. exact Eex.
  - exfalso. destruct Hfail as (_ & (e & He) & _).
    + intros l Hl. destruct (is_bean_deposit l) eqn:El; [| reflexivity].
      assert (existsb is_bean_deposit event_logs = true)
        by (apply existsb_exists; exists l; auto).
      congruence.
    + congruence.
Qed.

End MissingDeposit.

Lemma handler_needs_a_bean_deposit_witness :
  exists e,
    fst (BeanstalkMonitor._handle_txn_logs sample_eth_chain
           (sample_blockchain_client "0x1f2a3b4c0000002a") sample_stats_client
           sample_hash [lp_remove_log 2 2000000000000000000]) = Raise e.
Proof.
  destruct (handler_needs_a_bean_deposit sample_eth_chain
              (sample_blockchain_client "0x1f2a3b4c0000002a") sample_stats_client
              sample_hash [lp_remove_log 2 2000000000000000000]
              {| input := "0x1f2a3b4c0000002a" |}) as (Hfail & _).
  - reflexivity.
  - left. reflexivity.
  - destruct Hfail as (_ & Hraise & _).
    + intros l [<- | []]. reflexivity.
    + exact Hraise.
Defined.

(* ================================================================== *)
(** * What the renderers return for kinds they do not report           *)
(* ================================================================== *)

Section Unrecognized.

Variable eth_chain : EthChain.
Variable blockchain_client : BlockchainClient.

Local Open Scope string_scope.

(** C8, where the code parts from it. The pool renderer has no branch
    for a kind other than Mint, Burn and Swap: it falls through to the
    link and the blank-line marker, so the string it returns for such a
    log is not empty, and it logs nothing. *)
Theorem default_pool_event_str_unrecognized (event_log : EventLog)
    (eth_price bean_price : Q) :
  str_in (event event_log) ["Mint"; "Burn"; "Swap"] = false ->
  current_eth_and_bean_price blockchain_client = Ok (eth_price, bean_price) ->
  default_pool_event_str eth_chain event_log blockchain_client
  = (Ok (etherscan_link (transactionHash event_log) ++ blank_line_marker), [])
  /\ etherscan_link (transactionHash event_log) ++ blank_line_marker <> EmptyString.
Proof.
  intros Hkind Hprice. unfold str_in in Hkind. cbn [existsb] in Hkind.
  apply orb_false_iff in Hkind. destruct Hkind as (Hmint & Hkind).
  apply orb_false_iff in Hkind. destruct Hkind as (Hburn & Hkind).
  apply orb_false_iff in Hkind. destruct Hkind as (Hswap & _).
  split.
  - unfold default_pool_event_str. rewrite Hprice. cbn [lift bind].
    unfold str_in. cbn [existsb]. rewrite Hmint, Hburn, Hswap. cbn [orb].
    reflexivity.
  - unfold etherscan_link, nl. cbn [append]. discriminate.
Qed.

End Unrecognized.

Lemma default_pool_event_str_unrecognized_witness :
  default_pool_event_str sample_eth_chain (sync_log 4) (sample_blockchain_client "0xa9059cbb")
  = (Ok (nl ++ "<https://etherscan.io/tx/0xab01>" ++ nl ++ "_ _")%string, [])
  /\ sent (snd (PoolMonitor._handle_txn_logs sample_eth_chain
                  (sample_blockchain_client "0xa9059cbb") sample_hash [sync_log 4]))
     = [(nl ++ "<https://etherscan.io/tx/0xab01>" ++ nl ++ "_ _")%string].
Proof.
  split.
  - apply (default_pool_event_str_unrecognized sample_eth_chain
             (sample_blockchain_client "0xa9059cbb") (sync_log 4) 4000 (101 # 100));
      reflexivity.
  - vm_compute. reflexivity.
Defined.

(* ================================================================== *)
(** * The end of a rendered string                                      *)
(* ================================================================== *)

Section Endings.

Local Open Scope string_scope.

Lemma string_app_assoc (a b c : string) : (a ++ b) ++ c = a ++ (b ++ c).
Proof. induction a as [| x a IH]; [reflexivity |]. cbn [append]. rewrite IH. reflexivity. Qed.

Lemma string_app_empty (a : string) : a ++ "" = a.
Proof. induction a as [| x a IH]; [reflexivity |]. cbn [append]. rewrite IH. reflexivity. Qed.

Lemma string_length_app (a b : string) :
  String.length (a ++ b) = (String.length a + String.length b)%nat.
Proof. induction a as [| x a IH]; [reflexivity |]. cbn [append String.length]. rewrite IH. reflexivity. Qed.

Lemma substring_whole (b : string) : substring 0 (String.length b) b = b.
Proof. induction b as [| x b IH]; [reflexivity |]. cbn [String.length substring]. rewrite IH. reflexivity. Qed.

Lemma substring_past (a b : string) (k : nat) :
  substring (String.length a) k (a ++ b) = substring 0 k b.
Proof. induction a as [| x a IH]; [reflexivity |]. cbn [append String.length substring]. exact IH. Qed.

(** A string ends with what was appended to it last. *)
Lemma endswith_app (a b : string) : endswith (a ++ b) b = true.
Proof.
  unfold endswith. rewrite string_length_app.
  replace (String.length a + String.length b - String.length b)%nat
    with (String.length a) by lia.
  rewrite substring_past, substring_whole, String.eqb_refl.
  destruct (Nat.leb_spec (String.length b) (String.length a + String.length b));
    [reflexivity | lia].
Qed.

(** A string that ends with [>] does not end with the blank-line
    marker, whose last character is an underscore. *)
Lemma endswith_marker_after_link (a : string) :
  endswith (a ++ ">") blank_line_marker = false.
Proof.
  destruct (endswith (a ++ ">") blank_line_marker) eqn:E; [| reflexivity].
  exfalso. unfold endswith in E.
  apply andb_true_iff in E. destruct E as (Hlen & Heq).
  apply Nat.leb_le in Hlen. apply String.eqb_eq in Heq.
  rewrite string_length_app in Hlen, Heq.
  change (String.length blank_line_marker) with 4%nat in Hlen, Heq.
  change (String.length ">") with 1%nat in Hlen, Heq.
  assert (G : get 3 (substring (String.length a + 1 - 4) 4 (a ++ ">"))
              = get 3 blank_line_marker) by (rewrite Heq; reflexivity).
  rewrite substring_correct1 in G by lia.
  replace (3 + (String.length a + 1 - 4))%nat with (0 + String.length a)%nat in G by lia.
  rewrite <- append_correct2 in G. discriminate G.
Qed.

(** The link to a transaction ends with [>]. *)
Lemma etherscan_link_shape (body txn_hash : string) :
  body ++ etherscan_link txn_hash
  = (body ++ nl ++ "<https://etherscan.io/tx/" ++ hex txn_hash) ++ ">".
Proof. unfold etherscan_link. rewrite !string_app_assoc. reflexivity. Qed.

End Endings.

Section RenderedEndings.

Variable eth_chain : EthChain.
Variable blockchain_client : BlockchainClient.
Variable beanstalk_graph_client : BeanstalkSqlClient.

Local Open Scope string_scope.

(** Whatever a silo conversion renders ends with the link to the
    transaction of the first log of the group. *)
Lemma silo_conversion_str_shape (group : list (option EventLog)) (event_str : string) :
  silo_conversion_str eth_chain group blockchain_client beanstalk_graph_client
  = Ok event_str ->
  exists body first,
    head group = Some (Some first)
    /\ event_str = body ++ etherscan_link (transactionHash first).
Proof.
  unfold silo_conversion_str. intros H.
  destruct (current_bean_price blockchain_client) as [price | e];
    cbn [bind_result] in H; [| discriminate].
  destruct (silo_conversion_loop _ _ _ _ _) as [vars | e];
    cbn [bind_result] in H; [| discriminate].
  match type of H with
  | bind_result ?r _ = _ => destruct r as [[text |] | e]
  end; cbn [bind_result local] in H; try discriminate.
  destruct (value vars) as [worth |]; cbn [bind_result local] in H; [| discriminate].
  destruct group as [| [first |] rest]; cbn [bind_result attr] in H; try discriminate.
  inversion H. eexists. exists first. split; reflexivity.
Qed.

Lemma ok_pair_inj {A : Type} (a b : A) (t1 t2 : trace) :
  (Ok a, t1) = (Ok b, t2) -> a = b.
Proof. intros H. inversion H. reflexivity. Qed.

(** An empty string, or a text with the link and the marker behind it. *)
Ltac rendered :=
  cbn [lift bind ret log];
  let H := fresh in
  intros H; apply ok_pair_inj in H; rewrite <- H;
  first [left; reflexivity | right; eexists; reflexivity].

Lemma default_pool_event_str_shape (event_log : EventLog) (event_str : string) (t : trace) :
  default_pool_event_str eth_chain event_log blockchain_client = (Ok event_str, t) ->
  event_str = ""
  \/ exists body,
       event_str = (body ++ etherscan_link (transactionHash event_log)) ++ blank_line_marker.
Proof.
  unfold default_pool_event_str.
  destruct (current_eth_and_bean_price blockchain_client) as [[eth_price bean_price] | e];
    cbn [lift bind]; [| discriminate].
  destruct (str_in (event event_log) ["Mint"; "Burn"]); [rendered |].
  destruct (String.eqb (event event_log) "Swap"); [| rendered].
  destruct (Qltb 0 (eth_to_float eth_chain (args_get (args event_log) "amount0In"))).
  - destruct (avg_swap_price _ _ _ _); [rendered | discriminate].
  - destruct (Qltb 0 (bean_to_float eth_chain (args_get (args event_log) "amount1In"))).
    + destruct (avg_swap_price _ _ _ _); [rendered | discriminate].
    + rendered.
Qed.

Lemma default_beanstalk_event_str_shape (event_log : EventLog) (event_str : string)
    (t : trace) :
  default_beanstalk_event_str eth_chain (Some event_log) blockchain_client
    beanstalk_graph_client = (Ok event_str, t) ->
  event_str = ""
  \/ exists body,
       event_str = (body ++ etherscan_link (transactionHash event_log)) ++ blank_line_marker.
Proof.
  unfold default_beanstalk_event_str.
  destruct (current_eth_and_bean_price blockchain_client) as [[eth_price bean_price] | e];
    cbn [lift bind attr]; [| discriminate].
  destruct (lp_eq_values _ None None None _) as [[lp_eth lp_beans] | e];
    cbn [lift bind attr]; [| discriminate].
  destruct (str_in (event event_log) ["BeanRemove"; "LPRemove"]); [rendered |].
  destruct (str_in (event event_log) ["LPDeposit"; "LPWithdraw"; "LPClaim"]); [rendered |].
  destruct (str_in (event event_log) ["BeanDeposit"; "BeanWithdraw"; "BeanClaim"]);
    [rendered |].
  destruct (String.eqb (event event_log) "Sow"); rendered.
Qed.

(** C7, where the code parts from it. Whenever the silo-conversion
    renderer returns, its string is not empty and ends with the link to
    the transaction, and it stops there: the blank-line marker that the
    two default renderers put behind the link is missing. *)
Theorem silo_conversion_str_lacks_marker (group : list (option EventLog))
    (event_str : string) :
  silo_conversion_str eth_chain group blockchain_client beanstalk_graph_client
  = Ok event_str ->
  event_str <> ""
  /\ (exists first,
        head group = Some (Some first)
        /\ endswith event_str (etherscan_link (transactionHash first)) = true)
  /\ endswith event_str blank_line_marker = false.
Proof.
  intros H. destruct (silo_conversion_str_shape group event_str H)
    as (body & first & Hfirst & ->).
  split; [| split].
  - rewrite etherscan_link_shape.
    destruct (body ++ nl ++ "<https://etherscan.io/tx/" ++ hex (transactionHash first));
      discriminate.
  - exists first. split; [exact Hfirst | apply endswith_app].
  - rewrite etherscan_link_shape. apply endswith_marker_after_link.
Qed.

(** X1. Every non-empty string that one of the two default renderers
    returns ends with the link to the transaction followed by the
    blank-line marker. *)
Lemma default_renderings_end_with_marker (event_log : EventLog) (event_str : string)
    (t : trace) :
  (default_pool_event_str eth_chain event_log blockchain_client = (Ok event_str, t)
   \/ default_beanstalk_event_str eth_chain (Some event_log) blockchain_client
        beanstalk_graph_client = (Ok event_str, t)) ->
  event_str <> "" ->
  endswith event_str (etherscan_link (transactionHash event_log) ++ blank_line_marker)
  = true.
Proof.
  intros H Hne.
  assert (Hshape : event_str = ""
                   \/ exists body,
                        event_str = (body ++ etherscan_link (transactionHash event_log))
                                    ++ blank_line_marker).
  { destruct H as [H | H];
      [apply (default_pool_event_str_shape _ _ _ H)
      | apply (default_beanstalk_event_str_shape _ _ _ H)]. }
  destruct Hshape as [-> | (body & ->)]; [congruence |].
  rewrite string_app_assoc. apply endswith_app.
Qed.

(** X2. The protocol renderer on the kinds it does not report, with
    the prices and a pool that holds LP known: a removal (BeanRemove,
    LPRemove) renders as the empty string and leaves no record; a kind
    it does not know renders as the empty string and leaves one
    warning. *)
Lemma default_beanstalk_event_str_suppressed (event_log : EventLog)
    (eth_price bean_price : Q) (stats : SeasonStats) :
  current_eth_and_bean_price blockchain_client = Ok (eth_price, bean_price) ->
  current_season_stats beanstalk_graph_client = Ok stats ->
  ~ lp stats == 0 ->
  (str_in (event event_log) ["BeanRemove"; "LPRemove"] = true ->
   default_beanstalk_event_str eth_chain (Some event_log) blockchain_client
     beanstalk_graph_client = (Ok "", []))
  /\ (str_in (event event_log)
        ["BeanRemove"; "LPRemove"; "LPDeposit"; "LPWithdraw"; "LPClaim";
         "BeanDeposit"; "BeanWithdraw"; "BeanClaim"; "Sow"] = false ->
      default_beanstalk_event_str eth_chain (Some event_log) blockchain_client
        beanstalk_graph_client
      = (Ok "", [Log WARNING ("Unexpected event log from Beanstalk contract ("
                              ++ str_of_log event_log ++ "). Ignoring.")])).
Proof.
  intros Hprice Hstats Hlp.
  apply Qeq_bool_false in Hlp.
  split; intros Hkind; unfold default_beanstalk_event_str;
    rewrite Hprice; cbn [lift bind attr];
    rewrite (lp_eq_values_client _ None None None _ _ Hstats), Hlp;
    cbn [lift bind].
  - rewrite Hkind. reflexivity.
  - unfold str_in in *. cbn [existsb] in *.
    repeat (apply orb_false_iff in Hkind;
            let E := fresh "E" in destruct Hkind as (E & Hkind); rewrite ?E).
    cbn [orb]. reflexivity.
Qed.

End RenderedEndings.

Lemma silo_conversion_str_lacks_marker_witness :
  exists event_str,
    silo_conversion_str sample_eth_chain
      [Some (lp_remove_log 2 2000000000000000000); Some (bean_deposit_log 3 4000000000)]
      (sample_blockchain_client "0x1f2a3b4c0000002a") sample_stats_client
    = Ok event_str
    /\ endswith event_str blank_line_marker = false.
Proof.
  destruct (silo_conversion_str sample_eth_chain
              [Some (lp_remove_log 2 2000000000000000000);
               Some (bean_deposit_log 3 4000000000)]
              (sample_blockchain_client "0x1f2a3b4c0000002a") sample_stats_client)
    as [event_str | e] eqn:E.
  - exists event_str. split; [reflexivity |].
    apply (silo_conversion_str_lacks_marker _ _ _ _ _ E).
  - vm_compute in E. discriminate E.
Defined.

Lemma default_renderings_end_with_marker_witness :
  exists event_str,
    fst (default_beanstalk_event_str sample_eth_chain
           (Some (bean_deposit_log 3 4000000000))
           (sample_blockchain_client "0x75ce258d0000002a") sample_stats_client)
    = Ok event_str
    /\ endswith event_str (etherscan_link sample_hash ++ blank_line_marker) = true.
Proof.
  destruct (default_beanstalk_event_str sample_eth_chain
              (Some (bean_deposit_log 3 4000000000))
              (sample_blockchain_client "0x75ce258d0000002a") sample_stats_client)
    as [[event_str | e] t] eqn:E.
  - exists event_str. split; [reflexivity |].
    apply (default_renderings_end_with_marker sample_eth_chain
             (sample_blockchain_client "0x75ce258d0000002a") sample_stats_client
             (bean_deposit_log 3 4000000000) event_str t).
    + right. exact E.
    + intros ->. vm_compute in E. discriminate E.
  - vm_compute in E. discriminate E.
Defined.

Lemma default_beanstalk_event_str_suppressed_witness :
  default_beanstalk_event_str sample_eth_chain
    (Some (lp_remove_log 2 2000000000000000000))
    (sample_blockchain_client "0x75ce258d0000002a") sample_stats_client
  = (Ok EmptyString, []).
Proof.
  destruct (default_beanstalk_event_str_suppressed sample_eth_chain
              (sample_blockchain_client "0x75ce258d0000002a") sample_stats_client
              (lp_remove_log 2 2000000000000000000) 4000 (101 # 100)
              {| pooledEth := 500; pooledBeans := 2000000; lp := 1000 |})
    as (Hremove & _).
  - reflexivity.
  - reflexivity.
  - discriminate.
  - apply Hremove. reflexivity.
Defined.

(* ================================================================== *)
(** * Method signatures                                                 *)
(* ================================================================== *)

Section Signatures.

Local Open Scope string_scope.

Lemma substring_prefix_twice (n : nat) :
  forall s, substring 0 n (substring 0 n s) = substring 0 n s.
Proof.
  induction n as [| n IH]; intros s.
  - destruct s; reflexivity.
  - destruct s as [| c s]; [reflexivity |].
    cbn [substring]. rewrite IH. reflexivity.
Qed.

Lemma substring_prefix_app (head tail : string) :
  substring 0 (String.length head) (head ++ tail) = head.
Proof.
  induction head as [| c head IH].
  - destruct tail; reflexivity.
  - cbn [String.length append substring]. rewrite IH. reflexivity.
Qed.

Lemma multi_sig_compare_iff (signature : string) (signatures : list string) :
  multi_sig_compare signature signatures = true
  <-> exists sig, In sig signatures
                  /\ prefix_slice 9 signature = prefix_slice 9 sig.
Proof.
  induction signatures as [| sig rest IH]; cbn [multi_sig_compare].
  - split; [discriminate | intros (sig & [] & _)].
  - destruct (String.eqb_spec (prefix_slice 9 signature) (prefix_slice 9 sig)) as [E | N].
    + split; [intros _; exists sig; split; [left; reflexivity | exact E] | reflexivity].
    + rewrite IH. split.
      * intros (sig' & Hin & E). exists sig'. split; [right; exact Hin | exact E].
      * intros (sig' & [<- | Hin] & E); [contradiction |].
        exists sig'. split; assumption.
Qed.

Lemma multi_sig_compare_same_prefix (a b : string) (signatures : list string) :
  prefix_slice 9 a = prefix_slice 9 b ->
  multi_sig_compare a signatures = multi_sig_compare b signatures.
Proof.
  intros E. induction signatures as [| sig rest IH]; [reflexivity |].
  cbn [multi_sig_compare]. rewrite E, IH. reflexivity.
Qed.

(** X3. [multi_sig_compare] answers [True] exactly when some signature
    of the list has the same first nine characters as the given one. It
    reads nothing else: slicing the signature to nine characters first,
    as the two handlers do, changes no answer, and two signatures with
    the same nine characters and different tenth ones are told apart by
    no list (the docstring speaks of ten characters). *)
Theorem multi_sig_compare_first_nine :
  (forall signature signatures,
     multi_sig_compare signature signatures = true
     <-> exists sig, In sig signatures
                     /\ prefix_slice 9 signature = prefix_slice 9 sig)
  /\ (forall signature signatures,
        multi_sig_compare (prefix_slice 9 signature) signatures
        = multi_sig_compare signature signatures)
  /\ (forall head tail tail' signatures,
        String.length head = 9%nat ->
        multi_sig_compare (head ++ tail) signatures
        = multi_sig_compare (head ++ tail') signatures)
  /\ (forall signature, multi_sig_compare signature [] = false).
Proof.
  split; [exact multi_sig_compare_iff |].
  split; [| split].
  - intros signature signatures. apply multi_sig_compare_same_prefix.
    apply substring_prefix_twice.
  - intros head tail tail' signatures Hlen. apply multi_sig_compare_same_prefix.
    unfold prefix_slice. rewrite <- Hlen, !substring_prefix_app. reflexivity.
  - reflexivity.
Qed.

Lemma multi_sig_compare_first_nine_witness :
  multi_sig_compare "0x1f2a3b4c5d" ["0x1f2a3b4cff"] = true.
Proof.
  destruct multi_sig_compare_first_nine as (Hiff & _).
  apply Hiff. exists "0x1f2a3b4cff". split; [left; reflexivity | reflexivity].
Defined.

End Signatures.

(* ================================================================== *)
(** * What the Telegram bot sends                                       *)
(* ================================================================== *)

Section Telegram.

Import TelegramBot.
Local Open Scope string_scope.

Lemma remove_char_gone (c : ascii) (s : string) : occurs c (remove_char c s) = false.
Proof.
  induction s as [| x s IH]; [reflexivity |].
  cbn [remove_char]. destruct (Ascii.eqb x c) eqn:E; [exact IH |].
  cbn [occurs]. rewrite E, IH. reflexivity.
Qed.

Lemma remove_char_keeps_absent (c d : ascii) (s : string) :
  occurs d s = false -> occurs d (remove_char c s) = false.
Proof.
  induction s as [| x s IH]; [reflexivity |].
  cbn [occurs remove_char]. intros H. apply orb_false_iff in H. destruct H as (Hx & Hs).
  destruct (Ascii.eqb x c); [auto |].
  cbn [occurs]. rewrite Hx. auto.
Qed.

Lemma remove_char_absent (c : ascii) (s : string) :
  occurs c s = false -> remove_char c s = s.
Proof.
  induction s as [| x s IH]; [reflexivity |].
  cbn [occurs remove_char]. intros H. apply orb_false_iff in H. destruct H as (Hx & Hs).
  rewrite Hx, (IH Hs). reflexivity.
Qed.

Lemma remove_char_app (c : ascii) (a b : string) :
  remove_char c (a ++ b) = remove_char c a ++ remove_char c b.
Proof.
  induction a as [| x a IH]; [reflexivity |].
  cbn [append remove_char]. destruct (Ascii.eqb x c); rewrite IH; reflexivity.
Qed.

(** X4. The text that [TelegramBot.send_msg] hands to Telegram holds no
    pointy bracket; it is the given text itself when that holds none;
    removing works piece by piece; and the message goes to the
    production chat exactly for a production bot, always with link
    previews disabled. *)
Theorem telegram_send_msg_strips_brackets :
  (forall prod message,
     occurs "<" (text (send_msg prod message)) = false
     /\ occurs ">" (text (send_msg prod message)) = false
     /\ disable_web_page_preview (send_msg prod message) = true
     /\ chat_id (send_msg prod message)
        = (if prod then TELE_CHAT_ID_PRODUCTION else TELE_CHAT_ID_STAGING))
  /\ (forall prod message,
        occurs "<" message = false -> occurs ">" message = false ->
        text (send_msg prod message) = message)
  /\ (forall prod a b,
        text (send_msg prod (a ++ b))
        = text (send_msg prod a) ++ text (send_msg prod b))
  /\ (forall prod message,
        text (send_msg prod (text (send_msg prod message)))
        = text (send_msg prod message)).
Proof.
  split; [| split; [| split]].
  - intros prod message. cbn [send_msg text disable_web_page_preview chat_id].
    split; [| split; [| split]]; try reflexivity.
    + apply remove_char_keeps_absent. apply remove_char_gone.
    + apply remove_char_gone.
  - intros prod message Hlt Hgt. cbn [send_msg text].
    rewrite (remove_char_absent "<" message Hlt). apply remove_char_absent. exact Hgt.
  - intros prod a b. cbn [send_msg text]. rewrite !remove_char_app. reflexivity.
  - intros prod message. cbn [send_msg text].
    rewrite (remove_char_absent "<"
               (remove_char ">" (remove_char "<" message))).
    + apply remove_char_absent. apply remove_char_gone.
    + apply remove_char_keeps_absent. apply remove_char_gone.
Qed.

Lemma telegram_send_msg_strips_brackets_witness :
  text (send_msg true "Peg not crossed.") = "Peg not crossed.".
Proof.
  destruct telegram_send_msg_strips_brackets as (_ & Hid & _).
  apply Hid; reflexivity.
Defined.

End Telegram.

Section TelegramRenderings.

Import TelegramBot.
Local Open Scope string_scope.

Variable eth_chain : EthChain.
Variable blockchain_client : BlockchainClient.
Variable beanstalk_graph_client : BeanstalkSqlClient.

Lemma hex_digit_plain (n : N) :
  Ascii.eqb (hex_digit n) "<" = false /\ Ascii.eqb (hex_digit n) ">" = false.
Proof.
  destruct n as [| p]; [split; reflexivity |].
  destruct p as [p | p |]; try (split; reflexivity);
    destruct p as [p | p |]; try (split; reflexivity);
    destruct p as [p | p |]; try (split; reflexivity);
    destruct p as [p | p |]; split; reflexivity.
Qed.

Lemma hex_body_plain (bytes : string) :
  occurs "<" (hex_body bytes) = false /\ occurs ">" (hex_body bytes) = false.
Proof.
  induction bytes as [| c bytes (IH1 & IH2)]; [split; reflexivity |].
  cbn [hex_body occurs].
  destruct (hex_digit_plain (N_of_ascii c / 16)) as (A1 & A2).
  destruct (hex_digit_plain (N_of_ascii c mod 16)) as (B1 & B2).
  rewrite A1, A2, B1, B2, IH1, IH2. split; reflexivity.
Qed.

(** The link as Telegram gets it: the address without its brackets. *)
Lemma telegram_link (prod : bool) (txn_hash : string) :
  text (send_msg prod (etherscan_link txn_hash))
  = nl ++ "https://etherscan.io/tx/" ++ hex txn_hash.
Proof.
  cbn [send_msg text]. unfold etherscan_link, hex.
  destruct (hex_body_plain txn_hash) as (H1 & H2).
  rewrite !remove_char_app.
  rewrite (remove_char_absent "<" (hex_body txn_hash) H1).
  rewrite (remove_char_absent ">" (hex_body txn_hash) H2).
  clear H1 H2. generalize (hex_body txn_hash). intros digits.
  cbn. rewrite string_app_empty. reflexivity.
Qed.

(** X5. What Telegram gets of a non-empty string of one of the two
    default renderers ends with the address of the transaction, bare of
    its pointy brackets, and the blank-line marker; what it gets of the
    string of a silo conversion ends with the bare address. *)
Theorem telegram_text_ends_with_bare_link (prod : bool) :
  (forall event_log event_str t,
     (default_pool_event_str eth_chain event_log blockchain_client = (Ok event_str, t)
      \/ default_beanstalk_event_str eth_chain (Some event_log) blockchain_client
           beanstalk_graph_client = (Ok event_str, t)) ->
     event_str <> "" ->
     endswith (text (send_msg prod event_str))
       (nl ++ "https://etherscan.io/tx/" ++ hex (transactionHash event_log)
        ++ nl ++ "_ _") = true)
  /\ (forall group event_str,
        silo_conversion_str eth_chain group blockchain_client beanstalk_graph_client
        = Ok event_str ->
        exists first,
          head group = Some (Some first)
          /\ endswith (text (send_msg prod event_str))
               (nl ++ "https://etherscan.io/tx/" ++ hex (transactionHash first)) = true).
Proof.
  destruct telegram_send_msg_strips_brackets as (_ & _ & Happ & _).
  split.
  - intros event_log event_str t H Hne.
    assert (Hshape : event_str = ""
                     \/ exists body,
                          event_str = (body ++ etherscan_link (transactionHash event_log))
                                      ++ blank_line_marker).
    { destruct H as [H | H];
        [apply (default_pool_event_str_shape _ _ _ _ _ H)
        | apply (default_beanstalk_event_str_shape _ _ _ _ _ _ H)]. }
    destruct Hshape as [-> | (body & ->)]; [congruence |].
    rewrite !Happ, telegram_link.
    change (text (send_msg prod blank_line_marker)) with (nl ++ "_ _").
    rewrite (string_app_assoc (text (send_msg prod body))).
    replace ((nl ++ "https://etherscan.io/tx/" ++ hex (transactionHash event_log))
             ++ nl ++ "_ _")
      with (nl ++ "https://etherscan.io/tx/" ++ hex (transactionHash event_log)
            ++ nl ++ "_ _")
      by (rewrite !string_app_assoc; reflexivity).
    apply endswith_app.
  - intros group event_str H.
    destruct (silo_conversion_str_shape _ _ _ _ _ H) as (body & first & Hfirst & ->).
    exists first. split; [exact Hfirst |].
    rewrite Happ, telegram_link. apply endswith_app.
Qed.

End TelegramRenderings.

Lemma telegram_text_ends_with_bare_link_witness :
  endswith
    (TelegramBot.text
       (TelegramBot.send_msg false
          (nl ++ "<https://etherscan.io/tx/0xab01>" ++ nl ++ "_ _")))
    (nl ++ "https://etherscan.io/tx/" ++ hex sample_hash ++ nl ++ "_ _") = true.
Proof.
  destruct (telegram_text_ends_with_bare_link sample_eth_chain
              (sample_blockchain_client "0xa9059cbb") sample_stats_client false)
    as (Hdefault & _).
  apply (Hdefault (sync_log 4) _ []).
  - left. reflexivity.
  - discriminate.
Defined.

(* ================================================================== *)
(** * What the handlers push                                            *)
(* ================================================================== *)

Section MonadFacts.

Lemma bind_fst {A B : Type} (m : M A) (k : A -> M B) :
  fst (bind m k)
  = match fst m with Ok a => fst (k a) | Raise e => Raise e end.
Proof. destruct m as [[a | e] t]; cbn [bind fst]; [destruct (k a) |]; reflexivity. Qed.

Lemma bind_snd {A B : Type} (m : M A) (k : A -> M B) :
  snd (bind m k)
  = match fst m with Ok a => (snd m ++ snd (k a))%list | Raise _ => snd m end.
Proof. destruct m as [[a | e] t]; cbn [bind fst snd]; [destruct (k a) |]; reflexivity. Qed.

Lemma logged_app (t1 t2 : trace) : logged (t1 ++ t2) = (logged t1 ++ logged t2)%list.
Proof.
  induction t1 as [| e t1 IH]; [reflexivity |].
  destruct e; cbn [app logged]; rewrite IH; reflexivity.
Qed.

(** A loop that went through ran its body on every item, and left the
    traces of these runs one after the other. *)
Lemma for_each_ok {A : Type} (body : A -> M unit) (xs : list A) :
  fst (for_each xs body) = Ok tt ->
  Forall (fun x => fst (body x) = Ok tt) xs
  /\ snd (for_each xs body) = flat_map (fun x => snd (body x)) xs.
Proof.
  induction xs as [| x xs IH]; cbn [for_each flat_map].
  - intros _. split; [constructor | reflexivity].
  - rewrite bind_fst, bind_snd.
    destruct (fst (body x)) as [[] | e] eqn:E; [| discriminate].
    intros H. destruct (IH H) as (Hall & Hsnd).
    split; [constructor; assumption | rewrite Hsnd; reflexivity].
Qed.

(** Whatever a loop leaves, finished or not, its body left. *)
Lemma for_each_trace {A : Type} (P : effect -> Prop) (body : A -> M unit) (xs : list A) :
  (forall x, Forall P (snd (body x))) ->
  Forall P (snd (for_each xs body)).
Proof.
  intros Hbody. induction xs as [| x xs IH]; cbn [for_each]; [constructor |].
  rewrite bind_snd. destruct (fst (body x)); [| apply Hbody].
  apply Forall_app. split; [apply Hbody | exact IH].
Qed.

End MonadFacts.

Section PoolHandler.

Variable eth_chain : EthChain.
Variable blockchain_client : BlockchainClient.

Local Open Scope string_scope.

Abbreviation pool_handle := (PoolMonitor._handle_txn_logs eth_chain blockchain_client).
Abbreviation pool_render :=
  (fun event_log => default_pool_event_str eth_chain event_log blockchain_client).
Abbreviation pool_body :=
  (fun event_log =>
     bind (pool_render event_log)
       (fun event_str =>
          match event_str with
          | EmptyString => ret tt
          | _ => send event_str
          end)).

(** The pool renderer sends nothing itself, and logs at most one record,
    a critical one. *)
Lemma pool_render_trace (event_log : EventLog) :
  snd (pool_render event_log) = []
  \/ snd (pool_render event_log) = [Log CRITICAL "Unexpected Swap args detected."].
Proof.
  unfold default_pool_event_str.
  destruct (current_eth_and_bean_price blockchain_client) as [[eth_price bean_price] | e];
    cbn [lift bind]; [| left; reflexivity].
  destruct (str_in (event event_log) ["Mint"; "Burn"]); [left; reflexivity |].
  destruct (String.eqb (event event_log) "Swap"); [| left; reflexivity].
  destruct (Qltb 0 (eth_to_float eth_chain (args_get (args event_log) "amount0In"))).
  - destruct (avg_swap_price _ _ _ _); left; reflexivity.
  - destruct (Qltb 0 (bean_to_float eth_chain (args_get (args event_log) "amount1In"))).
    + destruct (avg_swap_price _ _ _ _); left; reflexivity.
    + right. reflexivity.
Qed.

Lemma pool_body_trace (event_log : EventLog) :
  sent (snd (pool_body event_log))
  = (if nonempty (pool_text eth_chain blockchain_client event_log)
     then [pool_text eth_chain blockchain_client event_log] else [])
  /\ filter is_warning (logged (snd (pool_body event_log))) = [].
Proof.
  unfold pool_text. rewrite bind_snd.
  destruct (pool_render_trace event_log) as [Ht | Ht]; rewrite Ht;
    destruct (fst (pool_render event_log)) as [[| c s] | e];
    split; reflexivity.
Qed.

Lemma pool_loop_trace (event_logs : list EventLog) :
  Forall (fun s => s <> "") (sent (snd (for_each event_logs pool_body)))
  /\ filter is_warning (logged (snd (for_each event_logs pool_body))) = [].
Proof.
  induction event_logs as [| l event_logs (IH1 & IH2)]; cbn [for_each].
  - split; [constructor | reflexivity].
  - rewrite bind_snd. destruct (pool_body_trace l) as (Hs & Hw).
    assert (Hne : Forall (fun s => s <> "") (sent (snd (pool_body l)))).
    { rewrite Hs. destruct (pool_text eth_chain blockchain_client l);
        cbn [nonempty]; repeat constructor. discriminate. }
    destruct (fst (pool_body l)); [| split; assumption].
    rewrite sent_app, logged_app, filter_app, Hw, IH2.
    split; [apply Forall_app; split; assumption | reflexivity].
Qed.

Lemma pool_loop_sent (event_logs : list EventLog) :
  Forall (fun l => is_ok (fst (pool_render l)) = true) event_logs ->
  fst (for_each event_logs pool_body) = Ok tt
  /\ sent (snd (for_each event_logs pool_body))
     = filter nonempty (map (pool_text eth_chain blockchain_client) event_logs).
Proof.
  induction 1 as [| l event_logs Hl Hall (IH1 & IH2)]; cbn [for_each map filter].
  - split; reflexivity.
  - rewrite bind_fst, bind_snd. destruct (pool_body_trace l) as (Hs & _).
    assert (Hok : fst (pool_body l) = Ok tt).
    { rewrite bind_fst. destruct (fst (pool_render l)) as [[| c s] | e];
        [reflexivity | reflexivity | discriminate]. }
    rewrite Hok, sent_app, Hs, IH2. split; [exact IH1 |].
    destruct (nonempty (pool_text eth_chain blockchain_client l)); reflexivity.
Qed.

(** X6. The pool monitor's handler. A transaction whose method is a
    silo conversion is skipped: nothing is rendered, logged or pushed.
    Otherwise every log is rendered in turn and each non-empty string is
    pushed, in the order of the logs; an empty message is never pushed,
    whether or not the handler gets through; and the warning about
    several swaps in one transaction is logged exactly when the group
    holds more than one log, whatever their kinds. *)
Theorem pool_handler_pushes_renderings (txn_hash : string) (event_logs : list EventLog)
    (txn : Transaction) :
  get_transaction blockchain_client txn_hash = Ok txn ->
  (multi_sig_compare (prefix_slice 9 (input txn)) (silo_conversion_sigs eth_chain) = true ->
   pool_handle txn_hash event_logs = (Ok tt, []))
  /\ Forall (fun s => s <> "") (sent (snd (pool_handle txn_hash event_logs)))
  /\ (multi_sig_compare (prefix_slice 9 (input txn)) (silo_conversion_sigs eth_chain) = false ->
      filter is_warning (logged (snd (pool_handle txn_hash event_logs)))
      = (if (1 <? length event_logs)%nat
         then [(WARNING, "Multiple swaps of interest seen in a single txn ("
                         ++ str_of_logs event_logs ++ ").")]
         else [])
      /\ (Forall (fun l => is_ok (fst (pool_render l)) = true) event_logs ->
          fst (pool_handle txn_hash event_logs) = Ok tt
          /\ sent (snd (pool_handle txn_hash event_logs))
             = filter nonempty (map (pool_text eth_chain blockchain_client) event_logs))).
Proof.
  intros Hget.
  destruct (pool_loop_trace event_logs) as (Hne & Hwarn).
  unfold PoolMonitor._handle_txn_logs. rewrite Hget. cbn [lift bind].
  destruct (multi_sig_compare (prefix_slice 9 (input txn))
              (silo_conversion_sigs eth_chain)).
  - split; [reflexivity |]. split; [constructor | discriminate].
  - split; [discriminate |].
    destruct (1 <? length event_logs)%nat; cbn [log ret bind];
      destruct (for_each event_logs _) as [r t] eqn:E; cbn [fst snd app] in *.
    + split; [exact Hne |]. intros _. cbn [logged filter is_warning fst].
      rewrite Hwarn. split; [reflexivity |].
      intros Hall. destruct (pool_loop_sent event_logs Hall) as (H1 & H2).
      rewrite E in H1, H2. cbn [fst snd] in H1, H2. subst r.
      split; [reflexivity | exact H2].
    + split; [exact Hne |]. intros _. rewrite Hwarn. split; [reflexivity |].
      intros Hall. destruct (pool_loop_sent event_logs Hall) as (H1 & H2).
      rewrite E in H1, H2. cbn [fst snd] in H1, H2. subst r.
      split; [reflexivity | exact H2].
Qed.

End PoolHandler.

Lemma pool_handler_pushes_renderings_witness :
  Forall (fun s => s <> EmptyString)
    (sent (snd (PoolMonitor._handle_txn_logs sample_eth_chain
                  (sample_blockchain_client "0xa9059cbb") sample_hash
                  [sync_log 4; sync_log 5]))).
Proof.
  destruct (pool_handler_pushes_renderings sample_eth_chain
              (sample_blockchain_client "0xa9059cbb") sample_hash
              [sync_log 4; sync_log 5] {| input := "0xa9059cbb" |} eq_refl)
    as (_ & Hne & _).
  exact Hne.
Defined.

Section BeanstalkHandler.

Import BeanstalkMonitor.

Variable eth_chain : EthChain.
Variable blockchain_client : BlockchainClient.
Variable beanstalk_graph_client : BeanstalkSqlClient.

Local Open Scope string_scope.

Abbreviation stalk_handle :=
  (_handle_txn_logs eth_chain blockchain_client beanstalk_graph_client).
Abbreviation stalk_render :=
  (fun event_log =>
     default_beanstalk_event_str eth_chain event_log blockchain_client
       beanstalk_graph_client).
Abbreviation stalk_body :=
  (fun event_log => bind (stalk_render event_log) (fun event_str => send event_str)).
Abbreviation kept := (filter (fun x => negb (is_bean_deposit x))).

(** The protocol renderer pushes nothing itself. *)
Lemma stalk_render_sends_nothing (event_log : option EventLog) :
  sent (snd (stalk_render event_log)) = [].
Proof.
  unfold default_beanstalk_event_str.
  destruct (current_eth_and_bean_price blockchain_client) as [[eth_price bean_price] | e];
    cbn [lift bind]; [| reflexivity].
  destruct event_log as [event_log |]; cbn [attr lift bind]; [| reflexivity].
  destruct (lp_eq_values _ None None None _) as [[lp_eth lp_beans] | e];
    cbn [lift bind]; [| reflexivity].
  destruct (str_in (event event_log) ["BeanRemove"; "LPRemove"]); [reflexivity |].
  destruct (str_in (event event_log) ["LPDeposit"; "LPWithdraw"; "LPClaim"]);
    [reflexivity |].
  destruct (str_in (event event_log) ["BeanDeposit"; "BeanWithdraw"; "BeanClaim"]);
    [reflexivity |].
  destruct (String.eqb (event event_log) "Sow"); reflexivity.
Qed.

(** A removal that renders renders as the empty string. *)
Lemma stalk_render_removal (event_log : EventLog) (event_str : string) :
  str_in (event event_log) ["BeanRemove"; "LPRemove"] = true ->
  fst (stalk_render (Some event_log)) = Ok event_str ->
  event_str = "".
Proof.
  intros Hkind. unfold default_beanstalk_event_str.
  destruct (current_eth_and_bean_price blockchain_client) as [[eth_price bean_price] | e];
    cbn [lift bind attr]; [| discriminate].
  destruct (lp_eq_values _ None None None _) as [[lp_eth lp_beans] | e];
    cbn [lift bind]; [| discriminate].
  rewrite Hkind. cbn [ret fst]. intros H. inversion H. reflexivity.
Qed.

(** A log that goes through the default classification leaves exactly
    one message, the string it rendered as. *)
Lemma stalk_body_one_message (event_log : option EventLog) :
  fst (stalk_body event_log) = Ok tt ->
  exists event_str,
    fst (stalk_render event_log) = Ok event_str
    /\ sent (snd (stalk_body event_log)) = [event_str].
Proof.
  cbv beta. rewrite bind_fst, bind_snd.
  pose proof (stalk_render_sends_nothing event_log) as Hs. cbv beta in Hs.
  destruct (fst (default_beanstalk_event_str eth_chain event_log blockchain_client
                   beanstalk_graph_client)) as [event_str | e]; [| discriminate].
  intros _. exists event_str. split; [reflexivity |].
  rewrite sent_app, Hs. reflexivity.
Qed.

Lemma stalk_loop_messages (group : list (option EventLog)) :
  fst (for_each group stalk_body) = Ok tt ->
  length (sent (snd (for_each group stalk_body))) = length group
  /\ (forall event_log,
        In (Some event_log) group ->
        str_in (event event_log) ["BeanRemove"; "LPRemove"] = true ->
        In "" (sent (snd (for_each group stalk_body)))).
Proof.
  intros Hok. destruct (for_each_ok _ group Hok) as (Hall & Hsnd).
  rewrite Hsnd. clear Hsnd Hok.
  induction Hall as [| x group Hx Hall (IH1 & IH2)]; cbn [flat_map length].
  - split; [reflexivity | intros ? []].
  - destruct (stalk_body_one_message x Hx) as (event_str & Hr & Hs).
    rewrite sent_app, Hs. cbn [app length]. split; [rewrite IH1; reflexivity |].
    intros event_log [-> | Hin] Hkind.
    + left. apply (stalk_render_removal event_log event_str Hkind Hr).
    + right. apply (IH2 event_log Hin Hkind).
Qed.

(** The handler on a transaction whose method is no silo conversion. *)
Lemma stalk_handle_default (txn_hash : string) (event_logs : list EventLog)
    (txn : Transaction) :
  get_transaction blockchain_client txn_hash = Ok txn ->
  multi_sig_compare (prefix_slice 9 (input txn)) (silo_conversion_sigs eth_chain) = false ->
  stalk_handle txn_hash event_logs
  = if multi_sig_compare (prefix_slice 9 (input txn)) (bean_deposit_sigs eth_chain)
    then bind (log INFO ("Bean deposit txn seen (" ++ hex txn_hash ++ ")."))
           (fun _ =>
              for_each (map Some (kept event_logs)
                        ++ [fold_left later_deposit
                              (filter is_bean_deposit event_logs) None])
                stalk_body)
    else for_each (map Some (kept event_logs)) stalk_body.
Proof.
  intros Hget Hsilo. unfold _handle_txn_logs. rewrite Hget. cbn [lift bind].
  rewrite scan_bean_deposits_spec. cbn [app].
  rewrite remove_each_deposits. cbn [bind]. rewrite Hsilo.
  destruct (multi_sig_compare (prefix_slice 9 (input txn)) (bean_deposit_sigs eth_chain));
    cbn [log ret bind].
  - destruct (for_each _ _) as [r t]. reflexivity.
  - destruct (for_each _ _) as [r t]. reflexivity.
Qed.

Lemma kept_kept (event_logs : list EventLog) :
  filter is_bean_deposit (kept event_logs) = []
  /\ kept (kept event_logs) = kept event_logs.
Proof.
  apply no_deposit_filter. intros l Hl. apply filter_In in Hl.
  destruct Hl as (_ & Hl). destruct (is_bean_deposit l); [discriminate | reflexivity].
Qed.

(** X7. The protocol monitor's handler on a transaction whose method is
    no silo conversion, once the transaction is fetched. When the method
    is no bean deposit either, the BeanDeposit logs of the group go
    unseen: the handler does what it does on the group without them.
    When the handler gets through it has pushed one message for every
    other log, and one more for the retained deposit under a
    bean-deposit signature; the messages of the logs it does not report
    are among them, as empty strings. *)
Theorem beanstalk_handler_pushes_one_message_per_log (txn_hash : string)
    (event_logs : list EventLog) (txn : Transaction) :
  get_transaction blockchain_client txn_hash = Ok txn ->
  multi_sig_compare (prefix_slice 9 (input txn)) (silo_conversion_sigs eth_chain) = false ->
  (multi_sig_compare (prefix_slice 9 (input txn)) (bean_deposit_sigs eth_chain) = false ->
   stalk_handle txn_hash event_logs = stalk_handle txn_hash (kept event_logs))
  /\ (fst (stalk_handle txn_hash event_logs) = Ok tt ->
      length (sent (snd (stalk_handle txn_hash event_logs)))
      = (length (kept event_logs)
         + if multi_sig_compare (prefix_slice 9 (input txn)) (bean_deposit_sigs eth_chain)
           then 1 else 0)%nat
      /\ (forall event_log,
            In event_log event_logs ->
            str_in (event event_log) ["BeanRemove"; "LPRemove"] = true ->
            In "" (sent (snd (stalk_handle txn_hash event_logs))))).
Proof.
  intros Hget Hsilo. split.
  - intros Hdep. rewrite !(stalk_handle_default _ _ txn Hget Hsilo), Hdep.
    destruct (kept_kept event_logs) as (_ & ->). reflexivity.
  - rewrite (stalk_handle_default _ _ txn Hget Hsilo).
    assert (Hkept : forall event_log,
              In event_log event_logs ->
              str_in (event event_log) ["BeanRemove"; "LPRemove"] = true ->
              In event_log (kept event_logs)).
    { intros l Hin Hkind. apply filter_In. split; [exact Hin |].
      unfold is_bean_deposit. unfold str_in in Hkind. cbn [existsb] in Hkind.
      destruct (String.eqb_spec (event l) "BeanRemove") as [E | _];
        [rewrite E; reflexivity |].
      destruct (String.eqb_spec (event l) "LPRemove") as [E | _];
        [rewrite E; reflexivity | discriminate]. }
    destruct (multi_sig_compare (prefix_slice 9 (input txn)) (bean_deposit_sigs eth_chain)).
    + rewrite bind_fst, bind_snd. cbn [log fst snd]. intros Hok.
      destruct (stalk_loop_messages _ Hok) as (Hlen & Hempty).
      cbn [app sent]. rewrite Hlen, length_app, length_map. cbn [length].
      split; [reflexivity |].
      intros l Hin Hkind. apply (Hempty l); [| exact Hkind].
      apply in_or_app. left. apply in_map. apply Hkept; assumption.
    + intros Hok. destruct (stalk_loop_messages _ Hok) as (Hlen & Hempty).
      rewrite Hlen, length_map. split; [lia |].
      intros l Hin Hkind. apply (Hempty l); [| exact Hkind].
      apply in_map. apply Hkept; assumption.
Qed.

End BeanstalkHandler.

Lemma beanstalk_handler_pushes_one_message_per_log_witness :
  length (sent (snd (BeanstalkMonitor._handle_txn_logs sample_eth_chain
                       (sample_blockchain_client "0xa9059cbb0000002a") sample_stats_client
                       sample_hash sample_conversion))) = 1%nat
  /\ In EmptyString
       (sent (snd (BeanstalkMonitor._handle_txn_logs sample_eth_chain
                     (sample_blockchain_client "0xa9059cbb0000002a") sample_stats_client
                     sample_hash sample_conversion))).
Proof.
  destruct (beanstalk_handler_pushes_one_message_per_log sample_eth_chain
              (sample_blockchain_client "0xa9059cbb0000002a") sample_stats_client
              sample_hash sample_conversion {| input := "0xa9059cbb0000002a" |}
              eq_refl eq_refl) as (_ & Hok).
  destruct Hok as (Hlen & Hempty); [reflexivity |].
  split.
  - exact Hlen.
  - apply (Hempty (lp_remove_log 2 2000000000000000000)).
    + right. left. reflexivity.
    + reflexivity.
Defined.


(* ================================================================= *)
(** * How many symbols the tiering returns *)

Section EmojiCounts.

Local Open Scope Z_scope.

Lemma int_of_float_negative (value : Q) :
  int_of_float value < 0 <-> (value <= -1)%Q.
Proof.
  destruct value as [a b]. unfold int_of_float, Qle. cbn [Qnum Qden].
  destruct (Z.lt_ge_cases a 0) as [Ha | Ha].
  - replace a with (- (- a)) at 1 by lia.
    rewrite Z.quot_opp_l by lia.
    rewrite Z.quot_div_nonneg by lia.
    pose proof (Z.div_small_iff (- a) (Z.pos b) ltac:(lia)) as Hs.
    pose proof (Z.div_pos (- a) (Z.pos b) ltac:(lia) ltac:(lia)) as Hp.
    split; intros H.
    + destruct (Z.lt_ge_cases (- a) (Z.pos b)) as [Hlt | Hge]; [| lia].
      assert (- a / Z.pos b = 0) by (apply Hs; lia). lia.
    + assert (- a / Z.pos b <> 0) by (intros E; apply Hs in E; lia). lia.
  - pose proof (Z.quot_pos a (Z.pos b) Ha ltac:(lia)) as Hq. split; intros H; lia.
Qed.

Lemma repeat_string_nonempty (a : ascii) (s : string) (n : Z) :
  1 <= n -> str_mul (String a s) n <> EmptyString.
Proof.
  intros Hn. unfold str_mul.
  destruct (Z.to_nat n) as [| m] eqn:E; [lia |].
  cbn [repeat_string append]. discriminate.
Qed.

Lemma nearest_nonneg (q v r : Z) :
  0 < q -> 0 <= v -> nearest_multiple q v r -> 0 <= r.
Proof.
  intros Hq Hv ((c & ->) & Hd).
  destruct (Z.lt_ge_cases c 0) as [Hc | Hc]; [nia | nia].
Qed.

Lemma nearest_at_least (q v r : Z) :
  0 < q -> q <= v -> nearest_multiple q v r -> q <= r.
Proof.
  intros Hq Hv ((c & ->) & Hd).
  destruct (Z.lt_ge_cases c 1) as [Hc | Hc]; [nia | nia].
Qed.

Lemma value_to_emojis_count (v : Z) :
  0 <= v ->
  exists n,
    1 <= n
    /\ (value_to_emojis (inject_Z v) = str_mul fish n /\ n <= 9
        \/ value_to_emojis (inject_Z v) = str_mul shark n /\ n <= 9
        \/ value_to_emojis (inject_Z v) = str_mul whale n).
Proof.
  intros Hv.
  destruct (value_to_emojis_cases v) as (_ & T1 & T2 & T3). cbv zeta in T1, T2, T3.
  pose proof (round_int_nearest 3 ltac:(lia) v) as N3.
  pose proof (round_int_nearest 4 ltac:(lia) (round_int v (-3))) as N4.
  pose proof (round_int_nearest 5 ltac:(lia) (round_int (round_int v (-3)) (-4))) as N5.
  change (- (3)) with (-3) in *. change (- (4)) with (-4) in *.
  change (- (5)) with (-5) in *.
  change (10 ^ 3) with 1000 in *. change (10 ^ 4) with 10000 in *.
  change (10 ^ 5) with 100000 in *.
  set (r := round_int v (-3)) in *.
  set (r' := round_int r (-4)) in *.
  set (r'' := round_int r' (-5)) in *.
  destruct (Z.lt_ge_cases r 10000) as [H1 | H1].
  - exists (Z.max 1 (r / 1000)). split; [lia |]. left. split; [apply T1; assumption |].
    assert (r / 1000 < 10) by (apply Z.div_lt_upper_bound; lia). lia.
  - pose proof (nearest_at_least 10000 r r' ltac:(lia) H1 N4) as H4.
    destruct (Z.lt_ge_cases r' 100000) as [H2 | H2].
    + exists (r' / 10000). split; [apply Z.div_le_lower_bound; lia |].
      right. left. split; [apply T2; assumption |].
      assert (r' / 10000 < 10) by (apply Z.div_lt_upper_bound; lia). lia.
    + pose proof (nearest_at_least 100000 r' r'' ltac:(lia) H2 N5) as H5.
      exists (r'' / 100000). split; [apply Z.div_le_lower_bound; lia |].
      right. right. apply T3; assumption.
Qed.

(** X8. The tiering reads its argument through [int(...)], which drops
    the fraction towards zero: it returns the empty string exactly for
    the values at or below [-1], so a value strictly between [-1] and [0]
    is shown as one fish. Every other value is shown as between one and
    nine fish, between one and nine sharks, or at least one whale; the
    whales are not capped, a value of [n] hundred thousands is shown as
    [n] of them. *)
Theorem value_to_emojis_symbol_counts :
  (forall value : Q,
     value_to_emojis value = value_to_emojis (inject_Z (int_of_float value)))
  /\ (forall value : Q, value_to_emojis value = EmptyString <-> (value <= -1)%Q)
  /\ (forall value : Q,
        (-1 < value)%Q ->
        exists n,
          1 <= n
          /\ (value_to_emojis value = str_mul fish n /\ n <= 9
              \/ value_to_emojis value = str_mul shark n /\ n <= 9
              \/ value_to_emojis value = str_mul whale n))
  /\ (forall n, 1 <= n -> value_to_emojis (inject_Z (100000 * n)) = str_mul whale n).
Proof.
  assert (Htrunc : forall value : Q,
            value_to_emojis value = value_to_emojis (inject_Z (int_of_float value))).
  { intros value. unfold value_to_emojis. rewrite int_of_float_inject_Z. reflexivity. }
  assert (Hcount : forall value : Q,
            (-1 < value)%Q ->
            exists n,
              1 <= n
              /\ (value_to_emojis value = str_mul fish n /\ n <= 9
                  \/ value_to_emojis value = str_mul shark n /\ n <= 9
                  \/ value_to_emojis value = str_mul whale n)).
  { intros value Hv. rewrite Htrunc. apply value_to_emojis_count.
    destruct (Z.lt_ge_cases (int_of_float value) 0) as [Hneg | Hpos]; [| exact Hpos].
    apply int_of_float_negative in Hneg.
    exfalso. apply (Qlt_not_le _ _ Hv Hneg). }
  split; [exact Htrunc |]. split; [| split; [exact Hcount |]].
  - intros value. split.
    + intros Hempty. destruct (Qlt_le_dec (-1) value) as [Hv | Hv]; [| exact Hv].
      exfalso. destruct (Hcount value Hv) as (n & Hn & [(E & _) | [(E & _) | E]]);
        rewrite Hempty in E; symmetry in E; revert E;
        apply repeat_string_nonempty; exact Hn.
    + intros Hv. apply int_of_float_negative in Hv.
      rewrite Htrunc.
      destruct (value_to_emojis_cases (int_of_float value)) as (T0 & _).
      apply T0. exact Hv.
  - intros n Hn.
    destruct (value_to_emojis_cases (100000 * n)) as (_ & _ & _ & T3). cbv zeta in T3.
    assert (R3 : round_int (100000 * n) (-3) = 100000 * n)
      by (replace (100000 * n) with (1000 * (100 * n)) by lia; apply round3_fixed).
    assert (R4 : round_int (100000 * n) (-4) = 100000 * n)
      by (replace (100000 * n) with (10000 * (10 * n)) by lia; apply round4_fixed).
    pose proof (round5_fixed n) as R5.
    rewrite R3, R4, R5 in T3.
    replace (100000 * n / 100000) with n in T3
      by (rewrite Z.mul_comm, Z.div_mul; lia).
    apply T3; lia.
Qed.

Lemma value_to_emojis_symbol_counts_witness :
  value_to_emojis (- (1 # 2)) = fish
  /\ value_to_emojis (-1) = EmptyString
  /\ value_to_emojis (inject_Z (100000 * 12)) = str_mul whale 12.
Proof.
  destruct value_to_emojis_symbol_counts as (Htrunc & Hempty & _ & Hwhales).
  split; [| split].
  - rewrite Htrunc. reflexivity.
  - apply Hempty. discriminate.
  - apply Hwhales. lia.
Defined.

End EmojiCounts.


(* ================================================================= *)
(** * The peg monitor against any source *)

Section PegInvariants.

Import PegCrossMonitor.
Local Open Scope Z_scope.

Lemma reports_are_announcements (l : list Cross) :
  Forall cross_announcement (map report l).
Proof.
  induction l as [| c l IH]; [constructor |].
  constructor; [| exact IH].
  unfold report, classify, cross_announcement. destruct (above c); [left | right]; reflexivity.
Qed.

(** What one turn does, whatever the source answers. *)
Lemma turn_any (client : BeanSqlClient) (cursor : option Cross) :
  exists r t,
    monitor_turn client cursor = (r, t)
    /\ Forall cross_announcement (sent t)
    /\ (forall known, cursor = Some known ->
        match r with
        | Ok c => cursor_at_least (timestamp known) c
        | Raise _ => True
        end).
Proof.
  destruct (last_cross client) as [latest | e] eqn:Hl.
  - destruct cursor as [known |].
    + destruct (Z.le_gt_cases (timestamp latest) (timestamp known)) as [Hts | Hts].
      * rewrite (turn_not_newer client known latest Hl Hts).
        exists (Ok (Some known)), []. split; [reflexivity |]. split; [constructor |].
        intros k [= <-]. exists known. split; [reflexivity | lia].
      * destruct (Z.lt_ge_cases 1 (id latest - id known)) as [Hd | Hd].
        -- destruct (get_last_crosses client (id latest - id known)) as [l | e] eqn:Hg.
           ++ destruct (turn_newer_many client known latest l Hl ltac:(lia) Hd Hg)
                as (t & E & _ & Hs).
              exists (Ok (Some latest)), t. split; [exact E |].
              split; [rewrite Hs; apply reports_are_announcements |].
              intros k [= <-]. exists latest. split; [reflexivity | lia].
           ++ exists (Raise e), [GetLastCrosses (id latest - id known)].
              split; [| split; [constructor | intros; exact I]].
              unfold monitor_turn, _check_for_peg_crosses. rewrite Hl. cbn [lift bind].
              destruct (Z.leb_spec (timestamp latest) (timestamp known)); [lia |].
              destruct (Z.ltb_spec 1 (id latest - id known)); [| lia].
              rewrite Hg. reflexivity.
        -- destruct (turn_newer_one client known latest Hl ltac:(lia) ltac:(lia))
             as (t & E & _ & Hs).
           exists (Ok (Some latest)), t. split; [exact E |].
           split; [rewrite Hs; apply (reports_are_announcements [latest]) |].
           intros k [= <-]. exists latest. split; [reflexivity | lia].
    + destruct (turn_first client latest Hl) as (t & E & Hs & _).
      exists (Ok (Some latest)), t. split; [exact E |].
      split; [rewrite Hs; constructor | intros k [=]].
  - exists (Raise e), []. split; [| split; [constructor | intros; exact I]].
    unfold monitor_turn, _check_for_peg_crosses. rewrite Hl. reflexivity.
Qed.

Lemma turns_any (answers : list BeanSqlClient) :
  forall cursor,
    Forall cross_announcement (sent (fst (monitor_turns answers cursor)))
    /\ (forall known, cursor = Some known ->
        cursor_at_least (timestamp known) (snd (monitor_turns answers cursor))).
Proof.
  induction answers as [| client rest IH]; intros cursor.
  - cbn [monitor_turns fst snd sent]. split; [constructor |].
    intros known ->. exists known. split; [reflexivity | lia].
  - cbn [monitor_turns].
    destruct (turn_any client cursor) as (r & t & E & Hs & Hc). rewrite E.
    set (next := match r with Ok s => s | Raise _ => cursor end).
    destruct (IH next) as (IHs & IHc).
    destruct (monitor_turns rest next) as [t' final] eqn:E'.
    cbn [fst snd] in *. split.
    + rewrite sent_app. apply Forall_app. split; assumption.
    + intros known Hk. specialize (Hc known Hk).
      assert (Hn : cursor_at_least (timestamp known) next).
      { subst next. destruct r as [c | e]; [exact Hc |].
        exists known. split; [exact Hk | lia]. }
      destruct Hn as (mid & Hmid & Hle).
      destruct (IHc mid Hmid) as (latest & Hfin & Hle').
      exists latest. split; [exact Hfin | lia].
Qed.

(** X9. The peg monitor against any source, over any number of polls
    and from any cursor. Every message it sends is one of the two cross
    announcements; the not-crossed string is never sent. Once the cursor
    is set it stays set and its timestamp never goes back. A poll whose
    batch request fails sends nothing and leaves the cursor where it
    was, so a later poll finds the same crosses still ahead of it; a
    poll whose first query fails does nothing at all. *)
Theorem peg_monitor_holds_against_any_source :
  (forall answers cursor,
     Forall cross_announcement (sent (fst (monitor_turns answers cursor)))
     /\ (forall known, cursor = Some known ->
         cursor_at_least (timestamp known) (snd (monitor_turns answers cursor))))
  /\ (forall client known latest e,
        last_cross client = Ok latest ->
        timestamp known < timestamp latest ->
        1 < id latest - id known ->
        get_last_crosses client (id latest - id known) = Raise e ->
        monitor_turn client (Some known)
        = (Raise e, [GetLastCrosses (id latest - id known)])
        /\ snd (monitor_turns [client] (Some known)) = Some known)
  /\ (forall client cursor e,
        last_cross client = Raise e ->
        monitor_turn client cursor = (Raise e, [])
        /\ monitor_turns [client] cursor = ([], cursor)).
Proof.
  split; [intros answers cursor; apply turns_any |]. split.
  - intros client known latest e Hl Hts Hd Hg.
    assert (E : monitor_turn client (Some known)
                = (Raise e, [GetLastCrosses (id latest - id known)])).
    { unfold monitor_turn, _check_for_peg_crosses. rewrite Hl. cbn [lift bind].
      destruct (Z.leb_spec (timestamp latest) (timestamp known)); [lia |].
      destruct (Z.ltb_spec 1 (id latest - id known)); [| lia].
      rewrite Hg. reflexivity. }
    split; [exact E |]. cbn [monitor_turns]. rewrite E. reflexivity.
  - intros client cursor e Hl.
    assert (E : monitor_turn client cursor = (Raise e, [])).
    { unfold monitor_turn, _check_for_peg_crosses. rewrite Hl. reflexivity. }
    split; [exact E |]. cbn [monitor_turns]. rewrite E. reflexivity.
Qed.

Lemma peg_monitor_holds_against_any_source_witness :
  monitor_turn
    {| last_cross := Ok cross_4;
       get_last_crosses := fun _ => Raise (SourceError "timeout") |}
    (Some cross_1)
  = (Raise (SourceError "timeout"), [GetLastCrosses 3])
  /\ cursor_at_least 100
       (snd (monitor_turns [subgraph_client [cross_1; cross_2]] (Some cross_1))).
Proof.
  destruct peg_monitor_holds_against_any_source as (Hany & Hbatch & _).
  split.
  - apply (Hbatch _ cross_1 cross_4 (SourceError "timeout")); reflexivity.
  - destruct (Hany [subgraph_client [cross_1; cross_2]] (Some cross_1)) as (_ & Hcursor).
    apply (Hcursor cross_1). reflexivity.
Defined.

End PegInvariants.


(* ================================================================= *)
(** * The wrapper around any polling body *)

Section WrapperInvariants.

Import Monitor.
Local Open Scope Q_scope.

Variable S : Type.
Variable world : World S.
Variable name : string.

Hypothesis world_causal : causal world.

Abbreviation wrapper := (_thread_wrapper_method world name).

Lemma spaced_cons (c : call) (f : frame S) :
  spaced (calls f) ->
  retry_after_last_call f ->
  retry_time f <= started c ->
  spaced (c :: calls f).
Proof.
  unfold retry_after_last_call. intros Hs Hr Hle.
  destruct (calls f) as [| earlier rest]; [exact I |].
  cbn [spaced]. split; [rewrite <- Hr; exact Hle | exact Hs].
Qed.

Lemma flat_map_snoc {A B : Type} (g : A -> list B) (l : list A) (x : A) :
  flat_map g (l ++ [x]) = (flat_map g l ++ g x)%list.
Proof. rewrite flat_map_app. cbn [flat_map]. rewrite app_nil_r. reflexivity. Qed.

Lemma wrapper_keeps (t0 : Q) (fuel : nat) :
  forall f,
    at_loop_head world name t0 f ->
    at_exit world name t0 (fst (wrapper fuel f)) (snd (wrapper fuel f)).
Proof.
  destruct world_causal as (Hbody & Hsleep).
  induction fuel as [| fuel IH]; intros f [Hs Hr Hrec Hact Hsurv Hclock].
  - cbn [_thread_wrapper_method fst snd]. repeat split; assumption.
  - cbn [_thread_wrapper_method].
    destruct (_thread_active world (now f)) eqn:Hactive; cbn [negb].
    + destruct (Qltb (now f) (retry_time f)) eqn:Hwait.
      * apply IH. constructor; cbn [calls records now retry_time]; try assumption.
        pose proof (Hsleep (now f) (1 # 2)). lra.
      * apply Qltb_false in Hwait.
        pose proof (Hbody (self f) (now f)) as Hback.
        destruct (_monitor_method world (self f) (now f)) as [[how self'] back].
        cbn [snd] in Hback.
        set (this := {| started := now f; finished := back; ended := how |}).
        assert (Hspaced : spaced (this :: calls f))
          by (apply spaced_cons; assumption).
        assert (Hactive' : Forall (fun c => _thread_active world (started c) = true)
                             (this :: calls f))
          by (constructor; [exact Hactive | exact Hact]).
        assert (Hrecords : forall extra,
                  extra = logged_for name this ->
                  (records f ++ extra)%list
                  = flat_map (logged_for name) (rev (this :: calls f))).
        { intros extra ->. cbn [rev]. rewrite flat_map_snoc, Hrec. reflexivity. }
        destruct how as [| e | n].
        -- apply IH. constructor; cbn [calls records now retry_time].
           ++ exact Hspaced.
           ++ reflexivity.
           ++ transitivity (records f ++ [])%list;
                [symmetry; apply app_nil_r | apply Hrecords; reflexivity].
           ++ exact Hactive'.
           ++ constructor; [exact I | exact Hsurv].
           ++ lra.
        -- apply IH. constructor; cbn [calls records now retry_time].
           ++ exact Hspaced.
           ++ reflexivity.
           ++ apply Hrecords. reflexivity.
           ++ exact Hactive'.
           ++ constructor; [exact I | exact Hsurv].
           ++ lra.
        -- cbn [fst snd calls records now]. split; [exact Hspaced |].
           split; [transitivity (records f ++ [])%list;
                     [symmetry; apply app_nil_r | apply Hrecords; reflexivity] |].
           split; [exact Hactive' |]. split; [apply (Qle_trans _ _ _ Hclock Hback) |].
           exists this, (calls f). repeat split. exact Hsurv.
    + cbn [fst snd]. repeat split; assumption.
Qed.

(** X10. The wrapper around any polling body, stopped at any time or
    never, for any number of turns of its loop, as long as time does not
    run backwards. Every call of the body but the first starts no sooner
    than the reset delay after the call before it ended, whether that
    one returned or raised. The records logged are exactly two at error
    level for every call that raised an exception, in the order of the
    calls, and nothing else. The body is only called at a time when the
    monitor is active. The loop ends for one of two reasons: the flag
    reads inactive at the head of a turn, or the last call of the body
    raised something that is no [Exception], which is neither caught nor
    logged. *)
Theorem thread_wrapper_loop_invariants (fuel : nat) (s0 : S) (t0 : Q) :
  let st := fst (_thread_wrapper_method world name fuel (start_frame s0 t0)) in
  let f := snd (_thread_wrapper_method world name fuel (start_frame s0 t0)) in
  spaced (calls f)
  /\ records f = flat_map (logged_for name) (rev (calls f))
  /\ Forall (fun c => _thread_active world (started c) = true) (calls f)
  /\ t0 <= now f
  /\ match st with
     | Looping => Forall survived (calls f)
     | Finished => _thread_active world (now f) = false /\ Forall survived (calls f)
     | Killed n =>
         exists c earlier,
           calls f = c :: earlier
           /\ ended c = RaisedBaseException n
           /\ Forall survived earlier
     end.
Proof.
  cbv zeta. apply (wrapper_keeps t0 fuel (start_frame s0 t0)).
  constructor; cbn [start_frame calls records now retry_time];
    try constructor; try reflexivity; try exact I. apply Qle_refl.
Qed.

End WrapperInvariants.

Lemma thread_wrapper_loop_invariants_witness :
  fst (Monitor._thread_wrapper_method stopped_world "pool" 40 (Monitor.start_frame tt 0))
  = Monitor.Finished
  /\ length (Monitor.calls
               (snd (Monitor._thread_wrapper_method stopped_world "pool" 40
                       (Monitor.start_frame tt 0)))) = 2%nat
  /\ Monitor.spaced
       (Monitor.calls
          (snd (Monitor._thread_wrapper_method stopped_world "pool" 40
                  (Monitor.start_frame tt 0))))
  /\ Monitor.records
       (snd (Monitor._thread_wrapper_method stopped_world "pool" 40
               (Monitor.start_frame tt 0))) = [].
Proof.
  assert (Hcausal : Monitor.causal stopped_world).
  { split.
    - intros s t. cbn. apply Qle_lteq. left. rewrite <- (Qplus_0_r t) at 1.
      apply Qplus_lt_r. reflexivity.
    - intros t d. apply Qle_refl. }
  destruct (thread_wrapper_loop_invariants unit stopped_world "pool" Hcausal 40 tt 0)
    as (Hspaced & Hrecords & _).
  split; [reflexivity |]. split; [reflexivity |]. split; [exact Hspaced |].
  rewrite Hrecords. reflexivity.
Defined.


(* ================================================================= *)
(** * What the protocol renderer needs before it looks at the log *)

Section RendererSources.

Variable eth_chain : EthChain.
Variable blockchain_client : BlockchainClient.
Variable beanstalk_graph_client : BeanstalkSqlClient.

Local Open Scope string_scope.

Abbreviation render_log event_log :=
  (default_beanstalk_event_str eth_chain (Some event_log) blockchain_client
     beanstalk_graph_client).

Lemma render_log_after_sources (event_log : EventLog) (prices : Q * Q)
    (stats : SeasonStats) :
  current_eth_and_bean_price blockchain_client = Ok prices ->
  current_season_stats beanstalk_graph_client = Ok stats ->
  ~ (lp stats == 0)%Q ->
  is_ok (fst (render_log event_log)) = true.
Proof.
  intros Hp Hs Hl. cbv beta. unfold default_beanstalk_event_str.
  rewrite Hp. destruct prices as [eth_price bean_price]. cbn [lift bind attr].
  rewrite (lp_eq_values_client _ _ _ _ _ _ Hs), (Qeq_bool_false _ _ Hl).
  cbn [lift bind].
  destruct (str_in (event event_log) ["BeanRemove"; "LPRemove"]); [reflexivity |].
  destruct (str_in (event event_log) ["LPDeposit"; "LPWithdraw"; "LPClaim"]);
    [reflexivity |].
  destruct (str_in (event event_log) ["BeanDeposit"; "BeanWithdraw"; "BeanClaim"]);
    [reflexivity |].
  destruct (String.eqb (event event_log) "Sow"); reflexivity.
Qed.

(** X11. The protocol renderer asks for the prices and for the LP
    equivalent before it looks at the kind of the log, so it renders a
    log exactly when the price source answers, the stats source answers
    and the pool holds some LP, whatever the log is. When one of them
    fails, the error is raised for every log and nothing is logged: for
    the logs it would ignore and for the logs that hold no LP amount as
    much as for the others. *)
Theorem default_beanstalk_event_str_needs_sources :
  (forall event_log,
     is_ok (fst (render_log event_log)) = true
     <-> exists prices stats,
           current_eth_and_bean_price blockchain_client = Ok prices
           /\ current_season_stats beanstalk_graph_client = Ok stats
           /\ ~ (lp stats == 0)%Q)
  /\ (forall event_log e,
        current_eth_and_bean_price blockchain_client = Raise e ->
        render_log event_log = (Raise e, []))
  /\ (forall event_log prices e,
        current_eth_and_bean_price blockchain_client = Ok prices ->
        current_season_stats beanstalk_graph_client = Raise e ->
        render_log event_log = (Raise e, []))
  /\ (forall event_log prices stats,
        current_eth_and_bean_price blockchain_client = Ok prices ->
        current_season_stats beanstalk_graph_client = Ok stats ->
        (lp stats == 0)%Q ->
        render_log event_log = (Raise ZeroDivisionError, [])).
Proof.
  assert (Hprice : forall event_log e,
            current_eth_and_bean_price blockchain_client = Raise e ->
            render_log event_log = (Raise e, [])).
  { intros event_log e Hp. cbv beta. unfold default_beanstalk_event_str.
    rewrite Hp. reflexivity. }
  assert (Hstats : forall event_log prices e,
            current_eth_and_bean_price blockchain_client = Ok prices ->
            current_season_stats beanstalk_graph_client = Raise e ->
            render_log event_log = (Raise e, [])).
  { intros event_log [eth_price bean_price] e Hp Hs. cbv beta.
    unfold default_beanstalk_event_str. rewrite Hp. cbn [lift bind attr].
    unfold lp_eq_values. rewrite Hs. reflexivity. }
  assert (Hzero : forall event_log prices stats,
            current_eth_and_bean_price blockchain_client = Ok prices ->
            current_season_stats beanstalk_graph_client = Ok stats ->
            (lp stats == 0)%Q ->
            render_log event_log = (Raise ZeroDivisionError, [])).
  { intros event_log [eth_price bean_price] stats Hp Hs Hl. cbv beta.
    unfold default_beanstalk_event_str. rewrite Hp. cbn [lift bind attr].
    rewrite (lp_eq_values_client _ _ _ _ _ _ Hs).
    apply Qeq_bool_iff in Hl. rewrite Hl. reflexivity. }
  split; [| split; [exact Hprice | split; [exact Hstats | exact Hzero]]].
  intros event_log. split.
  - intros Hok.
    destruct (current_eth_and_bean_price blockchain_client) as [prices | e] eqn:Hp.
    + destruct (current_season_stats beanstalk_graph_client) as [stats | e] eqn:Hs.
      * exists prices, stats. split; [reflexivity |]. split; [reflexivity |].
        intros Hl. rewrite (Hzero event_log prices stats eq_refl eq_refl Hl) in Hok.
        discriminate.
      * rewrite (Hstats event_log prices e eq_refl eq_refl) in Hok. discriminate.
    + rewrite (Hprice event_log e eq_refl) in Hok. discriminate.
  - intros (prices & stats & Hp & Hs & Hl).
    apply (render_log_after_sources event_log prices stats Hp Hs Hl).
Qed.

End RendererSources.

Lemma default_beanstalk_event_str_needs_sources_witness :
  default_beanstalk_event_str sample_eth_chain (Some (bean_deposit_log 1 5000000))
    (sample_blockchain_client "0x75ce258d") empty_pool_client
  = (Raise ZeroDivisionError, [])
  /\ default_beanstalk_event_str sample_eth_chain
       (Some (lp_remove_log 2 2000000000000000000))
       (sample_blockchain_client "0x75ce258d") empty_pool_client
     = (Raise ZeroDivisionError, []).
Proof.
  destruct (default_beanstalk_event_str_needs_sources sample_eth_chain
              (sample_blockchain_client "0x75ce258d") empty_pool_client)
    as (_ & _ & _ & Hzero).
  split.
  - apply (Hzero (bean_deposit_log 1 5000000) (4000, 101 # 100)
             {| pooledEth := 0; pooledBeans := 0; lp := 0 |}); reflexivity.
  - apply (Hzero (lp_remove_log 2 2000000000000000000) (4000, 101 # 100)
             {| pooledEth := 0; pooledBeans := 0; lp := 0 |}); reflexivity.
Defined.


(* ================================================================= *)
(** * The season summary *)

Section SeasonSummary.

Import SunriseMonitor.

Variable value : Type.
Variable float : value -> result Q.
Variable str : value -> string.

Local Open Scope string_scope.

Abbreviation summary := (season_summary_string float str).

Lemma sown_divisor_zero (last_weather : Q) :
  (1 + last_weather / 100 == 0)%Q <-> (last_weather == -100)%Q.
Proof.
  unfold Qdiv. change (/ 100)%Q with (1 # 100)%Q. split; intros H; lra.
Qed.

Lemma headed_refl (h : string) : exists rest, h = h ++ rest.
Proof. exists "". symmetry. apply string_app_empty. Qed.

Lemma headed_app (h a b : string) :
  (exists rest, a = h ++ rest) -> exists rest, a ++ b = h ++ rest.
Proof. intros (rest & ->). exists (rest ++ b). apply string_app_assoc. Qed.

(** The summary once every amount is read. *)
Lemma summary_after_float (last_season_stats current_season_stats : Season value)
    (total_lp last_weather : Q) :
  amounts_parse float last_season_stats current_season_stats ->
  float (lp current_season_stats) = Ok total_lp ->
  float (weather last_season_stats) = Ok last_weather ->
  (Qeq_bool total_lp 0 = true \/ Qeq_bool (1 + last_weather / 100) 0 = true ->
   summary last_season_stats current_season_stats = Raise ZeroDivisionError)
  /\ (Qeq_bool total_lp 0 = false -> Qeq_bool (1 + last_weather / 100) 0 = false ->
      exists ret_string,
        summary last_season_stats current_season_stats = Ok ret_string
        /\ (exists rest,
              ret_string = season_headline (str (id last_season_stats)) ++ rest)
        /\ endswith ret_string blank_line_marker = true).
Proof.
  intros ((q1 & E1) & (q2 & E2) & (q3 & E3) & (q4 & E4) & (q5 & E5) & (q6 & E6)
          & (q7 & E7) & (q8 & E8) & (q9 & E9) & (q10 & E10)) Hlp Hw.
  unfold season_summary_string.
  rewrite E1, E2, E3, E4, E5, E6, Hlp. cbn [bind_result].
  rewrite !lp_eq_values_explicit.
  destruct (Qeq_bool total_lp 0) eqn:Hzero; cbn [bind_result].
  - split; [reflexivity | discriminate].
  - rewrite Hw, E7, E8, E9, E10. cbn [bind_result]. unfold truediv.
    destruct (Qeq_bool (1 + last_weather / 100) 0) eqn:Hsown; cbn [bind_result].
    + split; [reflexivity | discriminate].
    + split; [intros [H | H]; discriminate |]. intros _ _.
      fold (season_headline (str (id last_season_stats))).
      destruct (truthy (Some (q1 + q2)%Q));
        (eexists; split; [reflexivity |]; split;
         [repeat first [apply headed_refl | apply headed_app] | apply endswith_app]).
Qed.

(** X12. The season summary, when the amounts it reads are numbers. It
    is returned exactly when the pool holds some LP and the weather of
    the last season is not -100 %: with a total of LP of zero, or with
    that weather, it raises [ZeroDivisionError] and there is no summary.
    When it is returned it opens with the number of the last season, not
    of the current one, and it ends with the blank-line marker. *)
Theorem season_summary_string_returns (last_season_stats current_season_stats : Season value)
    (total_lp last_weather : Q) :
  amounts_parse float last_season_stats current_season_stats ->
  float (lp current_season_stats) = Ok total_lp ->
  float (weather last_season_stats) = Ok last_weather ->
  ((total_lp == 0)%Q \/ (last_weather == -100)%Q ->
   season_summary_string float str last_season_stats current_season_stats
   = Raise ZeroDivisionError)
  /\ (~ (total_lp == 0)%Q -> ~ (last_weather == -100)%Q ->
      exists ret_string rest,
        season_summary_string float str last_season_stats current_season_stats
        = Ok ret_string
        /\ ret_string = season_headline (str (id last_season_stats)) ++ rest
        /\ endswith ret_string blank_line_marker = true).
Proof.
  intros Hparse Hlp Hw.
  destruct (summary_after_float _ _ _ _ Hparse Hlp Hw) as (Hraise & Hret).
  split.
  - intros [Hz | Hz]; apply Hraise; [left | right]; apply Qeq_bool_iff;
      [exact Hz | apply sown_divisor_zero; exact Hz].
  - intros Hz Hs.
    destruct Hret as (ret_string & E & (rest & Hhead) & Hend).
    + apply Qeq_bool_false. exact Hz.
    + apply Qeq_bool_false. intros H. apply Hs. apply sown_divisor_zero. exact H.
    + exists ret_string, rest. split; [exact E |]. split; [exact Hhead | exact Hend].
Qed.

End SeasonSummary.

Lemma season_summary_string_returns_witness :
  SunriseMonitor.season_summary_string float_of_int digits
    (sample_season 41 1700000000 (-100) 1000) (sample_season 42 1700003600 3 1000)
  = Raise ZeroDivisionError
  /\ exists rest,
       SunriseMonitor.season_summary_string float_of_int digits
         (sample_season 41 1700000000 2 1000) (sample_season 42 1700003600 3 1000)
       = Ok (season_headline "41" ++ rest)%string.
Proof.
  assert (Hparse : forall a b c d e f g h,
            amounts_parse float_of_int (sample_season a b c d) (sample_season e f g h)).
  { intros. repeat split; eexists; reflexivity. }
  split.
  - apply (season_summary_string_returns Z float_of_int digits
             (sample_season 41 1700000000 (-100) 1000) (sample_season 42 1700003600 3 1000)
             1000 (-100) (Hparse _ _ _ _ _ _ _ _) eq_refl eq_refl).
    right. reflexivity.
  - destruct (season_summary_string_returns Z float_of_int digits
                (sample_season 41 1700000000 2 1000) (sample_season 42 1700003600 3 1000)
                1000 2 (Hparse _ _ _ _ _ _ _ _) eq_refl eq_refl) as (_ & Hret).
    destruct Hret as (ret_string & rest & E & Hhead & _); [discriminate | discriminate |].
    exists rest. rewrite E, Hhead. reflexivity.
Defined.


(* ================================================================= *)
(** * Waiting for the next sunrise *)

Section SunriseWait.

Import SunriseMonitor.
Local Open Scope Q_scope.

Variable S : Type.
Variable world : Monitor.World S.

Hypothesis sleep_lasts : forall t d, t + d <= Monitor.sleep world t d.

Lemma floor_bounds (x : Q) :
  3600 * inject_Z (Qfloor (x / 3600)) <= x
  /\ x < 3600 * inject_Z (Qfloor (x / 3600)) + 3600.
Proof.
  pose proof (Qfloor_le (x / 3600)) as Hlo.
  pose proof (Qlt_floor (x / 3600)) as Hhi.
  rewrite inject_Z_plus in Hhi. change (inject_Z 1) with 1 in Hhi.
  assert (Hx : x == 3600 * (x / 3600)) by (field; discriminate).
  set (y := x / 3600) in *. set (f := inject_Z (Qfloor y)) in *.
  split; lra.
Qed.

(** The time the monitor waits for: the next multiple of the season
    duration strictly after the time it starts at. *)
Lemma sunrise_ready_spec (time : Q) :
  sunrise_ready time == 3600 * inject_Z (Qfloor (time / 3600) + 1)
  /\ time < sunrise_ready time
  /\ sunrise_ready time <= time + 3600.
Proof.
  unfold sunrise_ready, float_mod, SEASON_DURATION.
  destruct (floor_bounds time) as (Hlo & Hhi).
  rewrite inject_Z_plus. change (inject_Z 1) with 1.
  set (f := inject_Z (Qfloor (time / 3600))) in *.
  split; [ring | split; lra].
Qed.

Lemma wait_loop_ends (time ready : Q) :
  ready <= time + 3600 ->
  forall fuel w,
    time + inject_Z (loop_count w) <= wait_now w ->
    (0 <= loop_count w <= 3600)%Z ->
    (3601 <= Z.of_nat fuel + loop_count w)%Z ->
    Z.of_nat (length (wait_records w)) = ((loop_count w + 59) / 60)%Z ->
    Forall (fun r => fst r = INFO) (wait_records w) ->
    exists w',
      wait_loop world fuel ready w = Some w'
      /\ (Monitor._thread_active world (wait_now w') = true -> ready <= wait_now w')
      /\ time + inject_Z (loop_count w') <= wait_now w'
      /\ (0 <= loop_count w' <= 3600)%Z
      /\ Z.of_nat (length (wait_records w')) = ((loop_count w' + 59) / 60)%Z
      /\ Forall (fun r => fst r = INFO) (wait_records w').
Proof.
  intros Hready. induction fuel as [| fuel IH]; intros w Hclock Hcount Hfuel Hlen Hinfo.
  - lia.
  - cbn [wait_loop].
    destruct (Monitor._thread_active world (wait_now w)) eqn:Hactive; cbn [andb].
    + destruct (Qltb (wait_now w) ready) eqn:Hlt.
      * apply Qltb_true in Hlt.
        assert (Hless : (loop_count w < 3600)%Z).
        { destruct (Z.lt_ge_cases (loop_count w) 3600) as [H | H]; [exact H |].
          exfalso. assert (inject_Z 3600 <= inject_Z (loop_count w))
            by (rewrite <- Zle_Qle; exact H).
          change (inject_Z 3600) with 3600 in *. lra. }
        apply IH; cbn [wait_now loop_count wait_records].
        -- rewrite inject_Z_plus. change (inject_Z 1) with 1.
           pose proof (sleep_lasts (wait_now w) 1). lra.
        -- lia.
        -- lia.
        -- destruct (Z.eqb_spec (loop_count w mod 60) 0) as [Hmod | Hmod].
           ++ rewrite length_app. cbn [length]. rewrite Nat2Z.inj_add, Hlen.
              change (Z.of_nat 1) with 1%Z. Z.div_mod_to_equations. lia.
           ++ rewrite Hlen. Z.div_mod_to_equations. lia.
        -- destruct (loop_count w mod 60 =? 0)%Z; [| exact Hinfo].
           apply Forall_app. split; [exact Hinfo |]. constructor; [reflexivity | constructor].
      * exists w. split; [reflexivity |].
        split; [intros _; apply Qltb_false; exact Hlt |].
        repeat split; try assumption; lia.
    + exists w. split; [reflexivity |].
      split; [intros H; rewrite H in Hactive; discriminate |].
      repeat split; try assumption; lia.
Qed.

(** X13. Waiting for the expected sunrise, entered at any time, with
    sleeps that last at least as long as asked. The time waited for is
    the next whole multiple of the season duration strictly after the
    time of entry: entered exactly on the hour, the monitor waits the
    whole season. The loop ends within 3,600 sleeps of a second; when it
    ends the monitor has been stopped or the time waited for has come.
    It logs one record at info level before the first sleep and one more
    every 60 sleeps, sixty at most. *)
Theorem wait_until_expected_sunrise_ends (time : Q) (fuel : nat) :
  (3600 < fuel)%nat ->
  sunrise_ready time == 3600 * inject_Z (Qfloor (time / 3600) + 1)
  /\ time < sunrise_ready time <= time + 3600
  /\ exists w,
       _wait_until_expected_sunrise world fuel time = Some w
       /\ (Monitor._thread_active world (wait_now w) = true ->
           sunrise_ready time <= wait_now w)
       /\ time + inject_Z (loop_count w) <= wait_now w
       /\ (0 <= loop_count w <= 3600)%Z
       /\ Z.of_nat (length (wait_records w)) = ((loop_count w + 59) / 60)%Z
       /\ Forall (fun r => fst r = INFO) (wait_records w).
Proof.
  intros Hfuel. destruct (sunrise_ready_spec time) as (Hmult & Hlo & Hhi).
  split; [exact Hmult |]. split; [split; assumption |].
  unfold _wait_until_expected_sunrise.
  apply (wait_loop_ends time (sunrise_ready time) Hhi); cbn [wait_now loop_count wait_records].
  - change (inject_Z 0) with 0. lra.
  - lia.
  - lia.
  - reflexivity.
  - constructor.
Qed.

End SunriseWait.

Lemma wait_until_expected_sunrise_ends_witness :
  SunriseMonitor.sunrise_ready 7200 == 10800
  /\ exists w,
       SunriseMonitor._wait_until_expected_sunrise flaky_world 3601 7200 = Some w
       /\ 10800 <= SunriseMonitor.wait_now w.
Proof.
  destruct (wait_until_expected_sunrise_ends nat flaky_world
              (fun t d => Qle_refl (t + d)) 7200 3601 ltac:(lia))
    as (Hready & _ & w & E & Hcome & _).
  split.
  - rewrite Hready. reflexivity.
  - exists w. split; [exact E |]. rewrite <- Hready. apply Hcome. reflexivity.
Defined.


(* ================================================================= *)
(** * Blocking until the sunrise is seen *)

Section SunriseBlock.

Import SunriseMonitor.
Local Open Scope Q_scope.

Variable value : Type.
Variable int : value -> result Z.
Variable str : value -> string.
Variable equal : value -> value -> bool.

Variable S : Type.
Variable world : Monitor.World S.
Variable beanstalk_graph_client : BeanstalkSqlClient value.

Abbreviation block :=
  (_block_and_get_seasons_stats int str equal world beanstalk_graph_client).

Lemma block_came_back (fuel : nat) :
  forall b0 b r b',
    current_season_id b = current_season_id b0 ->
    records b = records b0 ->
    block fuel b = Some (r, b') ->
    came_back int str equal world beanstalk_graph_client b0 r b'.
Proof.
  induction fuel as [| fuel IH]; intros b0 b r b' Hid Hrec; [discriminate |].
  cbn [_block_and_get_seasons_stats].
  destruct (Monitor._thread_active world (now b)) eqn:Hactive; cbn [negb].
  - destruct (seasons_stats beanstalk_graph_client (now b)) as [answer back] eqn:Hanswer.
    destruct answer as [[current_season_stats last_season_stats] | e].
    + destruct (differs equal (current_season_id b) (id current_season_stats)) eqn:Hdiff.
      * destruct (int (timestamp current_season_stats)) as [stamp | e] eqn:Hint.
        -- destruct (Qltb (back - SEASON_DURATION / 2) (inject_Z stamp)) eqn:Hrecent.
           ++ intros [= <- <-]. cbn [came_back now current_season_id records].
              split; [rewrite <- Hid; exact Hdiff |].
              split; [exists stamp; split;
                        [exact Hint | apply Qltb_true; exact Hrecent] |].
              split; [exists (now b); exact Hanswer |].
              split; [reflexivity | rewrite Hrec; reflexivity].
           ++ apply IH; assumption.
        -- intros [= <- <-]. cbn [came_back current_season_id records].
           split; assumption.
      * apply IH; assumption.
    + intros [= <- <-]. cbn [came_back current_season_id records]. split; assumption.
  - intros [= <- <-]. cbn [came_back]. repeat split; assumption.
Qed.

Lemma block_keeps_waiting (fuel : nat) :
  (forall t, Monitor._thread_active world t = true) ->
  forall b,
    (forall t b',
       current_season_id b' = current_season_id b ->
       exists current_season_stats last_season_stats back,
         seasons_stats beanstalk_graph_client t
         = (Ok (current_season_stats, last_season_stats), back)
         /\ taken int equal b' (Ok (current_season_stats, last_season_stats)) back = false
         /\ exists stamp, int (timestamp current_season_stats) = Ok stamp) ->
    block fuel b = None.
Proof.
  intros Hactive. induction fuel as [| fuel IH]; intros b Hstale; [reflexivity |].
  cbn [_block_and_get_seasons_stats]. rewrite Hactive. cbn [negb].
  destruct (Hstale (now b) b eq_refl) as (cur & last & back & E & Hnot & (stamp & Hint)).
  rewrite E. cbn [taken] in Hnot. rewrite Hint in Hnot |- *.
  assert (Hnext : block fuel
                    {| now := Monitor.sleep world back SUNRISE_CHECK_PERIOD;
                       current_season_id := current_season_id b;
                       records := records b |} = None).
  { apply IH. intros t b' Hb'. apply Hstale. exact Hb'. }
  destruct (differs equal (current_season_id b) (id cur)); [| exact Hnext].
  cbn [andb] in Hnot. rewrite Hnot. exact Hnext.
Qed.

(** X14. Blocking until the sunrise is seen, from any state and for any
    number of polls. When it comes back with a season, that season is
    what the subgraph answered at the last poll, its number is not the
    number processed last, it was stamped less than half a season before
    the poll came back, the number is now the one processed last and one
    record says so. It comes back empty-handed only when the monitor was
    stopped, and with the two seasons or with none, never with one. When
    the subgraph or the stamp fails, the error goes up and the number
    processed last is left as it was. And as long as every poll finds
    the season processed last, or one stamped half a season ago or
    before, a monitor that is not stopped does not come back at all. *)
Theorem block_and_get_seasons_stats_returns_fresh :
  (forall fuel b r b', block fuel b = Some (r, b') -> came_back int str equal world beanstalk_graph_client b r b')
  /\ (forall fuel b current_season_stats last_season_stats back,
        Monitor._thread_active world (now b) = true ->
        seasons_stats beanstalk_graph_client (now b)
        = (Ok (current_season_stats, last_season_stats), back) ->
        taken int equal b (Ok (current_season_stats, last_season_stats)) back = true ->
        exists b',
          block (Datatypes.S fuel) b
          = Some (Ok (Some current_season_stats, Some last_season_stats), b')
          /\ now b' = back)
  /\ (forall fuel b,
        (forall t, Monitor._thread_active world t = true) ->
        (forall t b',
           current_season_id b' = current_season_id b ->
           exists current_season_stats last_season_stats back,
             seasons_stats beanstalk_graph_client t
             = (Ok (current_season_stats, last_season_stats), back)
             /\ taken int equal b' (Ok (current_season_stats, last_season_stats)) back = false
             /\ exists stamp, int (timestamp current_season_stats) = Ok stamp) ->
        block fuel b = None).
Proof.
  split; [| split].
  - intros fuel b r b' H. apply (block_came_back fuel b b r b' eq_refl eq_refl H).
  - intros fuel b cur last back Hactive Hanswer Htaken.
    cbn [_block_and_get_seasons_stats]. rewrite Hactive, Hanswer. cbn [negb].
    cbn [taken] in Htaken. apply andb_true_iff in Htaken. destruct Htaken as (Hdiff & Hrecent).
    rewrite Hdiff. destruct (int (timestamp cur)) as [stamp | e]; [| discriminate].
    rewrite Hrecent. eexists. split; reflexivity.
  - intros fuel b Hactive Hstale. apply block_keeps_waiting; assumption.
Qed.

End SunriseBlock.

Lemma block_and_get_seasons_stats_returns_fresh_witness :
  exists b',
    SunriseMonitor._block_and_get_seasons_stats int_of_int digits Z.eqb flaky_world
      (sample_seasons_client 1700003600) 1
      {| SunriseMonitor.now := 1700003625;
         SunriseMonitor.current_season_id := Some 41%Z;
         SunriseMonitor.records := [] |}
    = Some (Ok (Some (sample_season 42 1700003600 3 1000),
                Some (sample_season 41 1700000000 2 1000)), b')
    /\ SunriseMonitor.current_season_id b' = Some 42%Z.
Proof.
  destruct (block_and_get_seasons_stats_returns_fresh Z int_of_int digits Z.eqb nat
              flaky_world (sample_seasons_client 1700003600)) as (Hback & Hnow & _).
  destruct (Hnow O
              {| SunriseMonitor.now := 1700003625;
                 SunriseMonitor.current_season_id := Some 41%Z;
                 SunriseMonitor.records := [] |}
              (sample_season 42 1700003600 3 1000)
              (sample_season 41 (1700003600 - 3600) 2 1000) 1700003625
              eq_refl eq_refl eq_refl) as (b' & E & _).
  exists b'. split; [exact E |].
  apply Hback in E. cbn [came_back] in E.
  destruct E as (_ & _ & _ & Hid & _). exact Hid.
Defined.


(* ================================================================= *)
(** * Starting and stopping a monitor *)

Section LifecycleFacts.

Import Lifecycle.
Local Open Scope string_scope.

Variable message_function : string -> result unit.

Abbreviation start_ := (start message_function).
Abbreviation stop_ := (stop message_function).

Lemma start_fresh (self : Monitor) :
  (forall text, message_function text = Ok tt) ->
  _thread_wrapper self = Unstarted ->
  exists done,
    start_ self
    = (Returns, set_thread_wrapper (set_thread_active self true) Started, done)
    /\ announcements done = start_announcement self
    /\ thread_starts done = 1%nat.
Proof.
  intros Hup Hnew. unfold start, message, start_announcement.
  destruct (_dry_run self); [| destruct (prod self)]; cbn [negb];
    rewrite ?Hup; cbn [set_thread_active _thread_wrapper]; rewrite Hnew;
    eexists; (split; [reflexivity |]); split; reflexivity.
Qed.

Lemma stop_started (self : Monitor) :
  (forall text, message_function text = Ok tt) ->
  _thread_wrapper self = Started ->
  exists done,
    stop_ self = (Returns, set_thread_active self false, done)
    /\ announcements done = [name self ++ " monitoring stopped."]
    /\ joins done = [(3 * query_rate self)%Q]
    /\ (prod self = true -> done = [ThreadJoin (3 * query_rate self);
                                    Message (name self ++ " monitoring stopped.")]).
Proof.
  intros Hup Hrun. unfold stop, message.
  cbn [set_thread_active _thread_wrapper name query_rate]. rewrite Hrun, Hup.
  destruct (prod self); cbn [negb app];
    eexists; (split; [reflexivity |]); repeat split; try reflexivity; discriminate.
Qed.

Lemma start_again (self : Monitor) :
  (forall text, message_function text = Ok tt) ->
  _thread_wrapper self = Started ->
  exists msg done,
    start_ self = (RuntimeError msg, set_thread_active self true, done)
    /\ announcements done = start_announcement self
    /\ thread_starts done = O.
Proof.
  intros Hup Hrun. unfold start, message, start_announcement.
  destruct (_dry_run self); [| destruct (prod self)]; cbn [negb];
    rewrite ?Hup; cbn [set_thread_active _thread_wrapper]; rewrite Hrun;
    eexists; eexists; (split; [reflexivity |]); split; reflexivity.
Qed.

(** X15. A monitor's life. Started fresh, with a sender that goes
    through, a monitor sets its flag and starts its thread once; it
    announces the start unless it runs in production on real data, where
    it says nothing. Stopped then, it clears the flag, joins its thread
    for three times its query rate and announces the stop, in production
    too. It cannot be started again: the second start announces as the
    first did and sets the flag, and then the thread refuses, so the
    flag reads active with no thread running. A monitor that is stopped
    before it was started clears its flag and fails without announcing
    anything. And when the sender fails on the announcement of the
    start, the monitor is left as it was and no thread is started. *)
Theorem monitor_start_stop_once :
  (forall self,
     (forall text, message_function text = Ok tt) ->
     _thread_wrapper self = Unstarted ->
     exists running stopped again started_ stopped_ again_ msg,
       start_ self = (Returns, running, started_)
       /\ stop_ running = (Returns, stopped, stopped_)
       /\ start_ stopped = (RuntimeError msg, again, again_)
       /\ (_thread_active running = true /\ _thread_active stopped = false
           /\ _thread_active again = true)
       /\ (thread_starts started_ = 1%nat /\ thread_starts again_ = O)
       /\ announcements started_ = start_announcement self
       /\ announcements stopped_ = [name self ++ " monitoring stopped."]
       /\ joins stopped_ = [(3 * query_rate self)%Q]
       /\ announcements again_ = start_announcement self)
  /\ (forall self,
        _thread_wrapper self = Unstarted ->
        exists msg done,
          stop_ self = (RuntimeError msg, set_thread_active self false, done)
          /\ announcements done = [] /\ joins done = [])
  /\ (forall self e,
        (forall text, message_function text = Raise e) ->
        _dry_run self = true \/ prod self = false ->
        exists done,
          start_ self = (MessageFailed e, self, done)
          /\ announcements done = [] /\ thread_starts done = O).
Proof.
  split; [| split].
  - intros self Hup Hnew.
    destruct (start_fresh self Hup Hnew) as (started_ & E1 & A1 & T1).
    destruct (stop_started (set_thread_wrapper (set_thread_active self true) Started)
                Hup eq_refl) as (stopped_ & E2 & A2 & J2 & _).
    destruct (start_again
                (set_thread_active
                   (set_thread_wrapper (set_thread_active self true) Started) false)
                Hup eq_refl) as (msg & again_ & E3 & A3 & T3).
    do 3 eexists. exists started_, stopped_, again_, msg.
    split; [exact E1 |]. split; [exact E2 |]. split; [exact E3 |].
    split; [repeat split |]. split; [split; assumption |].
    split; [exact A1 |]. split; [exact A2 |]. split; [exact J2 |]. exact A3.
  - intros self Hnew. unfold stop. cbn [set_thread_active _thread_wrapper]. rewrite Hnew.
    eexists; eexists. split; [reflexivity |].
    destruct (prod self); split; reflexivity.
  - intros self e Hdown Hsays. unfold start, message.
    destruct (_dry_run self) eqn:Hdry.
    + rewrite Hdown. eexists. repeat split.
    + destruct Hsays as [H | H]; [discriminate |]. rewrite H. cbn [negb].
      rewrite Hdown. eexists. repeat split.
Qed.

End LifecycleFacts.

Lemma monitor_start_stop_once_witness :
  (exists running done,
     Lifecycle.start sender_up (Lifecycle.PegCrossMonitor true)
     = (Lifecycle.Returns, running, done)
     /\ announcements done = []
     /\ exists stopped done',
          Lifecycle.stop sender_up running = (Lifecycle.Returns, stopped, done')
          /\ announcements done' = ["peg monitoring stopped."%string]
          /\ joins done' = [30])
  /\ exists done,
       Lifecycle.start sender_down (Lifecycle.PoolMonitor false false)
       = (Lifecycle.MessageFailed (SourceError "Bad Gateway"),
          Lifecycle.PoolMonitor false false, done).
Proof.
  destruct (monitor_start_stop_once sender_up) as (Hlife & _).
  destruct (monitor_start_stop_once sender_down) as (_ & _ & Hdown).
  split.
  - destruct (Hlife (Lifecycle.PegCrossMonitor true) (fun _ => eq_refl) eq_refl)
      as (running & stopped & _ & started_ & stopped_ & _ & _ & E1 & E2 & _ & _ & _
          & A1 & A2 & J2 & _).
    exists running, started_. split; [exact E1 |]. split; [exact A1 |].
    exists stopped, stopped_. split; [exact E2 |]. split; [exact A2 |].
    rewrite J2. reflexivity.
  - destruct (Hdown (Lifecycle.PoolMonitor false false) (SourceError "Bad Gateway")
                (fun _ => eq_refl) (or_intror eq_refl)) as (done & E & _).
    exists done. exact E.
Defined.


(* ================================================================= *)
(** * The Discord queue, drained with no thread in between *)

Section QuietDrain.

Import DiscordClient.

Variable prod : bool.
Variable send : Z -> string -> result unit.

Abbreviation drain := (run prod send).

Lemma run_app (a b : list event) (self : client) :
  drain (a ++ b) self = drain b (drain a self).
Proof. apply fold_left_app. Qed.

Lemma ticks_add (n m : nat) : ticks (n + m) = (ticks n ++ ticks m)%list.
Proof. apply repeat_app. Qed.

Lemma stays_put (n : nat) (self : client) :
  step prod send self = self -> drain (ticks n) self = self.
Proof.
  intros Hself. induction n as [| n IH]; [reflexivity |].
  cbn [ticks repeat run fold_left happen]. rewrite Hself. exact IH.
Qed.

Lemma nth_error_middle {A : Type} (done : list A) (x : A) (rest : list A) :
  nth_error (done ++ x :: rest) (length done) = Some x.
Proof. induction done as [| y done IH]; [reflexivity | exact IH]. Qed.

(** One turn of the loop, with no thread in between. *)
Lemma quiet_turn (self : client) (x : entry) :
  at_ self = AtFor ->
  nth_error (iterated self) (index self) = Some x ->
  goes_through prod send x ->
  drain (ticks 5) self
  = {| iterated := iterated self; index := S (index self); aliased := false;
       queue := tl (msg_queue self); at_ := AtFor;
       delivered := (delivered self ++ [route prod x])%list;
       records := (records self ++ [sent_record x])%list |}.
Proof.
  destruct self as [it i al q pos del rec]. destruct x as [channel msg].
  unfold goes_through. cbn [at_ iterated index fst snd]. intros -> Hnth Hsend.
  cbn [ticks repeat run fold_left happen step at_ iterated index].
  rewrite Hnth. cbn [step at_]. rewrite Hsend. reflexivity.
Qed.

Lemma quiet_turns (mid : list entry) :
  forall done rest self,
    iterated self = (done ++ mid ++ rest)%list ->
    index self = length done ->
    at_ self = AtFor ->
    msg_queue self = (mid ++ rest)%list ->
    Forall (goes_through prod send) mid ->
    iterated (drain (ticks (5 * length mid)) self) = iterated self
    /\ index (drain (ticks (5 * length mid)) self) = (length done + length mid)%nat
    /\ at_ (drain (ticks (5 * length mid)) self) = AtFor
    /\ msg_queue (drain (ticks (5 * length mid)) self) = rest
    /\ delivered (drain (ticks (5 * length mid)) self)
       = (delivered self ++ map (route prod) mid)%list
    /\ records (drain (ticks (5 * length mid)) self)
       = (records self ++ map sent_record mid)%list.
Proof.
  induction mid as [| x mid IH]; intros done rest self Hit Hi Hat Hq Hok.
  - change (drain (ticks (5 * length (@nil entry))) self) with self.
    cbn [app length map] in *. rewrite !app_nil_r, Nat.add_0_r.
    repeat split; try assumption; reflexivity.
  - inversion Hok as [| ? ? Hx Hmid]; subst.
    cbn [length]. replace (5 * S (length mid))%nat with (5 + 5 * length mid)%nat by lia.
    rewrite ticks_add, run_app.
    assert (Hnth : nth_error (iterated self) (index self) = Some x)
      by (rewrite Hit, Hi; apply nth_error_middle).
    rewrite (quiet_turn self x Hat Hnth Hx).
    match goal with |- context [drain _ ?s] => set (next := s) end.
    destruct (IH (done ++ [x])%list rest next) as (H1 & H2 & H3 & H4 & H5 & H6).
    + subst next. cbn [iterated]. rewrite Hit, <- app_assoc. reflexivity.
    + subst next. cbn [index]. rewrite Hi, length_app. cbn [length]. lia.
    + reflexivity.
    + subst next. unfold msg_queue at 1. cbn [aliased queue]. rewrite Hq. reflexivity.
    + exact Hmid.
    + rewrite H1, H2, H3, H4, H5, H6. subst next.
      cbn [iterated delivered records map]. rewrite length_app, <- !app_assoc.
      cbn [length app]. repeat split; try reflexivity. lia.
Qed.

(** X16. The Discord queue drained with no monitor thread in between.
    When the library delivers every entry, the task sends the entries
    in the order of the queue, each to the channel of its kind in
    production and all to the test channel otherwise, logs one record
    for each, returns, and leaves the queue empty. When the library
    raises on an entry, the entries before it were delivered and taken
    off the queue, and the queue still starts with the entry that
    failed: nothing is lost and nothing would be sent twice. *)
Theorem send_queued_messages_drains_in_order :
  (forall msg_queue_ n,
     Forall (goes_through prod send) msg_queue_ ->
     (5 * length msg_queue_ + 1 <= n)%nat ->
     at_ (drain (ticks n) (enter msg_queue_)) = Returned
     /\ delivered (drain (ticks n) (enter msg_queue_)) = map (route prod) msg_queue_
     /\ msg_queue (drain (ticks n) (enter msg_queue_)) = []
     /\ records (drain (ticks n) (enter msg_queue_)) = map sent_record msg_queue_)
  /\ (forall done x rest e n,
        Forall (goes_through prod send) done ->
        send (_chat_id prod (fst x)) (snd x) = Raise e ->
        (5 * length done + 2 <= n)%nat ->
        at_ (drain (ticks n) (enter (done ++ x :: rest))) = Raised e
        /\ delivered (drain (ticks n) (enter (done ++ x :: rest)))
           = map (route prod) done
        /\ msg_queue (drain (ticks n) (enter (done ++ x :: rest))) = x :: rest)
  /\ (prod = false ->
      forall x, fst (route prod x) = DISCORD_CHANNEL_ID_TEST_BOT).
Proof.
  split; [| split].
  - intros q n Hok Hn.
    replace n with (5 * length q + (1 + (n - (5 * length q + 1))))%nat by lia.
    rewrite !ticks_add, !run_app.
    destruct (quiet_turns q [] [] (enter q)) as (H1 & H2 & H3 & H4 & H5 & H6);
      try reflexivity; try exact Hok.
    { cbn [enter iterated app]. symmetry. apply app_nil_r. }
    { unfold msg_queue. cbn [enter aliased iterated]. symmetry. apply app_nil_r. }
    set (st := drain (ticks (5 * length q)) (enter q)) in *.
    assert (Hend : drain (ticks 1) st = move st Returned).
    { cbn [ticks repeat run fold_left happen]. unfold step. rewrite H3, H1, H2.
      cbn [enter iterated length Nat.add].
      rewrite (proj2 (nth_error_None q (length q)) (Nat.le_refl _)). reflexivity. }
    rewrite Hend. rewrite stays_put by reflexivity.
    unfold msg_queue in *. cbn [move at_ delivered records aliased iterated queue].
    repeat split; assumption.
  - intros done x rest e n Hok Hfail Hn.
    replace n with (5 * length done + (2 + (n - (5 * length done + 2))))%nat by lia.
    rewrite !ticks_add, !run_app.
    destruct (quiet_turns done [] (x :: rest) (enter (done ++ x :: rest)))
      as (H1 & H2 & H3 & H4 & H5 & H6); try reflexivity; try exact Hok.
    set (st := drain (ticks (5 * length done)) (enter (done ++ x :: rest))) in *.
    assert (Hend : drain (ticks 2) st
                   = move {| iterated := iterated st; index := S (index st);
                             aliased := aliased st; queue := queue st;
                             at_ := Sending x; delivered := delivered st;
                             records := records st |} (Raised e)).
    { cbn [ticks repeat run fold_left happen]. unfold step at 2. rewrite H3, H1, H2.
      cbn [enter iterated length Nat.add]. rewrite nth_error_middle.
      unfold step. cbn [at_]. destruct x as [channel msg]. cbn [fst snd] in Hfail.
      rewrite Hfail. reflexivity. }
    rewrite Hend. rewrite stays_put by reflexivity.
    unfold msg_queue in *. cbn [move at_ delivered records aliased iterated queue].
    repeat split; assumption.
  - intros -> x. reflexivity.
Qed.

End QuietDrain.

Lemma send_queued_messages_drains_in_order_witness :
  DiscordClient.delivered
    (DiscordClient.run true (fun _ _ => Ok tt) (ticks 11)
       (DiscordClient.enter
          [(DiscordClient.PEG, "up"%string); (DiscordClient.POOL, "swap"%string)]))
  = [(DiscordClient.DISCORD_CHANNEL_ID_PEG_CROSSES, "up"%string);
     (DiscordClient.DISCORD_CHANNEL_ID_POOL, "swap"%string)]
  /\ DiscordClient.msg_queue
       (DiscordClient.run true (fun _ _ => Raise (SourceError "Bad Gateway")) (ticks 2)
          (DiscordClient.enter [(DiscordClient.PEG, "up"%string)]))
     = [(DiscordClient.PEG, "up"%string)].
Proof.
  split.
  - destruct (send_queued_messages_drains_in_order true (fun _ _ => Ok tt))
      as (Hdrain & _).
    destruct (Hdrain [(DiscordClient.PEG, "up"%string); (DiscordClient.POOL, "swap"%string)]
                11%nat) as (_ & Hdelivered & _).
    + repeat constructor.
    + cbn [length]. lia.
    + exact Hdelivered.
  - destruct (send_queued_messages_drains_in_order true
                (fun _ _ => Raise (SourceError "Bad Gateway"))) as (_ & Hfail & _).
    destruct (Hfail [] (DiscordClient.PEG, "up"%string) [] (SourceError "Bad Gateway")
                2%nat) as (_ & _ & Hqueue).
    + constructor.
    + reflexivity.
    + cbn [length]. lia.
    + exact Hqueue.
Defined.


(* ================================================================= *)
(** * The Discord queue while the monitor threads append to it *)

Section ThreadedDrain.

Import DiscordClient.

Variable prod : bool.
Variable send : Z -> string -> result unit.

Hypothesis send_goes_through : forall x, goes_through prod send x.









End ThreadedDrain.



(* ================================================================= *)
(** * The loops of the pool and the protocol monitors *)

Section EventLoop.

Import EventMonitor.
Local Open Scope Q_scope.

Variable S : Type.
Variable world : Monitor.World S.
Variable _eth_event_client : EthEventsClient.
Variable _dry_run : bool.
Variable check_rate : Q.
Variable _handle_txn_logs : string -> list EventLog -> M unit.

Hypothesis sleep_lasts : forall t d, t + d <= Monitor.sleep world t d.
Hypothesis answers_later :
  forall dry_run t, t <= snd (get_new_logs _eth_event_client dry_run t).

Abbreviation loop :=
  (_monitor_method world _eth_event_client _dry_run check_rate _handle_txn_logs).

Lemma for_each_raises_within {A : Type} (body : A -> M unit) (before : list A) (x : A)
    (after : list A) (e : exn) :
  fst (for_each before body) = Ok tt ->
  fst (body x) = Raise e ->
  for_each (before ++ x :: after) body
  = (Raise e, (snd (for_each before body) ++ snd (body x))%list).
Proof.
  intros Hbefore Hx. induction before as [| y before IH]; cbn [app for_each] in *.
  - destruct (body x) as [r t]. cbn [fst] in Hx. subst r. reflexivity.
  - rewrite bind_fst in Hbefore.
    destruct (body y) as [[[] | e'] t]; cbn [fst snd bind] in *; [| discriminate].
    rewrite (IH Hbefore). destruct (for_each before body) as [r' t'].
    cbn [snd]. rewrite app_assoc. reflexivity.
Qed.

Lemma paced_cons (l : looping) (t0 : Q) :
  at_check_head world check_rate t0 l ->
  last_check_time l + check_rate <= now l ->
  Monitor._thread_active world (now l) = true ->
  paced check_rate (now l :: checks l)
  /\ Forall (fun c => Monitor._thread_active world c = true) (now l :: checks l)
  /\ Forall (fun c => t0 <= c) (now l :: checks l).
Proof.
  intros [Hp Hl Ha Hs Hc] Hdue Hactive.
  split; [| split; constructor; assumption].
  destruct (checks l) as [| latest rest]; [exact I |].
  cbn [paced]. split; [rewrite <- Hl; exact Hdue | exact Hp].
Qed.

Lemma loop_keeps (t0 : Q) (fuel : nat) :
  forall l,
    at_check_head world check_rate t0 l ->
    paced check_rate (checks (snd (loop fuel l)))
    /\ Forall (fun c => Monitor._thread_active world c = true)
         (checks (snd (loop fuel l)))
    /\ Forall (fun c => t0 <= c) (checks (snd (loop fuel l)))
    /\ t0 <= now (snd (loop fuel l))
    /\ (fst (loop fuel l) = Stopped ->
        Monitor._thread_active world (now (snd (loop fuel l))) = false).
Proof.
  induction fuel as [| fuel IH]; intros l Hhead.
  - destruct Hhead as [Hp Hl Ha Hs Hc]. cbn [_monitor_method fst snd].
    repeat split; try assumption. discriminate.
  - cbn [_monitor_method].
    destruct (Monitor._thread_active world (now l)) eqn:Hactive; cbn [negb].
    + destruct (Qltb (now l) (last_check_time l + check_rate)) eqn:Hwait.
      * apply IH. destruct Hhead as [Hp Hl Ha Hs Hc].
        constructor; cbn [checks last_check_time now]; try assumption.
        pose proof (sleep_lasts (now l) (1 # 2)). lra.
      * apply Qltb_false in Hwait.
        destruct (paced_cons l t0 Hhead Hwait Hactive) as (Hp' & Ha' & Hs').
        pose proof (answers_later _dry_run (now l)) as Hback.
        destruct Hhead as [Hp Hl Ha Hs Hc].
        destruct (get_new_logs _eth_event_client _dry_run (now l)) as [answer back].
        cbn [snd] in Hback.
        assert (Hclock : t0 <= back) by lra.
        destruct answer as [new_logs | e].
        -- destruct (handle_all _handle_txn_logs new_logs) as [[[] | e] t].
           ++ apply IH. constructor; cbn [checks last_check_time now];
                try assumption. reflexivity.
           ++ cbn [fst snd checks now]. repeat split; try assumption. discriminate.
        -- cbn [fst snd checks now]. repeat split; try assumption. discriminate.
    + destruct Hhead as [Hp Hl Ha Hs Hc]. cbn [fst snd].
      repeat split; try assumption. intros _. exact Hactive.
Qed.

(** X18. The loops of the pool and the protocol monitors, entered at
    any time and stopped at any time or never, as long as time does not
    run backwards. Every check of the chain but the first is made no
    sooner than the check rate after the check before it was made,
    however long the check took; checks are only made while the monitor
    is active, and the loop returns only when it is stopped. The first
    check is made at once, with no delay after the loop is entered. When
    the handler raises on a transaction, the loop ends with that error:
    the transactions before it in the dict were handled and their
    messages pushed, and the transactions after it are not handled. *)
Theorem monitor_method_checks_are_paced :
  (forall fuel time,
     paced check_rate (checks (snd (loop fuel (enter time))))
     /\ Forall (fun c => Monitor._thread_active world c = true)
          (checks (snd (loop fuel (enter time))))
     /\ Forall (fun c => time <= c) (checks (snd (loop fuel (enter time))))
     /\ (fst (loop fuel (enter time)) = Stopped ->
         Monitor._thread_active world (now (snd (loop fuel (enter time)))) = false))
  /\ (forall fuel time,
        Monitor._thread_active world time = true ->
        check_rate <= time ->
        exists later, checks (snd (loop (Datatypes.S fuel) (enter time)))
                      = (later ++ [time])%list)
  /\ (forall fuel l before txn_hash event_logs after back e,
        Monitor._thread_active world (now l) = true ->
        last_check_time l + check_rate <= now l ->
        get_new_logs _eth_event_client _dry_run (now l)
        = (Ok (before ++ (txn_hash, event_logs) :: after), back) ->
        fst (handle_all _handle_txn_logs before) = Ok tt ->
        fst (_handle_txn_logs txn_hash event_logs) = Raise e ->
        fst (loop (Datatypes.S fuel) l) = Failed e
        /\ effects (snd (loop (Datatypes.S fuel) l))
           = (effects l ++ snd (handle_all _handle_txn_logs before)
              ++ snd (_handle_txn_logs txn_hash event_logs))%list).
Proof.
  split; [| split].
  - intros fuel time.
    destruct (loop_keeps time fuel (enter time)) as (H1 & H2 & H3 & _ & H5).
    + constructor; cbn [enter checks last_check_time now paced];
        try constructor; try reflexivity. apply Qle_refl.
    + repeat split; assumption.
  - intros fuel time Hactive Hdue.
    assert (Hgrow : forall fuel l,
              exists later, checks (snd (loop fuel l)) = (later ++ checks l)%list).
    { clear. induction fuel as [| fuel IH]; intros l.
      - exists []. reflexivity.
      - cbn [_monitor_method].
        destruct (negb (Monitor._thread_active world (now l))); [exists []; reflexivity |].
        destruct (Qltb (now l) (last_check_time l + check_rate)).
        + destruct (IH {| now := Monitor.sleep world (now l) (1 # 2);
                          last_check_time := last_check_time l;
                          checks := checks l; effects := effects l |}) as (later & E).
          exists later. exact E.
        + destruct (get_new_logs _eth_event_client _dry_run (now l)) as [answer back].
          destruct answer as [new_logs | e]; [| exists [now l]; reflexivity].
          destruct (handle_all _handle_txn_logs new_logs) as [[[] | e] t];
            [| exists [now l]; reflexivity].
          match goal with |- context [loop fuel ?x] => destruct (IH x) as (later & E) end.
          exists (later ++ [now l])%list. rewrite E. cbn [checks].
          rewrite <- app_assoc. reflexivity. }
    cbn [_monitor_method enter now last_check_time]. rewrite Hactive. cbn [negb].
    destruct (Qltb time (0 + check_rate)) eqn:Hwait;
      [apply Qltb_true in Hwait; lra |].
    destruct (get_new_logs _eth_event_client _dry_run time) as [answer back].
    destruct answer as [new_logs | e]; [| exists []; reflexivity].
    destruct (handle_all _handle_txn_logs new_logs) as [[[] | e] t];
      [| exists []; reflexivity].
    match goal with |- context [loop fuel ?x] => destruct (Hgrow fuel x) as (later & E) end.
    exists later. exact E.
  - intros fuel l before txn_hash event_logs after back e Hactive Hdue Hlogs Hbefore Hfail.
    cbn [_monitor_method]. rewrite Hactive. cbn [negb].
    destruct (Qltb (now l) (last_check_time l + check_rate)) eqn:Hwait;
      [apply Qltb_true in Hwait; lra |].
    rewrite Hlogs. unfold handle_all in *.
    rewrite (for_each_raises_within _ before (txn_hash, event_logs) after e Hbefore Hfail).
    cbn [fst snd effects]. split; reflexivity.
Qed.

End EventLoop.

Lemma monitor_method_checks_are_paced_witness :
  paced EventMonitor.POOL_CHECK_RATE
    (EventMonitor.checks
       (snd (EventMonitor.PoolMonitor_monitor_method stopped_world sample_event_client
               false sample_eth_chain (sample_blockchain_client "0xa9059cbb") 60
               (EventMonitor.enter 10))))
  /\ exists later,
       EventMonitor.checks
         (snd (EventMonitor.PoolMonitor_monitor_method flaky_world sample_event_client
                 false sample_eth_chain (sample_blockchain_client "0xa9059cbb") 3
                 (EventMonitor.enter 1700000000)))
       = (later ++ [1700000000])%list.
Proof.
  split.
  - destruct (monitor_method_checks_are_paced unit stopped_world sample_event_client false
                EventMonitor.POOL_CHECK_RATE
                (PoolMonitor._handle_txn_logs sample_eth_chain
                   (sample_blockchain_client "0xa9059cbb"))
                (fun t d => Qle_refl (t + d)) (fun _ t => Qle_refl t))
      as (Hpaced & _).
    destruct (Hpaced 60%nat 10) as (H & _). exact H.
  - destruct (monitor_method_checks_are_paced nat flaky_world sample_event_client false
                EventMonitor.POOL_CHECK_RATE
                (PoolMonitor._handle_txn_logs sample_eth_chain
                   (sample_blockchain_client "0xa9059cbb"))
                (fun t d => Qle_refl (t + d)) (fun _ t => Qle_refl t))
      as (_ & Hfirst & _).
    apply (Hfirst 2%nat 1700000000); [reflexivity | discriminate].
Defined.


(* ================================================================= *)
(** * Rounding to a float *)

Section Rounding.

Import Rounded.
Local Open Scope Q_scope.

Lemma two_pow_pos (k : Z) : 0 < 2 ^ k.
Proof. apply Qpower_0_lt. reflexivity. Qed.

Lemma two_pow_succ (k : Z) : 2 ^ (k + 1) == 2 * 2 ^ k.
Proof. rewrite Qpower_plus by discriminate. change (2 ^ 1) with 2. ring. Qed.

Lemma two_pow_pred (k : Z) : 2 * 2 ^ (k - 1) == 2 ^ k.
Proof.
  rewrite <- two_pow_succ. replace (k - 1 + 1)%Z with k by lia. reflexivity.
Qed.


(** The whole power of two below a positive integer, as a rational. *)
Lemma log2_bounds (n : Z) :
  (0 < n)%Z ->
  2 ^ Z.log2 n <= inject_Z n /\ inject_Z n < 2 * 2 ^ Z.log2 n.
Proof.
  intros Hn. destruct (Z.log2_spec n Hn) as (Hlo & Hhi).
  pose proof (Z.log2_nonneg n) as Hk.
  rewrite Z.pow_succ_r in Hhi by exact Hk.
  rewrite Zle_Qle in Hlo. rewrite Zlt_Qlt in Hhi.
  rewrite inject_Z_mult in Hhi.
  rewrite (Zpower_Qpower 2 _ Hk) in Hlo, Hhi.
  change (inject_Z 2) with 2 in *. split; assumption.
Qed.

Lemma ilog2_spec (x : Q) :
  0 < x -> 2 ^ ilog2 x <= x /\ x < 2 ^ (ilog2 x + 1).
Proof.
  intros Hx. unfold ilog2.
  assert (Hp : (0 < Qnum x)%Z).
  { unfold Qlt in Hx. cbn in Hx. lia. }
  destruct (log2_bounds (Qnum x) Hp) as (Pl & Ph).
  destruct (log2_bounds (Zpos (Qden x)) eq_refl) as (Dl & Dh).
  set (a := Z.log2 (Qnum x)) in *. set (b := Z.log2 (Zpos (Qden x))) in *.
  assert (Ex : x * inject_Z (Zpos (Qden x)) == inject_Z (Qnum x)).
  { unfold Qeq, Qmult, inject_Z. cbn [Qnum Qden]. rewrite Pos.mul_1_r. ring. }
  assert (Ek : 2 ^ (a - b) * 2 ^ b == 2 ^ a).
  { rewrite <- Qpower_plus by discriminate. replace (a - b + b)%Z with a by lia.
    reflexivity. }
  pose proof (two_pow_pos a) as Ha. pose proof (two_pow_pos b) as Hb.
  pose proof (two_pow_pos (a - b)) as Hk.
  set (P := inject_Z (Qnum x)) in *. set (D := inject_Z (Zpos (Qden x))) in *.
  set (A := 2 ^ a) in *. set (B := 2 ^ b) in *.
  destruct (Qle_bool (2 ^ (a - b)) x) eqn:Hcmp.
  - apply Qle_bool_iff in Hcmp. split; [exact Hcmp |].
    rewrite two_pow_succ. set (T := 2 ^ (a - b)) in *.
    apply (Qmult_lt_r _ _ D); [lra |]. nra.
  - assert (Hlt : x < 2 ^ (a - b)).
    { apply Qnot_le_lt. intros H. apply Qle_bool_iff in H. congruence. }
    replace (a - b - 1 + 1)%Z with (a - b)%Z by lia. split; [| exact Hlt].
    pose proof (two_pow_pred (a - b)) as Epred.
    pose proof (two_pow_pos (a - b - 1)) as Hk'.
    set (T := 2 ^ (a - b)) in *. set (U := 2 ^ (a - b - 1)) in *.
    apply (Qmult_le_r _ _ D); [lra |]. nra.
Qed.

Lemma ilog2_unique (x : Q) (k : Z) :
  2 ^ k <= x -> x < 2 ^ (k + 1) -> ilog2 x = k.
Proof.
  intros Hlo Hhi.
  assert (Hx : 0 < x) by (pose proof (two_pow_pos k); lra).
  destruct (ilog2_spec x Hx) as (Slo & Shi).
  assert (H1 : (ilog2 x < k + 1)%Z).
  { apply (Qpower_lt_compat_l_inv 2); [lra | reflexivity]. }
  assert (H2 : (k < ilog2 x + 1)%Z).
  { apply (Qpower_lt_compat_l_inv 2); [lra | reflexivity]. }
  lia.
Qed.


Lemma ilog2_compat (x y : Q) : 0 < x -> x == y -> ilog2 x = ilog2 y.
Proof.
  intros Hx E. destruct (ilog2_spec x Hx) as (Slo & Shi).
  symmetry. apply ilog2_unique; rewrite <- E; assumption.
Qed.

Lemma nearest_even_compat (x y : Q) : x == y -> nearest_even x = nearest_even y.
Proof. intros E. unfold nearest_even. rewrite (Qred_complete x y E). reflexivity. Qed.


Lemma round_positive_compat (x y : Q) :
  0 < x -> x == y -> round_positive x = round_positive y.
Proof.
  intros Hx E. unfold round_positive.
  rewrite (ilog2_compat x y Hx E).
  rewrite (nearest_even_compat (x * 2 ^ (- (ilog2 y - 52))) (y * 2 ^ (- (ilog2 y - 52))))
    by (rewrite E; reflexivity).
  reflexivity.
Qed.

Lemma round_compat (x y : Q) : x == y -> round x = round y.
Proof.
  intros E. unfold round.
  assert (Hz : Qeq_bool x 0 = Qeq_bool y 0).
  { destruct (Qeq_bool x 0) eqn:Hx, (Qeq_bool y 0) eqn:Hy; try reflexivity.
    - apply Qeq_bool_iff in Hx. rewrite E in Hx. apply Qeq_bool_iff in Hx. congruence.
    - apply Qeq_bool_iff in Hy. rewrite <- E in Hy. apply Qeq_bool_iff in Hy. congruence. }
  assert (Hs : Qle_bool 0 x = Qle_bool 0 y).
  { destruct (Qle_bool 0 x) eqn:Hx, (Qle_bool 0 y) eqn:Hy; try reflexivity.
    - apply Qle_bool_iff in Hx. rewrite E in Hx. apply Qle_bool_iff in Hx. congruence.
    - apply Qle_bool_iff in Hy. rewrite <- E in Hy. apply Qle_bool_iff in Hy. congruence. }
  rewrite <- Hz, <- Hs.
  destruct (Qeq_bool x 0) eqn:Hx; [reflexivity |].
  assert (Hne : ~ x == 0) by (intros H; apply Qeq_bool_iff in H; congruence).
  destruct (Qle_bool 0 x) eqn:Hle.
  - apply Qle_bool_iff in Hle. apply round_positive_compat; [| exact E].
    destruct (Qle_lt_or_eq _ _ Hle) as [H | H]; [exact H |]. exfalso. apply Hne.
    symmetry. exact H.
  - assert (Hneg : x < 0).
    { apply Qnot_le_lt. intros H. apply Qle_bool_iff in H. congruence. }
    rewrite (round_positive_compat (- x) (- y)); [reflexivity | lra |].
    rewrite E. reflexivity.
Qed.






End Rounding.


(* ================================================================= *)
(** * The LP equivalent, with the rounding of floats *)

Section RoundedLpEqValues.

Import Rounded.
Local Open Scope Q_scope.




















End RoundedLpEqValues.

